(** * ember-mcp: segmentation, search ranking, excerpts, best practices,
      the deprecation registry, links, release notes and version
      information

    A shallow embedding of [lib/documentation-service.js],
    [lib/deprecation-manager.js] and [lib/url-builder.js].

    Conventions of the embedding.
    - A JavaScript string is a [string]: a sequence of 8-bit code units, read
      as the Latin-1 range of a JS string.
    - JavaScript numbers that hold scores, offsets and limits are integers,
      modelled in [Z]; array lengths and match counts are [nat].
    - A function that can throw returns a [Completion].
    - [lib/config.js] is not part of the sources at hand: the constants of
      [SEARCH_CONFIG] and [BEST_PRACTICES_KEYWORDS] are fields of a record
      that every definition takes as a parameter, and so are the two base
      addresses of the links.
    - What the host platform computes and the sources do not define
      (regular expressions that are more than plain text, [JSON.parse], the
      [pluralize] package) is a field of [Host]; every result holds for any
      host. The same goes for the three extraction patterns of
      [analyzeContent] ([DeprecationText.Captures]) and for the two icons of
      the warnings ([DeprecationText.Icons]).
    - Patterns that look for fixed words, for names of a fixed shape or for
      version numbers are matched by functions written out here.
    - Left out: the index of API records and [getApiReference], which rest
      on [JSON.parse]; [parseRelease], which rests on [Date]; the formatters
      of [lib/formatters.js] and the server of [index.js]. *)

From Stdlib Require Import ZArith Lia List Bool Arith Ascii String.
From Stdlib Require Import Sorted Permutation.
Import ListNotations.

Local Open Scope string_scope.
Local Open Scope list_scope.

(** ** Completions: a value or a thrown exception *)

Inductive JsError : Type :=
| SyntaxError
| TypeError.

Inductive Completion (A : Type) : Type :=
| Returns (a : A)
| Throws (e : JsError).

Arguments Returns {A} a.
Arguments Throws {A} e.

Definition bind {A B : Type} (m : Completion A) (k : A -> Completion B)
  : Completion B :=
  match m with
  | Returns a => k a
  | Throws e => Throws e
  end.

Notation "x <- m ;; k" := (bind m (fun x => k))
  (at level 61, m at next level, right associativity).

(** [for (const x of xs) acc = body(acc, x)], stopping at the first throw. *)
Fixpoint foldC {A S : Type} (body : S -> A -> Completion S) (xs : list A)
  (acc : S) : Completion S :=
  match xs with
  | [] => Returns acc
  | x :: xs' => acc' <- body acc x ;; foldC body xs' acc'
  end.

(** ** JavaScript strings *)

Module Js.

Definition dquote : ascii := ascii_of_nat 34.
Definition newline : ascii := ascii_of_nat 10.
Definition cr : ascii := ascii_of_nat 13.
Definition space : ascii := ascii_of_nat 32.

Definition code (c : ascii) : nat := nat_of_ascii c.

Definition between (lo hi : nat) (c : ascii) : bool :=
  (lo <=? code c)%nat && (code c <=? hi)%nat.

(** [\s] and the characters removed by [trim]: TAB, LF, VT, FF, CR, space
    and the no-break space. *)
Definition isSpace (c : ascii) : bool :=
  between 9 13 c || (code c =? 32)%nat || (code c =? 160)%nat.

Definition isUpper (c : ascii) : bool := between 65 90 c.
Definition isLower (c : ascii) : bool := between 97 122 c.
Definition isDigit (c : ascii) : bool := between 48 57 c.
Definition isLetter (c : ascii) : bool := isUpper c || isLower c.

(** [String.prototype.toLowerCase] on one code unit: A-Z and the Latin-1
    capitals (all of 0xC0-0xDE but the multiplication sign). *)
Definition lowerChar (c : ascii) : ascii :=
  if isUpper c || (between 192 222 c && negb (code c =? 215)%nat)
  then ascii_of_nat (code c + 32)
  else c.

Fixpoint toLowerCase (s : string) : string :=
  match s with
  | EmptyString => EmptyString
  | String c s' => String (lowerChar c) (toLowerCase s')
  end.

Definition len (s : string) : Z := Z.of_nat (String.length s).

Definition isEmpty (s : string) : bool :=
  match s with
  | EmptyString => true
  | String _ _ => false
  end.

(** [s.includes(x)] and [s.indexOf(x)] ([-1] when absent). *)
Definition includes (x s : string) : bool :=
  match index 0 x s with
  | Some _ => true
  | None => false
  end.

Definition indexOf (x s : string) : Z :=
  match index 0 x s with
  | Some n => Z.of_nat n
  | None => (-1)%Z
  end.

Definition startsWith (x s : string) : bool := prefix x s.

(** [s.lastIndexOf(x)] for a one-character [x]. *)
Fixpoint lastIndexOfChar (c : ascii) (s : string) (i : Z) : Z :=
  match s with
  | EmptyString => (-1)%Z
  | String d s' =>
      let later := lastIndexOfChar c s' (i + 1) in
      if (later =? -1)%Z then (if Ascii.eqb c d then i else (-1)%Z)
      else later
  end.

(** [s.substring(a, b)]: both ends clamped to the string, swapped when
    out of order. *)
Definition substring (s : string) (a b : Z) : string :=
  let a' := Z.min (Z.max a 0) (len s) in
  let b' := Z.min (Z.max b 0) (len s) in
  let lo := Z.min a' b' in
  let hi := Z.max a' b' in
  String.substring (Z.to_nat lo) (Z.to_nat (hi - lo)) s.

(** [s.substring(a)]. *)
Definition substringFrom (s : string) (a : Z) : string :=
  substring s a (len s).

Fixpoint trimStart (s : string) : string :=
  match s with
  | EmptyString => EmptyString
  | String c s' => if isSpace c then trimStart s' else s
  end.

Fixpoint trimEnd (s : string) : string :=
  match s with
  | EmptyString => EmptyString
  | String c s' =>
      let t := trimEnd s' in
      if isSpace c && isEmpty t then EmptyString else String c t
  end.

Definition trim (s : string) : string := trimEnd (trimStart s).

(** [s.split(c)] for a separator that is one character of a class: the
    pieces between separators, empty pieces included. *)
Fixpoint splitOn (sep : ascii -> bool) (s : string) : list string :=
  match s with
  | EmptyString => [EmptyString]
  | String c s' =>
      if sep c then EmptyString :: splitOn sep s'
      else match splitOn sep s' with
           | [] => [String c EmptyString]
           | w :: ws => String c w :: ws
           end
  end.

(** [text.split("\n")]. *)
Definition lines (s : string) : list string := splitOn (Ascii.eqb newline) s.

(** [s.split(/\s+/).filter(t => t.length > n)]: a run of white space
    separates like one white space does once the empty pieces are
    dropped. *)
Definition wordsLongerThan (n : nat) (s : string) : list string :=
  filter (fun t => (n <? String.length t)%nat) (splitOn isSpace s).

(** [xs.join("\n")]. *)
Definition joinLines (xs : list string) : string :=
  String.concat (String newline EmptyString) xs.

Definition joinSpaces (xs : list string) : string :=
  String.concat (String space EmptyString) xs.

Fixpoint allChars (p : ascii -> bool) (s : string) : bool :=
  match s with
  | EmptyString => true
  | String c s' => p c && allChars p s'
  end.

Fixpoint anyChar (p : ascii -> bool) (s : string) : bool :=
  match s with
  | EmptyString => false
  | String c s' => p c || anyChar p s'
  end.

Definition charIn (set : string) (c : ascii) : bool :=
  anyChar (Ascii.eqb c) set.

(** [Array.prototype.slice(0, end)]: a negative [end] counts from the
    back. *)
Definition slice0 {A : Type} (xs : list A) (e : Z) : list A :=
  let n := Z.of_nat (List.length xs) in
  let final := if (e <? 0)%Z then Z.max (n + e) 0 else Z.min e n in
  firstn (Z.to_nat final) xs.

(** [Array.prototype.sort(cmp)]: a stable sort (required of the platform
    since ECMAScript 2019); [x] stays in front of a later [y] unless
    [cmp x y] is positive. *)
Fixpoint insertSorted {A : Type} (cmp : A -> A -> Z) (x : A) (l : list A)
  : list A :=
  match l with
  | [] => [x]
  | y :: l' =>
      if (0 <? cmp x y)%Z then y :: insertSorted cmp x l' else x :: l
  end.

Fixpoint sort {A : Type} (cmp : A -> A -> Z) (l : list A) : list A :=
  match l with
  | [] => []
  | x :: l' => insertSorted cmp x (sort cmp l')
  end.

(** Order by a key, for the lists that [sort] returns. *)
Definition keyLe {A : Type} (key : A -> Z) (a b : A) : Prop :=
  (key a <= key b)%Z.

(** [x] occurs in [s]. *)
Definition occursIn (x s : string) : Prop :=
  exists a b, s = (a ++ x ++ b)%string.

End Js.

(** ** Configuration and host platform *)

(** [SEARCH_CONFIG] and [BEST_PRACTICES_KEYWORDS] of [lib/config.js]. The
    file is not among the sources, so the values stay abstract; the scoring
    constants are integers and the divisor is not zero. *)
Record SEARCH_CONFIG : Type := {
  EXACT_PHRASE_BONUS : Z;
  TITLE_MATCH_BONUS : Z;
  TERM_MATCH_WEIGHT : Z;
  ALL_TERMS_BONUS : Z;
  PROXIMITY_THRESHOLD : Z;
  PROXIMITY_BONUS_DIVISOR : Z;
  MIN_SCORE : Z;
  MIN_SCORE_SINGLE_TERM : Z;
  BP_TERM_MATCH_WEIGHT : Z;
  BP_ALL_TERMS_BONUS : Z;
  BP_STRONG_KEYWORD_WEIGHT : Z;
  BP_WEAK_KEYWORD_WEIGHT : Z;
  BP_MIN_THRESHOLD : Z;
  MAX_BEST_PRACTICES : Z;
  strong : list string;
  weak : list string
}.

(** The value of [data.attributes.name] in a parsed record, when it is set:
    a string, or a value of another type (a number, an object, ...), which
    has no [toLowerCase]. *)
Inductive JsonName : Type :=
| NameText (n : string)
| NameOther.

(** What the platform and the [pluralize] package compute.
    - [regexCount term content]: the number of matches of
      [new RegExp(term, "gi")] in [content] for a [term] that is more than
      plain text, [None] when the constructor throws;
    - [frontmatterTitle]: the capture of the front-matter pattern of
      [extractTitle];
    - [jsonName]: [JSON.parse] of the record found in an item, followed by
      [data.attributes.name]; [None] when there is no record, when parsing
      throws or when the name is missing or falsy;
    - [singular], [plural]: [pluralize.singular] and [pluralize.plural] after
      the rules of [PLURALIZATION_RULES] were added. *)
Record Host : Type := {
  regexCount : string -> string -> option nat;
  frontmatterTitle : string -> option string;
  jsonName : string -> option JsonName;
  singular : string -> string;
  plural : string -> string
}.

(** ** Regular expressions built from a search term *)

Module Regex.

(** The syntax characters of a pattern; a term without any of them is a
    pattern that matches its own text. *)
Definition isSyntaxChar (c : ascii) : bool := Js.charIn "^$\.*+?()[]{}|" c.

Definition isPlain (p : string) : bool := negb (Js.anyChar isSyntaxChar p).

(** Matches of a plain pattern, scanning left to right; after a match the
    scan resumes behind it ([skip] characters are still part of the last
    match). The empty pattern matches once at every position and once at
    the end. *)
Fixpoint countPlain (p s : string) (skip : nat) : nat :=
  match s with
  | EmptyString => if Js.isEmpty p then 1 else 0
  | String _ s' =>
      match skip with
      | S k => countPlain p s' k
      | O =>
          if prefix p s then S (countPlain p s' (String.length p - 1))
          else countPlain p s' 0
      end
  end.

(** Patterns the constructor rejects. The three rules are sound, not
    complete: a quantifier with nothing to repeat in front, a group that is
    opened and not closed (or closed and not opened) in a pattern free of
    escapes and classes, and a class that is opened and never closed in a
    pattern free of escapes. *)
Definition nothingToRepeat (p : string) : bool :=
  match p with
  | EmptyString => false
  | String c _ => Js.charIn "*+?" c
  end.

Fixpoint groupsBalanced (p : string) (depth : nat) : bool :=
  match p with
  | EmptyString => (depth =? 0)%nat
  | String c p' =>
      if Ascii.eqb c "("%char then groupsBalanced p' (S depth)
      else if Ascii.eqb c ")"%char then
        match depth with
        | O => false
        | S d => groupsBalanced p' d
        end
      else groupsBalanced p' depth
  end.

Definition unbalancedGroup (p : string) : bool :=
  negb (Js.anyChar (Js.charIn "\[]") p) && negb (groupsBalanced p 0).

Fixpoint afterFirst (c : ascii) (p : string) : option string :=
  match p with
  | EmptyString => None
  | String d p' => if Ascii.eqb c d then Some p' else afterFirst c p'
  end.

Definition unterminatedClass (p : string) : bool :=
  negb (Js.anyChar (Ascii.eqb "\"%char) p) &&
  match afterFirst "["%char p with
  | Some rest => negb (Js.anyChar (Ascii.eqb "]"%char) rest)
  | None => false
  end.

Definition invalid (p : string) : bool :=
  nothingToRepeat p || unbalancedGroup p || unterminatedClass p.

(** [(content.match(new RegExp(term, "gi")) || []).length]. The content is
    already in lower case and so is the term, which makes the [i] flag
    immaterial for a plain term. *)
Definition matchCount (host : Host) (term content : string)
  : Completion nat :=
  if isPlain term then Returns (countPlain term content 0)
  else if invalid term then Throws SyntaxError
  else match regexCount host term content with
       | Some n => Returns n
       | None => Throws SyntaxError
       end.

End Regex.

(** ** Sections and items *)

Record Item : Type := { content : string; startLine : nat }.

(** [this.sections]: an object whose own keys are section names, kept in
    insertion order (what [Object.keys] enumerates). *)
Definition Sections : Type := list (string * list Item).

Fixpoint getSection (sections : Sections) (name : string)
  : option (list Item) :=
  match sections with
  | [] => None
  | (k, v) :: rest => if String.eqb k name then Some v else getSection rest name
  end.

(** [this.sections[name] || []]. *)
Definition sectionItemsOf (sections : Sections) (name : string) : list Item :=
  match getSection sections name with
  | Some items => items
  | None => []
  end.

Definition keys (sections : Sections) : list string := map fst sections.

Definition isOneOf (names : list string) (s : string) : bool :=
  existsb (String.eqb s) names.

(** The start lines of all the items, section after section. *)
Definition starts (secs : Sections) : list nat :=
  map startLine (flat_map snd secs).

(** The number of items of a section. *)
Definition itemCount (secs : Sections) (name : string) : nat :=
  List.length (sectionItemsOf secs name).

(** ** [extractTitle] *)

Module Title.

Definition startsWithAny (ps : list string) (s : string) : bool :=
  existsb (fun p => prefix p s) ps.

(** [genericPatterns.some(pattern => pattern.test(t))]; the first seven
    patterns carry the [i] flag and are tried on the lower-case text. *)
Definition isGeneric (t : string) : bool :=
  let l := Js.toLowerCase t in
  startsWithAny ["for all"; "for any"; "for most"; "for some"] l
  || startsWithAny ["in this"; "in these"; "in all"; "in any"] l
  || startsWithAny ["with this"; "with these"; "with all"; "with any"] l
  || startsWithAny ["using this"; "using these"; "using all"; "using any"] l
  || startsWithAny ["note:"; "warning:"; "tip:"; "important:"] l
  || startsWithAny ["here is"; "here are"; "there is"; "there are";
                    "this is"; "this are"; "that is"; "that are"] l
  || startsWithAny ["http://"; "https://"] l
  || (negb (Js.isEmpty t)
      && Js.allChars (fun c => Js.isDigit c || Ascii.eqb c "."%char) t)
  || match t with
     | String c (String d _) => Js.charIn "-*+" c && Js.isSpace d
     | _ => false
     end.

Fixpoint dropHashes (s : string) : string :=
  match s with
  | String c s' => if Ascii.eqb c "#"%char then dropHashes s' else s
  | EmptyString => s
  end.

(** [line.match(/^#+\s+(.+)$/)], trimmed: one or more hashes, white space,
    then text up to the end of the line that holds no line terminator. A
    header whose text is blank is reported as no header: its title could
    not pass the length test that follows. *)
Definition headerTitle (line : string) : option string :=
  if prefix "#" line then
    match dropHashes line with
    | String c rest =>
        if Js.isSpace c then
          let r := Js.trimStart rest in
          if Js.isEmpty r || Js.anyChar (Ascii.eqb Js.cr) r then None
          else Some (Js.trim r)
        else None
    | EmptyString => None
    end
  else None.

Fixpoint firstHeader (ls : list string) : option string :=
  match ls with
  | [] => None
  | line :: rest =>
      match headerTitle line with
      | Some t =>
          if negb (isGeneric t) && (3 <? String.length t)%nat then Some t
          else firstHeader rest
      | None => firstHeader rest
      end
  end.

Definition isTerminator (c : ascii) : bool := Js.charIn ".!?" c.

Fixpoint throughTerminator (s : string) : option string :=
  match s with
  | EmptyString => None
  | String c s' =>
      if isTerminator c then Some (String c EmptyString)
      else option_map (String c) (throughTerminator s')
  end.

(** [trimmed.match(/^([^.!?]+[.!?])/)]. *)
Definition firstSentence (t : string) : option string :=
  match t with
  | EmptyString => None
  | String c _ => if isTerminator c then None else throughTerminator t
  end.

Definition skipped (trimmed : string) : bool :=
  Js.isEmpty trimmed
  || (Js.allChars (Js.charIn "-=") trimmed)
  || prefix "{" trimmed || prefix "[" trimmed || prefix "```" trimmed
  || startsWithAny ["http://"; "https://"] trimmed.

Fixpoint fallback (ls : list string) : string :=
  match ls with
  | [] => "Untitled"
  | line :: rest =>
      let trimmed := Js.trim line in
      if skipped trimmed then fallback rest
      else if isGeneric trimmed then fallback rest
      else if (10 <? String.length trimmed)%nat then
        match firstSentence trimmed with
        | Some s => Js.substring (Js.trim s) 0 100
        | None => Js.substring trimmed 0 100
        end
      else fallback rest
  end.

Definition dataKey : string :=
  String Js.dquote ("data" ++ String Js.dquote EmptyString)%string.

(** The front-matter pattern starts with three dashes at the start of the
    content, and the record pattern needs the text ["data"] with its
    quotes; without them neither can match and the host is not asked.

    [extractTitle] returns a string in every case but one: the name of a
    record is handed on as it is, whatever its type. [extractTitle] below
    is the title when it is a string, and [isText] tells whether it is; on
    a title that is not a string [title.toLowerCase()] throws, which is
    the first thing [search] does with a title. *)
Definition extractTitle (host : Host) (content : string) : string :=
  let ls := Js.lines content in
  match (if prefix "---" content then frontmatterTitle host content
         else None) with
  | Some t => Js.trim t
  | None =>
      match firstHeader ls with
      | Some t => t
      | None =>
          match (if Js.includes dataKey content then jsonName host content
                 else None) with
          | Some (NameText n) => n
          | Some NameOther => EmptyString
          | None => fallback ls
          end
      end
  end.

(** Whether the value that [extractTitle] returns is a string. *)
Definition isText (host : Host) (content : string) : bool :=
  match (if prefix "---" content then frontmatterTitle host content
         else None) with
  | Some _ => true
  | None =>
      match firstHeader (Js.lines content) with
      | Some _ => true
      | None =>
          match (if Js.includes dataKey content then jsonName host content
                 else None) with
          | Some NameOther => false
          | _ => true
          end
      end
  end.

(** The title of [content] is found in its text: a header qualifies, or the
    text ["data"] that the record pattern needs is absent. The name of a
    record is then never looked at, whatever the host. *)
Definition textual (content : string) : bool :=
  match firstHeader (Js.lines content) with
  | Some _ => true
  | None => negb (Js.includes dataKey content)
  end.

End Title.

(** ** [extractExcerpt] *)

Record Hit : Type := { term : string; pos : Z }.

Module Excerpt.

(** The inner loop: the hits after [p], in order, up to the first one that
    lies 500 or more behind [p]. *)
Fixpoint within (p : Z) (later : list Hit) : nat :=
  match later with
  | [] => O
  | h :: t => if (pos h - p <? 500)%Z then S (within p t) else O
  end.

(** The outer loop over the sorted hits, carrying
    [(bestStart, bestDensity)]. *)
Fixpoint scanClusters (hits : list Hit) (best : Z * nat) : Z * nat :=
  match hits with
  | [] => best
  | h :: rest =>
      let clusterSize := S (within (pos h) rest) in
      scanClusters rest
        (if (snd best <? clusterSize)%nat then (pos h, clusterSize)
         else best)
  end.

Definition byPos (a b : Hit) : Z := (pos a - pos b)%Z.

Definition bestCluster (termPositions : list Hit) : Z * nat :=
  let sorted := Js.sort byPos termPositions in
  match sorted with
  | [] => (0%Z, 1%nat)
  | h :: _ => scanClusters sorted (pos h, 1%nat)
  end.

Definition bestStart (termPositions : list Hit) : Z :=
  fst (bestCluster termPositions).

Definition contextStart (termPositions : list Hit) : Z :=
  Z.max 0 (bestStart termPositions - 150).

Definition contextEnd (content : string) (termPositions : list Hit) : Z :=
  Z.min (Js.len content) (bestStart termPositions + 400).

(** The hits of [l] from index [k] on that lie less than 500 behind the hit
    at [k], that hit included: the size of the window that opens at [k]. *)
Definition hitsInWindow (l : list Hit) (k : nat) : nat :=
  match skipn k l with
  | [] => O
  | h :: rest =>
      S (List.length (filter (fun x => (pos x - pos h <? 500)%Z) rest))
  end.

(** [.replace(/\{[\s\S]*?"data"[\s\S]*?\}/g, '[API Data]')]: from the first
    opening brace through the first closing brace behind the first
    ["data"] behind it. *)
Fixpoint replaceApiData (fuel : nat) (s : string) : string :=
  match fuel with
  | O => s
  | S f =>
      match index 0 "{" s with
      | None => s
      | Some i =>
          match index (i + 1) Title.dataKey s with
          | None => s
          | Some k =>
              match index (k + 6) "}" s with
              | None => s
              | Some m =>
                  (String.substring 0 i s ++ "[API Data]" ++
                   replaceApiData f
                     (String.substring (m + 1) (String.length s - (m + 1)) s)
                  )%string
              end
          end
      end
  end.

(** [.replace(/```[\s\S]*?```/g, '[Code Example]')]. *)
Fixpoint replaceCode (fuel : nat) (s : string) : string :=
  match fuel with
  | O => s
  | S f =>
      match index 0 "```" s with
      | None => s
      | Some i =>
          match index (i + 3) "```" s with
          | None => s
          | Some m =>
              (String.substring 0 i s ++ "[Code Example]" ++
               replaceCode f
                 (String.substring (m + 3) (String.length s - (m + 3)) s)
              )%string
          end
      end
  end.

(** [.replace(/\n{3,}/g, '\n\n')]. *)
Fixpoint collapseNewlines (s : string) (run : nat) : string :=
  match s with
  | EmptyString => EmptyString
  | String c s' =>
      if Ascii.eqb c Js.newline then
        if (run <? 2)%nat then String c (collapseNewlines s' (S run))
        else collapseNewlines s' (S run)
      else String c (collapseNewlines s' O)
  end.

(** Every round of a replacement leaves a shorter rest, so the length of the
    text is fuel enough. *)
Definition replaceAllApiData (s : string) : string :=
  replaceApiData (String.length s) s.

Definition replaceAllCode (s : string) : string :=
  replaceCode (String.length s) s.

Definition cleanCluster (s : string) : string :=
  Js.trim (collapseNewlines (replaceAllCode (replaceAllApiData s)) O).

Definition cleanTerm (s : string) : string :=
  Js.trim (replaceAllCode (replaceAllApiData s)).

(** The branch taken when there are term positions. *)
Definition aroundCluster (content : string) (termPositions : list Hit)
  : string :=
  let cs := contextStart termPositions in
  let ce := contextEnd content termPositions in
  let e0 := Js.substring content cs ce in
  let e1 :=
    if (0 <? cs)%Z then
      let spaceIndex := Js.indexOf " " e0 in
      ("..." ++
       (if (0 <? spaceIndex)%Z && (spaceIndex <? 50)%Z
        then Js.substringFrom e0 (spaceIndex + 1) else e0))%string
    else e0 in
  let e2 :=
    if (ce <? Js.len content)%Z then
      let lastSpace := Js.lastIndexOfChar Js.space e1 0 in
      ((if (Js.len e1 - 50 <? lastSpace)%Z
        then Js.substring e1 0 lastSpace else e1) ++ "...")%string
    else e1 in
  cleanCluster e2.

Fixpoint aroundFirstTerm (content contentLower : string)
  (searchTerms : list string) : option string :=
  match searchTerms with
  | [] => None
  | t :: rest =>
      let termIndex := Js.indexOf t contentLower in
      if (termIndex =? -1)%Z then aroundFirstTerm content contentLower rest
      else
        let s := Z.max 0 (termIndex - 100) in
        let e := Z.min (Js.len content) (termIndex + 300) in
        let e0 := Js.substring content s e in
        let e1 := if (0 <? s)%Z then ("..." ++ e0)%string else e0 in
        let e2 :=
          if (e <? Js.len content)%Z then (e1 ++ "...")%string else e1 in
        Some (cleanTerm e2)
  end.

Fixpoint firstParagraph (ls : list string) : string :=
  match ls with
  | [] => "No preview available"
  | line :: rest =>
      let trimmed := Js.trim line in
      if negb (Js.isEmpty trimmed)
         && negb (match trimmed with
                  | String c _ => Js.charIn "#-=" c
                  | EmptyString => false
                  end)
         && negb (prefix "{" trimmed)
         && (30 <? String.length trimmed)%nat
      then Js.substring trimmed 0 350
      else firstParagraph rest
  end.

Definition extractExcerpt (content : string) (searchTerms : list string)
  (termPositions : list Hit) : string :=
  match termPositions with
  | _ :: _ => aroundCluster content termPositions
  | [] =>
      match aroundFirstTerm content (Js.toLowerCase content) searchTerms with
      | Some e => e
      | None => firstParagraph (Js.lines content)
      end
  end.

Definition posLe (a b : Hit) : Prop := (pos a <= pos b)%Z.

(** The size the outer loop computes for the hit at index [k]. *)
Definition sizeAt (l : list Hit) (k : nat) : nat :=
  match skipn k l with
  | [] => O
  | h :: rest => S (within (pos h) rest)
  end.

End Excerpt.

(** ** [search] *)

(** One entry of the array [search] returns. The fields [url], [apiLink] and
    [deprecationInfo] of the source are presentation data computed by
    helpers that cannot throw; they take no part in scoring, admission or
    order and are left out. *)
Record SearchResult : Type := {
  title : string;
  category : string;
  excerpt : string;
  score : Z;
  matchedTerms : nat;
  totalTerms : nat
}.

(** The three locals that scoring updates for one item. *)
Module Scoring.
Record t : Type := {
  score : Z;
  matchedTerms : list string;
  termPositions : list Hit
}.
End Scoring.

Definition categorizeSectionName (sectionName : string) : string :=
  if String.eqb sectionName "api-docs" then "API Documentation"
  else if String.eqb sectionName "community-bloggers" then "Community Articles"
  else "Guides & Tutorials".

Fixpoint lastPos (d : Z) (hits : list Hit) : Z :=
  match hits with
  | [] => d
  | h :: rest => lastPos (pos h) rest
  end.

Section Search.

Variable cfg : SEARCH_CONFIG.
Variable host : Host.

(** The exact-phrase test that opens the scoring of an item. *)
Definition scorePhrase (queryLower content : string) : Scoring.t :=
  if Js.includes queryLower content then
    {| Scoring.score := EXACT_PHRASE_BONUS cfg;
       Scoring.matchedTerms := [queryLower];
       Scoring.termPositions := [] |}
  else
    {| Scoring.score := 0;
       Scoring.matchedTerms := [];
       Scoring.termPositions := [] |}.

(** The body of [searchTerms.forEach]. *)
Definition scoreTerm (content titleLower : string) (acc : Scoring.t)
  (term : string) : Completion Scoring.t :=
  matches <- Regex.matchCount host term content ;;
  if (0 <? matches)%nat then
    let titleBonus :=
      if Js.includes term titleLower then TITLE_MATCH_BONUS cfg else 0%Z in
    let p := Js.indexOf term content in
    Returns
      {| Scoring.score :=
           (Scoring.score acc + titleBonus
            + Z.of_nat matches * TERM_MATCH_WEIGHT cfg)%Z;
         Scoring.matchedTerms := Scoring.matchedTerms acc ++ [term];
         Scoring.termPositions :=
           if (p =? -1)%Z then Scoring.termPositions acc
           else Scoring.termPositions acc ++ [{| term := term; pos := p |}]
      |}
  else Returns acc.

(** The proximity bonus for hits already sorted by position. *)
Definition proximityBonus (sorted : list Hit) : Z :=
  match sorted with
  | [] => 0%Z
  | h :: rest =>
      let spread := (lastPos (pos h) rest - pos h)%Z in
      if (spread <? PROXIMITY_THRESHOLD cfg)%Z then
        ((PROXIMITY_THRESHOLD cfg - spread) / PROXIMITY_BONUS_DIVISOR cfg)%Z
      else 0%Z
  end.

(** The all-terms test and, inside it, the proximity bonus; the sort is in
    place, so the sorted positions are what the excerpt extractor is
    handed afterwards. *)
Definition scoreBonuses (searchTerms : list string) (s : Scoring.t)
  : Scoring.t :=
  if (List.length (Scoring.matchedTerms s) =? List.length searchTerms)%nat
  then
    if (1 <? List.length (Scoring.termPositions s))%nat then
      let sorted := Js.sort Excerpt.byPos (Scoring.termPositions s) in
      {| Scoring.score :=
           (Scoring.score s + ALL_TERMS_BONUS cfg + proximityBonus sorted)%Z;
         Scoring.matchedTerms := Scoring.matchedTerms s;
         Scoring.termPositions := sorted |}
    else
      {| Scoring.score := (Scoring.score s + ALL_TERMS_BONUS cfg)%Z;
         Scoring.matchedTerms := Scoring.matchedTerms s;
         Scoring.termPositions := Scoring.termPositions s |}
  else s.

Definition scoreItem (queryLower : string) (searchTerms : list string)
  (item : Item) : Completion Scoring.t :=
  let titleLower :=
    Js.toLowerCase (Title.extractTitle host (content item)) in
  let content := Js.toLowerCase (content item) in
  s <- foldC (scoreTerm content titleLower) searchTerms
         (scorePhrase queryLower content) ;;
  Returns (scoreBonuses searchTerms s).

(** The admission test. *)
Definition admitted (s : Scoring.t) : bool :=
  (MIN_SCORE cfg <=? Scoring.score s)%Z
  && ((2 <=? List.length (Scoring.matchedTerms s))%nat
      || (MIN_SCORE_SINGLE_TERM cfg <=? Scoring.score s)%Z).

Definition resultOf (sectionName : string) (searchTerms : list string)
  (item : Item) (s : Scoring.t) : SearchResult :=
  {| title := Title.extractTitle host (content item);
     category := categorizeSectionName sectionName;
     excerpt :=
       Excerpt.extractExcerpt (content item) searchTerms
         (Scoring.termPositions s);
     score := Scoring.score s;
     matchedTerms := List.length (Scoring.matchedTerms s);
     totalTerms := List.length searchTerms |}.

(** The body of [for (const item of sectionItems)]. It opens with
    [title.toLowerCase()], which throws a [TypeError] when the title is
    not a string; the scoring follows. *)
Definition searchItem (queryLower : string) (searchTerms : list string)
  (sectionName : string) (results : list SearchResult) (item : Item)
  : Completion (list SearchResult) :=
  if Title.isText host (content item) then
    s <- scoreItem queryLower searchTerms item ;;
    Returns (if admitted s
             then results ++ [resultOf sectionName searchTerms item s]
             else results)
  else Throws TypeError.

(** The body of [for (const sectionName of sectionsToSearch)]. *)
Definition searchSection (sections : Sections) (queryLower : string)
  (searchTerms : list string) (results : list SearchResult)
  (sectionName : string) : Completion (list SearchResult) :=
  foldC (searchItem queryLower searchTerms sectionName)
    (sectionItemsOf sections sectionName) results.

Definition sectionsToSearch (sections : Sections) (category : string)
  : list string :=
  if String.eqb category "all" then keys sections
  else if String.eqb category "api" then ["api-docs"]
  else if String.eqb category "guides" then
    filter (fun s => negb (isOneOf ["api-docs"; "community-bloggers"] s))
      (keys sections)
  else if String.eqb category "community" then ["community-bloggers"]
  else [].

(** [results] as it stands when the two loops are over: the admitted items
    in the order they were scanned. *)
Definition scan (sections : Sections) (query category : string)
  : Completion (list SearchResult) :=
  let queryLower := Js.toLowerCase query in
  let searchTerms := Js.wordsLongerThan 0 queryLower in
  foldC (searchSection sections queryLower searchTerms)
    (sectionsToSearch sections category) [].

Definition byScoreDesc (a b : SearchResult) : Z := (score b - score a)%Z.

Definition search (sections : Sections) (query category : string)
  (limit : Z) : Completion (list SearchResult) :=
  results <- scan sections query category ;;
  Returns (Js.slice0 (Js.sort byScoreDesc results) limit).

(** *** The admitted items in corpus order *)

(** The entry an item contributes to [results]: one if it is admitted, none
    otherwise. *)
Definition admittedFrom (queryLower : string) (searchTerms : list string)
  (sectionName : string) (item : Item) : list SearchResult :=
  match scoreItem queryLower searchTerms item with
  | Returns s =>
      if admitted s then [resultOf sectionName searchTerms item s] else []
  | Throws _ => []
  end.

(** The entries of the scanned sections, section after section in the order
    of [sectionsToSearch] and item after item in the order of the
    section. *)
Definition corpusOrder (sections : Sections) (query category : string)
  : list SearchResult :=
  let queryLower := Js.toLowerCase query in
  let searchTerms := Js.wordsLongerThan 0 queryLower in
  flat_map
    (fun sectionName =>
       flat_map (admittedFrom queryLower searchTerms sectionName)
         (sectionItemsOf sections sectionName))
    (sectionsToSearch sections category).

(** *** What scoring adds up, term by term *)

(** What one query term adds to the score of an item: the title bonus and
    the weight of its occurrences, if it occurs. *)
Definition termPoints (content titleLower t : string) : Z :=
  match Regex.matchCount host t content with
  | Returns n =>
      if (0 <? n)%nat then
        ((if Js.includes t titleLower then TITLE_MATCH_BONUS cfg else 0)
         + Z.of_nat n * TERM_MATCH_WEIGHT cfg)%Z
      else 0%Z
  | Throws _ => 0%Z
  end.

Definition termScore (content titleLower : string) (terms : list string) : Z :=
  fold_right (fun t acc => (termPoints content titleLower t + acc)%Z) 0%Z terms.

(** The per-term score of an item, as [scoreItem] sets it up. *)
Definition itemTermScore (terms : list string) (it : Item) : Z :=
  termScore (Js.toLowerCase (content it))
    (Js.toLowerCase (Title.extractTitle host (content it))) terms.

(** The term occurs in the content: its pattern is accepted and matches. *)
Definition termFound (content t : string) : Prop :=
  exists n, Regex.matchCount host t content = Returns n /\ (0 < n)%nat.

(** The first positions that scoring records for the terms. *)
Definition firstPositions (content : string) (terms : list string) : list Hit :=
  flat_map
    (fun t =>
       if (Js.indexOf t content =? -1)%Z then []
       else [{| term := t; pos := Js.indexOf t content |}])
    terms.

(** The distance between the first and the last of the recorded
    positions. *)
Definition spreadOf (hits : list Hit) : Z :=
  match Js.sort Excerpt.byPos hits with
  | [] => 0%Z
  | h :: rest => (lastPos (pos h) rest - pos h)%Z
  end.

(** What the admission test guarantees about an entry of the result. *)
Definition meetsFloors (r : SearchResult) : Prop :=
  (MIN_SCORE cfg <= score r)%Z
  /\ ((2 <= matchedTerms r)%nat \/ (MIN_SCORE_SINGLE_TERM cfg <= score r)%Z).

Definition hasScore (s : Z) (r : SearchResult) : bool := (score r =? s)%Z.

Definition scoreGe (a b : SearchResult) : Prop := (score b <= score a)%Z.

End Search.

(** ** [parseDocumentation] *)

Module Segmenter.

(** [line.match(/^# [a-z-]+$/)]. *)
Definition isHeader (line : string) : bool :=
  match line with
  | String c1 (String c2 name) =>
      Ascii.eqb c1 "#"%char && Ascii.eqb c2 " "%char
      && negb (Js.isEmpty name)
      && Js.allChars (fun c => Js.isLower c || Ascii.eqb c "-"%char) name
  | _ => false
  end.

(** [line.match(/^-{3,}$/)]. *)
Definition isSeparator (line : string) : bool :=
  (3 <=? String.length line)%nat && Js.allChars (Ascii.eqb "-"%char) line.

(** [line.substring(2).trim()]. *)
Definition nameOf (line : string) : string :=
  Js.trim (Js.substringFrom line 2).

Record State : Type := {
  sections : Sections;
  currentSection : option nat;
  currentContent : list string;
  sectionName : string
}.

Definition initial : State :=
  {| sections := [];
     currentSection := None;
     currentContent := [];
     sectionName := EmptyString |}.

Fixpoint appendTo (secs : Sections) (name : string) (item : Item)
  : Sections :=
  match secs with
  | [] => [(name, [item])]
  | (k, v) :: rest =>
      if String.eqb k name then (k, v ++ [item]) :: rest
      else (k, v) :: appendTo rest name item
  end.

(** [this.sections[name] = this.sections[name] || []] followed by
    [this.sections[name].push(item)]. The sections object is a plain
    object: for the one header name that is also a property every object
    inherits, [constructor], the first statement stores the inherited
    function and the call of [push] on it throws. *)
Definition pushItem (secs : Sections) (name : string) (item : Item)
  : Completion Sections :=
  if String.eqb name "constructor" then Throws TypeError
  else Returns (appendTo secs name item).

Definition itemOf (st : State) (start : nat) : Item :=
  {| content := Js.joinLines (currentContent st); startLine := start |}.

(** [if (currentSection !== null && currentContent.length > 0) push]. *)
Definition flush (st : State) : Completion Sections :=
  match currentSection st with
  | Some start =>
      if (0 <? List.length (currentContent st))%nat
      then pushItem (sections st) (sectionName st) (itemOf st start)
      else Returns (sections st)
  | None => Returns (sections st)
  end.

(** The body of the loop for line [i]. *)
Definition step (st : State) (i : nat) (line : string) : Completion State :=
  if isHeader line then
    secs <- flush st ;;
    Returns {| sections := secs;
               currentSection := Some i;
               currentContent := [line];
               sectionName := nameOf line |}
  else
    match currentSection st with
    | Some start =>
        if isSeparator line && (1 <? List.length (currentContent st))%nat
        then
          secs <- (if (0 <? List.length (currentContent st))%nat
                   then pushItem (sections st) (sectionName st)
                          (itemOf st start)
                   else Returns (sections st)) ;;
          Returns {| sections := secs;
                     currentSection := Some (i + 1);
                     currentContent := [];
                     sectionName := sectionName st |}
        else
          Returns {| sections := sections st;
                     currentSection := currentSection st;
                     currentContent := currentContent st ++ [line];
                     sectionName := sectionName st |}
    | None => Returns st
    end.

Fixpoint run (i : nat) (ls : list string) (st : State) : Completion State :=
  match ls with
  | [] => Returns st
  | line :: rest => st' <- step st i line ;; run (S i) rest st'
  end.

Definition parseLines (ls : list string) : Completion Sections :=
  st <- run 0 ls initial ;; flush st.

(** The sections of a fresh service after [parseDocumentation(text)]. The
    two calls that end the method ([indexApiDocs] and the deprecation
    analysis) read the sections, do not change them and cannot throw. *)
Definition parseDocumentation (text : string) : Completion Sections :=
  parseLines (Js.lines text).

(** The state between two lines, [i] being the index of the next line: the
    section names are distinct, the start lines of the items are distinct
    and all lie in front of the start of the item being buffered, which has
    begun in front of the next line if it has content. *)
Definition wellFormed (i : nat) (st : State) : Prop :=
  NoDup (keys (sections st))
  /\ NoDup (starts (sections st))
  /\ match currentSection st with
     | Some c =>
         (c <= i)%nat
         /\ (currentContent st <> [] -> (c < i)%nat)
         /\ Forall (fun s => (s < c)%nat) (starts (sections st))
     | None => sections st = []
     end.

(** The section the scan is in, if any. *)
Definition curName (st : State) : option string :=
  match currentSection st with
  | Some _ => Some (sectionName st)
  | None => None
  end.

(** A line that is not the header of a section named [constructor]. *)
Definition plainName (line : string) : Prop :=
  isHeader line = true -> nameOf line <> "constructor".

End Segmenter.

(** ** [getBestPractices] *)

Module BestPractices.

Definition docContent (doc : Item) : string := content doc.

(** One entry of the returned array; [score] is the internal field that is
    stripped before returning. The [references] field is a constant link
    and is left out. *)
Record Entry : Type := {
  title : string;
  content : string;
  examples : list string;
  antiPatterns : list string
}.

Record Extracted : Type := {
  relevantContent : list string;
  foundExamples : list string;
  foundAntiPatterns : list string;
  inCodeBlock : bool;
  currentExample : list string;
  foundRelevant : bool
}.

Section WithHost.

Variable cfg : SEARCH_CONFIG.
Variable host : Host.

(** The predicate of [topicTerms.filter] and of the relevance test of
    [extractBestPracticeSections]: the term itself, else its singular,
    else its plural. *)
Definition termMatches (text term : string) : bool :=
  if Js.includes term text then true
  else if negb (String.eqb (singular host term) term)
          && Js.includes (singular host term) text then true
  else negb (String.eqb (plural host term) term)
       && Js.includes (plural host term) text.

Definition isStructural (line : string) : bool :=
  negb (Js.isEmpty line) && Js.allChars (Js.charIn "#-=") line.

(** [line.match(/^# [^#]/)]. *)
Definition isTopHeader (line : string) : bool :=
  match line with
  | String c1 (String c2 (String c3 _)) =>
      Ascii.eqb c1 "#"%char && Ascii.eqb c2 " "%char
      && negb (Ascii.eqb c3 "#"%char)
  | _ => false
  end.

Definition isNegative (lineLower : string) : bool :=
  Js.includes "avoid" lineLower || Js.includes "don't" lineLower
  || Js.includes "anti-pattern" lineLower
  || Js.includes "bad practice" lineLower.

(** The loop of [extractBestPracticeSections] over the lines that are
    left; [line :: rest] is [lines.slice(i)]. *)
Fixpoint scanLines (topicTerms : list string) (ls : list string)
  (st : Extracted) : Extracted :=
  match ls with
  | [] => st
  | line :: rest =>
      if prefix "```" (Js.trim line) then
        if negb (inCodeBlock st) then
          scanLines topicTerms rest
            {| relevantContent := relevantContent st;
               foundExamples := foundExamples st;
               foundAntiPatterns := foundAntiPatterns st;
               inCodeBlock := true;
               currentExample := [line];
               foundRelevant := foundRelevant st |}
        else
          let example := currentExample st ++ [line] in
          scanLines topicTerms rest
            {| relevantContent := relevantContent st;
               foundExamples :=
                 if foundRelevant st && (2 <? List.length example)%nat
                 then foundExamples st ++ [Js.joinLines example]
                 else foundExamples st;
               foundAntiPatterns := foundAntiPatterns st;
               inCodeBlock := false;
               currentExample := [];
               foundRelevant := foundRelevant st |}
      else if inCodeBlock st then
        scanLines topicTerms rest
          {| relevantContent := relevantContent st;
             foundExamples := foundExamples st;
             foundAntiPatterns := foundAntiPatterns st;
             inCodeBlock := true;
             currentExample := currentExample st ++ [line];
             foundRelevant := foundRelevant st |}
      else
        let lineLower := Js.toLowerCase line in
        let relevant :=
          foundRelevant st || existsb (termMatches lineLower) topicTerms in
        let collecting :=
          relevant && (List.length (relevantContent st) <? 50)%nat in
        let nextLines := Js.trim (Js.joinSpaces (firstn 3 ls)) in
        let st' :=
          {| relevantContent :=
               if collecting && negb (Js.isEmpty (Js.trim line))
                  && negb (isStructural line)
                  && negb (prefix "{" (Js.trim line))
               then relevantContent st ++ [line]
               else relevantContent st;
             foundExamples := foundExamples st;
             foundAntiPatterns :=
               if collecting && isNegative lineLower
                  && (10 <? String.length nextLines)%nat
                  && (String.length nextLines <? 200)%nat
               then foundAntiPatterns st ++ [nextLines]
               else foundAntiPatterns st;
             inCodeBlock := false;
             currentExample := currentExample st;
             foundRelevant := relevant |} in
        if relevant && isTopHeader line then st'
        else scanLines topicTerms rest st'
  end.

(** [[...new Set(xs)]]: first occurrences, in order. *)
Fixpoint unique (seen xs : list string) : list string :=
  match xs with
  | [] => []
  | x :: rest =>
      if isOneOf seen x then unique seen rest
      else x :: unique (x :: seen) rest
  end.

Definition extractBestPracticeSections (content topic : string)
  : string * list string * list string :=
  let topicTerms := Js.wordsLongerThan 2 topic in
  let st :=
    scanLines topicTerms (Js.lines content)
      {| relevantContent := [];
         foundExamples := [];
         foundAntiPatterns := [];
         inCodeBlock := false;
         currentExample := [];
         foundRelevant := false |} in
  (Js.trim (Js.joinLines (Js.slice0 (relevantContent st) 30)),
   Js.slice0 (foundExamples st) 3,
   Js.slice0 (unique [] (foundAntiPatterns st)) 3).

(** The candidate pool: the community items, then the items of every
    section that is neither the API section nor the community one. *)
Definition allSections (sections : Sections) : list Item :=
  sectionItemsOf sections "community-bloggers"
  ++ flat_map snd
       (filter
          (fun e =>
             negb (isOneOf ["api-docs"; "community-bloggers"] (fst e)))
          sections).

Definition matchedTopicTerms (topicTerms : list string) (content : string)
  : list string :=
  filter (termMatches content) topicTerms.

Definition countIncluded (keywords : list string) (content : string) : Z :=
  Z.of_nat (List.length (filter (fun k => Js.includes k content) keywords)).

(** The score of a candidate whose matched terms are [matched]. *)
Definition practiceScore (topicTerms matched : list string)
  (content : string) : Z :=
  let base :=
    (Z.of_nat (List.length matched) * BP_TERM_MATCH_WEIGHT cfg)%Z in
  let allBonus :=
    if (List.length matched =? List.length topicTerms)%nat
    then BP_ALL_TERMS_BONUS cfg else 0%Z in
  let strongMatches := countIncluded (strong cfg) content in
  let weakPart :=
    if (0 <? strongMatches)%Z
    then (countIncluded (weak cfg) content * BP_WEAK_KEYWORD_WEIGHT cfg)%Z
    else 0%Z in
  (base + allBonus + strongMatches * BP_STRONG_KEYWORD_WEIGHT cfg
   + weakPart)%Z.

(** The body of [for (const doc of allSections)]; the state is the
    array [practices], each entry with its internal score, and the set
    [seenTitles]. The title is taken as a string: a document that gets as
    far as its title with a record name that is not a string
    ([Title.isText]) makes [title.toLowerCase()] throw and the call
    returns no list, so that what is stated about the list is about a call
    that returns. *)
Definition visit (topicLower : string) (topicTerms : list string)
  (acc : list (Z * Entry) * list string) (doc : Item)
  : list (Z * Entry) * list string :=
  let '(practices, seenTitles) := acc in
  let contentLower := Js.toLowerCase (docContent doc) in
  let matched := matchedTopicTerms topicTerms contentLower in
  if (List.length matched =? 0)%nat then acc
  else
    let score := practiceScore topicTerms matched contentLower in
    if (score <? BP_MIN_THRESHOLD cfg)%Z then acc
    else
      let t := Title.extractTitle host (docContent doc) in
      if isOneOf seenTitles (Js.toLowerCase t) then acc
      else
        let seen := seenTitles ++ [Js.toLowerCase t] in
        let '(body, ex, anti) :=
          extractBestPracticeSections (docContent doc) topicLower in
        if Js.isEmpty body then (practices, seen)
        else
          (practices ++
             [(score,
               {| title := t;
                  content := body;
                  examples := ex;
                  antiPatterns := anti |})],
           seen).

Definition byScoreDesc (a b : Z * Entry) : Z := (fst b - fst a)%Z.

Definition getBestPractices (sections : Sections) (topic : string)
  : list Entry :=
  let topicLower := Js.toLowerCase topic in
  let topicTerms := Js.wordsLongerThan 2 topicLower in
  let practices :=
    fst (fold_left (visit topicLower topicTerms) (allSections sections)
           ([], [])) in
  map snd
    (Js.slice0 (Js.sort byScoreDesc practices) (MAX_BEST_PRACTICES cfg)).

(** The loop body as it runs: a document that is not skipped has
    [toLowerCase] called on its title, which throws a [TypeError] when the
    title is not a string; otherwise the document is handled as in
    [visit]. *)
Definition visitOrThrow (topicLower : string) (topicTerms : list string)
  (acc : list (Z * Entry) * list string) (doc : Item)
  : Completion (list (Z * Entry) * list string) :=
  let contentLower := Js.toLowerCase (docContent doc) in
  let matched := matchedTopicTerms topicTerms contentLower in
  if (List.length matched =? 0)%nat then Returns acc
  else if (practiceScore topicTerms matched contentLower
           <? BP_MIN_THRESHOLD cfg)%Z then Returns acc
  else if Title.isText host (docContent doc)
  then Returns (visit topicLower topicTerms acc doc)
  else Throws TypeError.

(** [getBestPractices(topic)] as a call: it returns the list of
    [getBestPractices] above, or throws. *)
Definition call (sections : Sections) (topic : string)
  : Completion (list Entry) :=
  let topicLower := Js.toLowerCase topic in
  let topicTerms := Js.wordsLongerThan 2 topicLower in
  acc <- foldC (visitOrThrow topicLower topicTerms) (allSections sections)
           ([], []) ;;
  Returns
    (map snd
       (Js.slice0 (Js.sort byScoreDesc (fst acc)) (MAX_BEST_PRACTICES cfg))).

End WithHost.

End BestPractices.

(** ** The deprecation registry *)

Module Deprecation.

Record Info : Type := {
  name : string;
  status : string;
  since : option string;
  reason : option string;
  modernAlternative : option string;
  category : option string;
  severity : option string;
  deprecationGuideLink : option string
}.

(** A [Map] from lower-case names to records. *)
Definition Table : Type := list (string * Info).

Fixpoint get (t : Table) (key : string) : option Info :=
  match t with
  | [] => None
  | (k, v) :: rest => if String.eqb k key then Some v else get rest key
  end.

Definition has (t : Table) (key : string) : bool :=
  match get t key with
  | Some _ => true
  | None => false
  end.

Fixpoint set (t : Table) (key : string) (v : Info) : Table :=
  match t with
  | [] => [(key, v)]
  | (k, w) :: rest =>
      if String.eqb k key then (k, v) :: rest else (k, w) :: set rest key v
  end.

(** The two tiers: [deprecations] is derived from content,
    [knownDeprecations] is seeded by the constructor. *)
Record Manager : Type := {
  deprecations : Table;
  knownDeprecations : Table
}.

Definition known (n reason alternative cat sev : string) : Info :=
  {| name := n;
     status := "deprecated";
     since := None;
     reason := Some reason;
     modernAlternative := Some alternative;
     category := Some cat;
     severity := Some sev;
     deprecationGuideLink := None |}.

Definition nativeProxy : string :=
  "Native Proxy is now available in all supported environments".

(** [new DeprecationManager()]. *)
Definition create : Manager :=
  {| deprecations := [];
     knownDeprecations :=
       [("arrayproxy",
         known "ArrayProxy" nativeProxy
           "Use tracked properties and native arrays for reactive data"
           "legacy-proxy" "warning");
        ("objectproxy",
         known "ObjectProxy" nativeProxy
           "Use tracked properties with plain objects"
           "legacy-proxy" "warning");
        ("promiseproxymixin",
         known "PromiseProxyMixin" nativeProxy
           "Use ember-async-data or ember-concurrency with tracked properties"
           "legacy-proxy" "warning");
        ("evented",
         known "Evented" "Legacy event system from pre-modern Ember"
           "Use native event system or ember-concurrency for complex flows"
           "legacy-events" "info")] |}.

Definition isDeprecated (m : Manager) (n : string) : bool :=
  if Js.isEmpty n then false
  else
    let lowerName := Js.toLowerCase n in
    has (deprecations m) lowerName || has (knownDeprecations m) lowerName.

Definition getDeprecationInfo (m : Manager) (n : string) : option Info :=
  if Js.isEmpty n then None
  else
    let lowerName := Js.toLowerCase n in
    match get (deprecations m) lowerName with
    | Some info => Some info
    | None => get (knownDeprecations m) lowerName
    end.

(** [registerDeprecation(name, info)]; [None] stands for a missing
    ([null] or [undefined]) record. *)
Definition registerDeprecation (m : Manager) (n : string)
  (info : option Info) : Manager :=
  match info with
  | None => m
  | Some i =>
      if Js.isEmpty n then m
      else {| deprecations := set (deprecations m) (Js.toLowerCase n) i;
              knownDeprecations := knownDeprecations m |}
  end.

End Deprecation.

(** ** The specification's wording, for comparison *)

Module SpecWords.

(** The clusters of the excerpt extractor as the specification words them:
    runs of sorted hits in which every gap between neighbours is below the
    cluster distance. [gapRuns] cuts the sorted hits into the maximal such
    runs. *)
Fixpoint gapRuns (sorted : list Hit) : list (list Hit) :=
  match sorted with
  | [] => []
  | h :: rest =>
      match gapRuns rest with
      | (h2 :: run) :: runs =>
          if (pos h2 - pos h <? 500)%Z then (h :: h2 :: run) :: runs
          else [h] :: (h2 :: run) :: runs
      | _ => [[h]]
      end
  end.

(** The run with the most members, the earliest one on ties. *)
Fixpoint longestRun (runs : list (list Hit)) (best : list Hit) : list Hit :=
  match runs with
  | [] => best
  | r :: rest =>
      longestRun rest
        (if (List.length best <? List.length r)%nat then r else best)
  end.

(** The first hit of that run: where the specification anchors the
    excerpt. *)
Definition clusterStart (termPositions : list Hit) : option Z :=
  match longestRun (gapRuns (Js.sort Excerpt.byPos termPositions)) [] with
  | h :: _ => Some (pos h)
  | [] => None
  end.

(** The counts of the testable property on segmentation, over the lines of
    the corpus. [cur] is the section the scan is in. *)
Definition inSection (cur : option string) (name : string) : nat :=
  match cur with
  | Some n => if String.eqb n name then 1 else 0
  | None => 0
  end.

(** The header lines that name the section. *)
Fixpoint headerLines (name : string) (ls : list string) : nat :=
  match ls with
  | [] => 0
  | l :: rest =>
      (if Segmenter.isHeader l && String.eqb (Segmenter.nameOf l) name
       then 1 else 0) + headerLines name rest
  end.

(** The separator lines encountered inside the section. *)
Fixpoint separatorsInside (name : string) (cur : option string)
  (ls : list string) : nat :=
  match ls with
  | [] => 0
  | l :: rest =>
      if Segmenter.isHeader l
      then separatorsInside name (Some (Segmenter.nameOf l)) rest
      else if Segmenter.isSeparator l
      then inSection cur name + separatorsInside name cur rest
      else separatorsInside name cur rest
  end.

(** The leading separators of the section: separator lines with nothing but
    separator lines between them and the header. *)
Fixpoint leadingSeparators (name : string) (cur : option string)
  (fresh : bool) (ls : list string) : nat :=
  match ls with
  | [] => 0
  | l :: rest =>
      if Segmenter.isHeader l
      then leadingSeparators name (Some (Segmenter.nameOf l)) true rest
      else if Segmenter.isSeparator l
      then (if fresh then inSection cur name else 0)
           + leadingSeparators name cur fresh rest
      else leadingSeparators name cur false rest
  end.

(** The number of items the property promises for the section. *)
Definition promisedItems (name : string) (ls : list string) : nat :=
  1 + separatorsInside name None ls - leadingSeparators name None true ls.

(** The separator lines that close an item of the section: those that find
    two or more lines buffered. [buffered] is the number of lines in the
    buffer of the current item; a header line starts the buffer with itself,
    a closing separator empties it. *)
Fixpoint closingSeparators (name : string) (cur : option string)
  (buffered : nat) (ls : list string) : nat :=
  match ls with
  | [] => 0
  | l :: rest =>
      if Segmenter.isHeader l
      then closingSeparators name (Some (Segmenter.nameOf l)) 1 rest
      else
        match cur with
        | None => closingSeparators name None buffered rest
        | Some _ =>
            if Segmenter.isSeparator l && (1 <? buffered)%nat
            then inSection cur name + closingSeparators name cur 0 rest
            else closingSeparators name cur (S buffered) rest
        end
  end.

(** The header lines and the end of the input that find lines of the
    section buffered. *)
Fixpoint closingEnds (name : string) (cur : option string)
  (buffered : nat) (ls : list string) : nat :=
  match ls with
  | [] => if (0 <? buffered)%nat then inSection cur name else 0
  | l :: rest =>
      if Segmenter.isHeader l
      then (if (0 <? buffered)%nat then inSection cur name else 0)
           + closingEnds name (Some (Segmenter.nameOf l)) 1 rest
      else
        match cur with
        | None => closingEnds name None buffered rest
        | Some _ =>
            if Segmenter.isSeparator l && (1 <? buffered)%nat
            then closingEnds name cur 0 rest
            else closingEnds name cur (S buffered) rest
        end
  end.

End SpecWords.

(** ** Instances to run the definitions on *)

Module Sample.

(** A configuration. The best-practice constants are the ones recorded in
    [docs/development/BEST_PRACTICES_IMPROVEMENTS.md]; the search constants
    are not recorded anywhere in the sources and are illustrative: what is
    proved for every configuration does not depend on them. *)
Definition config : SEARCH_CONFIG :=
  {| EXACT_PHRASE_BONUS := 50;
     TITLE_MATCH_BONUS := 15;
     TERM_MATCH_WEIGHT := 5;
     ALL_TERMS_BONUS := 20;
     PROXIMITY_THRESHOLD := 500;
     PROXIMITY_BONUS_DIVISOR := 50;
     MIN_SCORE := 10;
     MIN_SCORE_SINGLE_TERM := 20;
     BP_TERM_MATCH_WEIGHT := 10;
     BP_ALL_TERMS_BONUS := 20;
     BP_STRONG_KEYWORD_WEIGHT := 5;
     BP_WEAK_KEYWORD_WEIGHT := 2;
     BP_MIN_THRESHOLD := 15;
     MAX_BEST_PRACTICES := 5;
     strong := ["best practice"; "recommended approach"; "modern pattern";
                "idiomatic"; "anti-pattern"; "migration guide"];
     weak := ["tip"; "performance"; "recommended"; "should"; "modern"] |}.

Fixpoint dropFinalS (w : string) : string :=
  match w with
  | EmptyString => EmptyString
  | String c EmptyString =>
      if Ascii.eqb c "s"%char then EmptyString else w
  | String c w' => String c (dropFinalS w')
  end.

(** A host. Its inflections are those of [pluralize] on regular nouns
    (a final [s] dropped or added); the inputs it is run on never reach
    its other fields. *)
Definition host : Host :=
  {| regexCount := fun _ _ => Some O;
     frontmatterTitle := fun _ => None;
     jsonName := fun _ => None;
     singular := dropFinalS;
     plural := fun w =>
       if String.eqb (dropFinalS w) w then (w ++ "s")%string else w |}.

Definition item (text : string) (line : nat) : Item :=
  {| content := text; startLine := line |}.

(** Two guide items and one community article. *)
Definition sections : Sections :=
  [("guides",
    [item "Modern components keep tracked state." 0;
     item "Routing with modern route templates." 3]);
   ("community-bloggers",
    [item "A tracked state story: modern tracked state." 6])].

(** An item that holds the query [foo bar] verbatim. *)
Definition fooBar : Item := item "foo bar" 0.

(** A host that finds a number for the name of every record. *)
Definition numberNames : Host :=
  {| regexCount := fun _ _ => Some O;
     frontmatterTitle := fun _ => None;
     jsonName := fun _ => Some NameOther;
     singular := dropFinalS;
     plural := fun w => w |}.

Definition quoted (s : string) : string :=
  String Js.dquote (s ++ String Js.dquote EmptyString)%string.

(** An API record whose name is the number 42. *)
Definition numberRecord : Item :=
  item ("{" ++ quoted "data" ++ ": {" ++ quoted "attributes" ++ ": {"
        ++ quoted "name" ++ ": 42}}}")%string 0.

(** A guide item that mentions [tracked] once, under a title without it. *)
Definition reactivity : Item := item "# Reactivity
State marked as tracked updates the template." 0.

(** One section; its second item is a single line between two
    separators. *)
Definition shortItemCorpus : string :=
  "# sec
a
---
b
---
c".


(** The corpus of the specification's example on inflection. *)
Definition practiceCorpus : string :=
  "# community-bloggers
Best practice for component architecture".

Definition sectionsOf (text : string) : Sections :=
  match Segmenter.parseDocumentation text with
  | Returns secs => secs
  | Throws _ => []
  end.

(** A record to register. *)
Definition customInfo : Deprecation.Info :=
  {| Deprecation.name := "CustomAPI";
     Deprecation.status := "deprecated";
     Deprecation.since := Some "4.0";
     Deprecation.reason := None;
     Deprecation.modernAlternative := Some "NewAPI";
     Deprecation.category := None;
     Deprecation.severity := None;
     Deprecation.deprecationGuideLink := None |}.

Fixpoint repeatString (s : string) (n : nat) : string :=
  match n with
  | O => EmptyString
  | S k => (s ++ repeatString s k)%string
  end.

(** An item that holds [foo bar] verbatim, and one that holds [foo] a number
    of times and [bar] more than 500 characters further on. *)
Definition adjacent : Item := item "## Adjacent
foo bar" 0.

Definition scattered (occurrences : nat) : Item :=
  item ("## Scattered
" ++ repeatString "foo " occurrences
      ++ repeatString "x" 500 ++ " bar")%string 3.

Definition ranking (occurrences : nat) : Sections :=
  [("guides", [adjacent; scattered occurrences])].

(** Inputs of the repository's unit tests. *)
Definition twoSections : string :=
  "# api-docs

Some API content here

----------

More API content

# community-bloggers

Community content here".

Definition threeItems : string :=
  "# api-docs

First item

----------

Second item

----------

Third item".

Definition clusterContent : string :=
  ("ArrayProxy here. " ++ repeatString "X" 1000
   ++ " Modern and tracked are close together in this section.")%string.

Definition clusterHits : list Hit :=
  [{| term := "arrayproxy"; pos := 0 |};
   {| term := "modern"; pos := 1020 |};
   {| term := "tracked"; pos := 1032 |}].

Definition hit (p : Z) : Hit := {| term := "t"; pos := p |}.

(** Five hits, each less than 500 behind its neighbour. *)
Definition chainedHits : list Hit :=
  [hit 0; hit 400; hit 800; hit 900; hit 1000].

End Sample.

(** ** The loop of [getBestPractices], for the statements about it *)

Module PracticeShape.

(** An anti-pattern is recorded only if it is longer than 10 and shorter
    than 200 characters. *)
Definition antiPatternSized (a : string) : Prop :=
  (10 < String.length a < 200)%nat.

Definition lowerTitle (p : Z * BestPractices.Entry) : string :=
  Js.toLowerCase (BestPractices.title (snd p)).

Definition entryOk (e : BestPractices.Entry) : Prop :=
  BestPractices.content e <> EmptyString
  /\ (List.length (BestPractices.examples e) <= 3)%nat
  /\ (List.length (BestPractices.antiPatterns e) <= 3)%nat.

(** The state of the loop between two documents: the titles seen are
    distinct, every entry kept has its title among them, and no two entries
    share a title up to case. *)
Definition visitOk (acc : list (Z * BestPractices.Entry) * list string)
  : Prop :=
  NoDup (snd acc)
  /\ NoDup (map lowerTitle (fst acc))
  /\ (forall p, In p (fst acc) -> In (lowerTitle p) (snd acc))
  /\ Forall (fun p => entryOk (snd p)) (fst acc).

(** The score with which a document enters [practices]. *)
Definition scoreOf (cfg : SEARCH_CONFIG) (host : Host)
  (topicTerms : list string) (doc : Item) : Z :=
  BestPractices.practiceScore cfg topicTerms
    (BestPractices.matchedTopicTerms host topicTerms
       (Js.toLowerCase (content doc)))
    (Js.toLowerCase (content doc)).

(** An entry with its score, as built from one of [docs]. *)
Definition scoredFrom (cfg : SEARCH_CONFIG) (host : Host)
  (docs : list Item) (topicTerms : list string)
  (p : Z * BestPractices.Entry) : Prop :=
  (BP_MIN_THRESHOLD cfg <= fst p)%Z
  /\ exists doc,
       In doc docs
       /\ BestPractices.title (snd p)
          = Title.extractTitle host (content doc)
       /\ fst p = scoreOf cfg host topicTerms doc.



End PracticeShape.

(** ** The loop of [parseDocumentation], for the statements about it *)

Module SegmentShape.

(** The characters of a section name, after the pattern of a header line. *)
Definition isNameChar (c : ascii) : bool :=
  Js.isLower c || Ascii.eqb c "-"%char.

Definition okName (n : string) : Prop :=
  n <> EmptyString /\ Js.allChars isNameChar n = true.

(** A key of the sections object: a name of the header grammar other than
    [constructor]. *)
Definition sectionKey (n : string) : Prop :=
  okName n /\ n <> "constructor".

(** In every section the items are in increasing order of start line. *)
Definition sortedStarts (secs : Sections) : Prop :=
  Forall
    (fun e : string * list Item =>
       StronglySorted lt (map startLine (snd e)))
    secs.

(** The state between two lines: the keys are well formed, no section is
    empty, and inside a section the current name is well formed. *)
Definition namesOk (st : Segmenter.State) : Prop :=
  Forall sectionKey (keys (Segmenter.sections st))
  /\ Forall (fun e : string * list Item => snd e <> [])
       (Segmenter.sections st)
  /\ (Segmenter.currentSection st <> None
      -> okName (Segmenter.sectionName st)).

End SegmentShape.

(** ** Deprecation: content analysis, warnings and search results *)

Module DeprecationText.

Import Deprecation.

(** [\w]. *)
Definition isWordChar (c : ascii) : bool :=
  Js.isLetter c || Js.isDigit c || Ascii.eqb c "_"%char.

Definition startsWord (s : string) : bool :=
  match s with
  | String c _ => isWordChar c
  | EmptyString => false
  end.

Definition startsLetter (s : string) : bool :=
  match s with
  | String c _ => Js.isLetter c
  | EmptyString => false
  end.

(** [s.substring(n)] for [n] within the string. *)
Fixpoint dropN (n : nat) (s : string) : string :=
  match n, s with
  | S k, String _ s' => dropN k s'
  | _, _ => s
  end.

(** [/\bphrase\b/i.test(text)] for a phrase of lower-case words: [lower] is
    what is left of the text, in lower case, and [prevWord] tells whether
    the character in front of it is a word character. The phrase starts and
    ends with a word character, so either boundary asks for a character
    that is not one, or for the end of the text. *)
Fixpoint phraseFrom (prevWord : bool) (phrase lower : string) : bool :=
  match lower with
  | EmptyString => false
  | String c rest =>
      (negb prevWord && prefix phrase lower
       && negb (startsWord (dropN (String.length phrase) lower)))
      || phraseFrom (isWordChar c) phrase rest
  end.

Definition hasPhrase (phrase text : string) : bool :=
  phraseFrom false phrase (Js.toLowerCase text).

Definition deprecationKeywords : list string :=
  ["deprecated"; "legacy"; "no longer recommended"; "not preferred";
   "should not be used"; "avoid using"].

(** [deprecationKeywords.some(pattern => pattern.test(content))]. *)
Definition hasDeprecationKeyword (content : string) : bool :=
  existsb (fun p => hasPhrase p content) deprecationKeywords.

(** The captures of the three extraction patterns of [analyzeContent],
    which the platform computes: the version behind [deprecated since], the
    reason, and the capture of the first of the alternative patterns that
    matches. *)
Record Captures : Type := {
  sinceCapture : string -> option string;
  reasonCapture : string -> option string;
  alternativeCapture : string -> option string
}.

(** The replacement that removes every back quote, single quote and double
    quote. *)
Fixpoint removeQuotes (s : string) : string :=
  match s with
  | EmptyString => EmptyString
  | String c s' =>
      if Ascii.eqb c "`"%char || Ascii.eqb c "'"%char || Ascii.eqb c Js.dquote
      then removeQuotes s'
      else String c (removeQuotes s')
  end.

Definition analyzeContent (cap : Captures) (n content : string)
  : option Info :=
  if Js.isEmpty content then None
  else if negb (hasDeprecationKeyword content) then None
  else
    Some {| name := n;
            status := "deprecated";
            since := sinceCapture cap content;
            reason := option_map Js.trim (reasonCapture cap content);
            modernAlternative :=
              option_map (fun a => Js.trim (removeQuotes a))
                (alternativeCapture cap content);
            category := None;
            severity := Some "warning";
            deprecationGuideLink := None |}.

(** An item as [analyzeDocumentation] reads it: its content and its link,
    if it has one. *)
Record Linked : Type := { text : string; link : option string }.

Fixpoint takeLetters (s : string) : string :=
  match s with
  | String c s' => if Js.isLetter c then String c (takeLetters s') else EmptyString
  | EmptyString => EmptyString
  end.

(** [[A-Z][a-zA-Z]+] at the start of [s]: the longest match. *)
Definition apiNameAt (s : string) : option string :=
  match s with
  | String c rest =>
      if Js.isUpper c && startsLetter rest
      then Some (String c (takeLetters rest))
      else None
  | EmptyString => None
  end.

(** [content.match(/`([A-Z][a-zA-Z]+)`/g)] with the back quotes removed
    from each match: the matches from left to right, each search resuming
    behind the last match ([skip] characters are still part of it). *)
Fixpoint backtickedNames (s : string) (skip : nat) : list string :=
  match s with
  | EmptyString => []
  | String c rest =>
      match skip with
      | S k => backtickedNames rest k
      | O =>
          if Ascii.eqb c "`"%char then
            match apiNameAt rest with
            | Some n =>
                if prefix "`" (dropN (String.length n) rest)
                then n :: backtickedNames rest (S (String.length n))
                else backtickedNames rest 0
            | None => backtickedNames rest 0
            end
          else backtickedNames rest 0
      end
  end.

Definition withLink (info : Info) (l : option string) : Info :=
  {| name := name info;
     status := status info;
     since := since info;
     reason := reason info;
     modernAlternative := modernAlternative info;
     category := category info;
     severity := severity info;
     deprecationGuideLink := l |}.

(** The body of [apiNameMatch.forEach]. *)
Definition registerFound (cap : Captures) (item : Linked) (m : Manager)
  (apiName : string) : Manager :=
  match analyzeContent cap apiName (text item) with
  | Some info => registerDeprecation m apiName (Some (withLink info (link item)))
  | None => m
  end.

Definition analyzeItem (cap : Captures) (m : Manager) (item : Linked)
  : Manager :=
  fold_left (registerFound cap item) (backtickedNames (text item) 0) m.

Definition analyzeSection (cap : Captures) (m : Manager)
  (e : string * list Linked) : Manager :=
  if Js.includes "deprecation" (Js.toLowerCase (fst e))
  then fold_left (analyzeItem cap) (snd e) m
  else m.

Definition analyzeDocumentation (cap : Captures) (m : Manager)
  (sections : list (string * list Linked)) : Manager :=
  fold_left (analyzeSection cap) sections m.

(** The sections of the service as [parseDocumentation] hands them to
    [analyzeDocumentation]: its items have no [link]. *)
Definition unlinked (sections : Sections) : list (string * list Linked) :=
  map (fun e =>
         (fst e,
          map (fun it => {| text := content it; link := None |}) (snd e)))
    sections.

(** The two icons of the warnings are characters outside the range of the
    strings of this embedding; they are taken as given. *)
Record Icons : Type := { warningIcon : string; infoIcon : string }.

(** A field that is set and not empty. *)
Definition present (o : option string) : option string :=
  match o with
  | Some v => if Js.isEmpty v then None else Some v
  | None => None
  end.

Definition iconOf (icons : Icons) (info : Info) : string :=
  match severity info with
  | Some v => if String.eqb v "warning" then warningIcon icons
              else infoIcon icons
  | None => infoIcon icons
  end.

Definition shortWarning (icons : Icons) (info : Info) : string :=
  (iconOf icons info ++ " **Deprecated**" ++
   match present (since info) with
   | Some v => " (since v" ++ v ++ ")"
   | None => ""
   end)%string.

Definition inlineWarning (icons : Icons) (info : Info) : string :=
  (iconOf icons info ++ " **Deprecated**" ++
   match present (since info) with
   | Some v => " since v" ++ v
   | None => ""
   end ++
   match present (modernAlternative info) with
   | Some a => " - Use " ++ a ++ " instead"
   | None => ""
   end)%string.

Definition bannerWarning (icons : Icons) (info : Info) : string :=
  ("
> " ++ iconOf icons info ++ " **DEPRECATION WARNING**
>
> **`" ++ name info ++ "` is deprecated**" ++
   match present (since info) with
   | Some v => " since Ember v" ++ v
   | None => ""
   end ++ "
>
" ++
   match present (reason info) with
   | Some r => "> " ++ r ++ "
>
"
   | None => ""
   end ++
   match present (modernAlternative info) with
   | Some a => "> **Modern Alternative:** " ++ a ++ "
>
"
   | None => ""
   end ++
   match present (deprecationGuideLink info) with
   | Some l => "> [View Deprecation Guide](" ++ l ++ ")
"
   | None => ""
   end ++ "
")%string.

(** [generateWarning(name, format)]; any format other than [short] and
    [inline] gives the banner. *)
Definition generateWarning (icons : Icons) (m : Manager) (n format : string)
  : string :=
  match getDeprecationInfo m n with
  | None => EmptyString
  | Some info =>
      if String.eqb format "short" then shortWarning icons info
      else if String.eqb format "inline" then inlineWarning icons info
      else bannerWarning icons info
  end.

(** [title.match(/`?([A-Z][a-zA-Z]+)`?/)]: the capture of the leftmost
    match. The optional back quotes do not move it: it is the longest run of
    letters that starts at the first capital followed by a letter. *)
Fixpoint firstApiName (s : string) : option string :=
  match s with
  | EmptyString => None
  | String c rest =>
      if Js.isUpper c && startsLetter rest
      then Some (String c (takeLetters rest))
      else firstApiName rest
  end.

(** What [checkSearchResult] answers: a record of the registry, or the
    object [{ status: 'possibly-deprecated' }]. *)
Inductive Verdict : Type :=
| Registered (info : Info)
| PossiblyDeprecated.

Definition possiblyKeywords : list string :=
  ["deprecated"; "legacy"; "no longer recommended"].

Definition contentVerdict (content : string) : option Verdict :=
  if negb (Js.isEmpty content)
     && existsb (fun p => hasPhrase p content) possiblyKeywords
  then Some PossiblyDeprecated
  else None.

(** [checkSearchResult({ title, content })]. *)
Definition checkSearchResult (m : Manager) (title content : string)
  : option Verdict :=
  if Js.isEmpty title then None
  else
    match firstApiName title with
    | Some apiName =>
        if isDeprecated m apiName
        then option_map Registered (getDeprecationInfo m apiName)
        else contentVerdict content
    | None => contentVerdict content
    end.

(** Every key of the registry is a word of letters. *)
Definition lettersOnly (t : Table) : Prop :=
  Forall (fun e : string * Info => Js.allChars Js.isLetter (fst e) = true) t.

(** A name of the shape [[A-Z][a-zA-Z]+]. *)
Definition isApiName (n : string) : bool :=
  match n with
  | String c rest =>
      Js.isUpper c && negb (Js.isEmpty rest) && Js.allChars Js.isLetter rest
  | EmptyString => false
  end.

(** The record [info] under [key] stems from the analysis of [sections]:
    its name stands between back quotes in an item of a section whose name
    holds [deprecation], the content of that item holds a deprecation
    keyword, and the record carries the link of that item. *)
Definition derivedFrom (sections : list (string * list Linked))
  (key : string) (info : Info) : Prop :=
  exists e item,
    In e sections
    /\ Js.includes "deprecation" (Js.toLowerCase (fst e)) = true
    /\ In item (snd e)
    /\ hasDeprecationKeyword (text item) = true
    /\ In (name info) (backtickedNames (text item) 0)
    /\ key = Js.toLowerCase (name info)
    /\ status info = "deprecated"
    /\ severity info = Some "warning"
    /\ deprecationGuideLink info = link item.

End DeprecationText.

(** ** [lib/url-builder.js]: links *)

Module UrlBuilder.

(** [API_DOCS_BASE] and [GUIDES_BASE] of [lib/config.js]. *)
Record Bases : Type := { API_DOCS_BASE : string; GUIDES_BASE : string }.

Definition isAlnum (c : ascii) : bool := Js.isLetter c || Js.isDigit c.

Fixpoint takeWhile (p : ascii -> bool) (s : string) : string :=
  match s with
  | String c s' => if p c then String c (takeWhile p s') else EmptyString
  | EmptyString => EmptyString
  end.

Fixpoint dropWhile (p : ascii -> bool) (s : string) : string :=
  match s with
  | String c s' => if p c then dropWhile p s' else s
  | EmptyString => EmptyString
  end.

(** The class name that opens a title: a capital followed by any number
    of letters and digits. *)
Definition className (title : string) : option string :=
  match title with
  | String c rest =>
      if Js.isUpper c then Some (String c (takeWhile isAlnum rest)) else None
  | EmptyString => None
  end.

Definition generateUrl (b : Bases) (sectionName title : string) : string :=
  if String.eqb sectionName "api-docs" then
    match className title with
    | Some c => (API_DOCS_BASE b ++ "/release/classes/" ++ c)%string
    | None => API_DOCS_BASE b
    end
  else GUIDES_BASE b.

Definition generateApiUrl (b : Bases) (n type : string) : string :=
  if String.eqb type "class"
  then (API_DOCS_BASE b ++ "/release/classes/" ++ n)%string
  else if String.eqb type "module"
  then (API_DOCS_BASE b ++ "/release/modules/" ++ n)%string
  else API_DOCS_BASE b.

Definition generateVersionLinks (b : Bases) : list string :=
  [GUIDES_BASE b; (API_DOCS_BASE b ++ "/release")%string;
   "https://emberjs.com/releases"; "https://blog.emberjs.com"].

Definition generateUpgradeGuideUrl (b : Bases) : string :=
  (GUIDES_BASE b ++ "/upgrading/")%string.

(** A class name: a capital followed by letters and digits. *)
Definition isClassName (n : string) : bool :=
  match n with
  | String c rest => Js.isUpper c && Js.allChars isAlnum rest
  | EmptyString => false
  end.

Definition startsWith (p : ascii -> bool) (s : string) : bool :=
  match s with
  | String c _ => p c
  | EmptyString => false
  end.

End UrlBuilder.

(** ** [lib/url-builder.js]: the parser of release notes *)

Module ReleaseNotes.

(** [line.match(/^#+\s/)]. *)
Definition isHeading (line : string) : bool :=
  prefix "#" line
  && match Title.dropHashes line with
     | String c _ => Js.isSpace c
     | EmptyString => false
     end.

(** [line.match(/^[-*]\s/)]. *)
Definition isBullet (line : string) : bool :=
  match line with
  | String c (String d _) => Js.charIn "-*" c && Js.isSpace d
  | _ => false
  end.

(** The loop of [extractDescription] over the lines that are left. *)
Fixpoint collect (ls : list string) (descLines : list string) : list string :=
  match ls with
  | [] => descLines
  | line :: rest =>
      if isHeading line || isBullet line then descLines
      else
        let d :=
          if negb (Js.isEmpty (Js.trim line))
          then descLines ++ [Js.trim line]
          else descLines in
        if (3 <=? List.length d)%nat then d else collect rest d
  end.

Definition noDescription : string :=
  "No description available in release notes.".

Definition extractDescription (body : string) : string :=
  let description :=
    Js.substring (Js.joinSpaces (collect (Js.lines body) [])) 0 300 in
  if Js.isEmpty description then noDescription else description.

(** [line.replace(/^[-*]\s+/, '')]. *)
Definition dropBullet (line : string) : string :=
  if isBullet line
  then match line with
       | String _ rest => Js.trimStart rest
       | EmptyString => line
       end
  else line.

(** One link to a pull request at the start of [s] and what the pattern
    takes behind it: [\[#\d+\]\([^)]+\)\s*\/?\s*]; the result is the text
    that follows. *)
Definition prLink (s : string) : option string :=
  match s with
  | String c1 (String c2 r1) =>
      if Ascii.eqb c1 "["%char && Ascii.eqb c2 "#"%char then
        let r2 := UrlBuilder.dropWhile Js.isDigit r1 in
        if (String.length r2 <? String.length r1)%nat then
          match r2 with
          | String c3 (String c4 r3) =>
              if Ascii.eqb c3 "]"%char && Ascii.eqb c4 "("%char then
                let r4 :=
                  UrlBuilder.dropWhile
                    (fun c => negb (Ascii.eqb c ")"%char)) r3 in
                if (String.length r4 <? String.length r3)%nat then
                  match r4 with
                  | String _ r5 =>
                      let r6 := Js.trimStart r5 in
                      Some (Js.trimStart
                              (match r6 with
                               | String c r7 =>
                                   if Ascii.eqb c "/"%char then r7 else r6
                               | EmptyString => r6
                               end))
                  | EmptyString => None
                  end
                else None
              else None
          | _ => None
          end
        else None
      else None
  | _ => None
  end.

(** The replacement that removes one or more such links from the start of
    the item: the links are taken one after the other; every link shortens
    the text, so its length is fuel enough. *)
Fixpoint dropPrLinks (fuel : nat) (s : string) : string :=
  match fuel with
  | O => s
  | S f =>
      match prLink s with
      | Some rest => dropPrLinks f rest
      | None => s
      end
  end.

Definition allTags : list string :=
  ["[feature]"; "[enhancement]"; "[bugfix]"; "[breaking]"; "[cleanup]";
   "[internal]"; "[deprecation]"].

(** The replacement that removes the first tag of [allTags], in any letter
    case, with the white space behind it. *)
Fixpoint removeTag (s : string) : string :=
  match s with
  | EmptyString => EmptyString
  | String c rest =>
      match find (fun t => prefix t (Js.toLowerCase s)) allTags with
      | Some t =>
          Js.trimStart (DeprecationText.dropN (String.length t) s)
      | None => String c (removeTag rest)
      end
  end.

(** What is kept of a tagged line. *)
Definition cleanItem (line : string) : string :=
  let item1 := Js.trim (dropBullet line) in
  let item2 := Js.trim (dropPrLinks (String.length item1) item1) in
  Js.trim (removeTag item2).

(** [tagPattern.test(line)] for a pattern that is an alternative of tags in
    brackets with the [i] flag; [tags] holds them in lower case. *)
Definition tagged (tags : list string) (line : string) : bool :=
  existsb (fun t => Js.includes t (Js.toLowerCase line)) tags.

(** The body of the loop of [extractByTag]. *)
Definition itemsOf (tags : list string) (minLength maxLength : nat)
  (line : string) : list string :=
  if isBullet line && tagged tags line then
    let item := cleanItem line in
    if (minLength <=? String.length item)%nat
       && (String.length item <=? maxLength)%nat
    then [item] else []
  else [].

Definition extractByTag (body : string) (tags : list string) (maxItems : Z)
  (minLength maxLength : nat) : list string :=
  Js.slice0 (flat_map (itemsOf tags minLength maxLength) (Js.lines body))
    maxItems.

Definition extractFeatures (body : string) : list string :=
  extractByTag body ["[feature]"; "[enhancement]"] 10 10 200.

Definition extractBugFixes (body : string) : list string :=
  extractByTag body ["[bugfix]"] 10 10 200.

Definition extractBreakingChanges (body : string) : list string :=
  extractByTag body ["[breaking]"] 10 10 200.

(** A list of release items as the three extractors promise it. *)
Definition wellSized (items : list string) : Prop :=
  (List.length items <= 10)%nat
  /\ Forall
       (fun i => (10 <= String.length i <= 200)%nat /\ Js.trim i = i) items.

End ReleaseNotes.

(** ** [getVersionInfo] *)

Module VersionInfo.

Record t : Type := {
  current : string;
  description : string;
  features : list string;
  migrationGuide : string;
  links : list string
}.

(** [\d+\.\d+\.\d+] at the start of [s]: the longest match. *)
Definition versionAt (s : string) : option string :=
  let a := UrlBuilder.takeWhile Js.isDigit s in
  match UrlBuilder.dropWhile Js.isDigit s with
  | String dot1 r1 =>
      let b := UrlBuilder.takeWhile Js.isDigit r1 in
      match UrlBuilder.dropWhile Js.isDigit r1 with
      | String dot2 r2 =>
          let c := UrlBuilder.takeWhile Js.isDigit r2 in
          if negb (Js.isEmpty a) && Ascii.eqb dot1 "."%char
             && negb (Js.isEmpty b) && Ascii.eqb dot2 "."%char
             && negb (Js.isEmpty c)
          then Some (a ++ "." ++ b ++ "." ++ c)%string
          else None
      | EmptyString => None
      end
  | EmptyString => None
  end.

(** [content.match(/ember-(\d+\.\d+\.\d+)/i)]: the capture of the leftmost
    match. *)
Fixpoint emberVersion (s : string) : option string :=
  match s with
  | EmptyString => None
  | String _ rest =>
      if prefix "ember-" (Js.toLowerCase s) then
        match versionAt (DeprecationText.dropN 6 s) with
        | Some v => Some v
        | None => emberVersion rest
        end
      else emberVersion rest
  end.

(** The loop over the API items: the version of the first item that has
    one. *)
Fixpoint currentVersion (apiDocs : list Item) : string :=
  match apiDocs with
  | [] => "unknown"
  | doc :: rest =>
      match emberVersion (content doc) with
      | Some v => v
      | None => currentVersion rest
      end
  end.

(** A version made of characters that are no pattern syntax, and dots: the
    pattern built from it is accepted. *)
Definition harmless (version : string) : bool :=
  Js.allChars
    (fun c => negb (Regex.isSyntaxChar c) || Ascii.eqb c "."%char) version.

(** [new RegExp(`\\b${version}\\b`, "i")] throws. The two rules of
    [Regex] on groups and classes carry over from the version to the
    pattern: what is put around the version holds no bracket. Otherwise the
    platform decides. *)
Definition patternRejected (host : Host) (version : string) : bool :=
  if harmless version then false
  else if Regex.unbalancedGroup version || Regex.unterminatedClass version
  then true
  else match regexCount host ("\b" ++ version ++ "\b") EmptyString with
       | Some _ => false
       | None => true
       end.

Definition defaultFeatures : list string :=
  ["Modern component model"; "Octane edition features"; "TypeScript support";
   "Glimmer rendering engine"].

(** [getVersionInfo(version)]; [None] and the empty string stand for a
    version that is not given. *)
Definition getVersionInfo (host : Host) (b : UrlBuilder.Bases)
  (sections : Sections) (version : option string) : Completion t :=
  let given := DeprecationText.present version in
  if match given with
     | Some v => patternRejected host v
     | None => false
     end
  then Throws SyntaxError
  else
    let currentVersion := currentVersion (sectionItemsOf sections "api-docs") in
    Returns
      {| current := currentVersion;
         description :=
           match given with
           | Some v => ("Information about Ember.js version " ++ v)%string
           | None => ("Latest indexed version: " ++ currentVersion)%string
           end;
         features := defaultFeatures;
         migrationGuide :=
           ("For migration guides, see "
            ++ UrlBuilder.generateUpgradeGuideUrl b)%string;
         links := UrlBuilder.generateVersionLinks b |}.

(** A run of digits that is not empty. *)
Definition isNumber (s : string) : bool :=
  negb (Js.isEmpty s) && Js.allChars Js.isDigit s.

(** Three numbers with dots between them. *)
Definition isDottedTriple (v : string) : Prop :=
  exists a b c,
    isNumber a = true /\ isNumber b = true /\ isNumber c = true
    /\ v = (a ++ "." ++ b ++ "." ++ c)%string.

End VersionInfo.

(** ** Instances for the deprecation analysis *)

Module DeprecationSample.

Import DeprecationText.

Definition icons : Icons := {| warningIcon := "(!)"; infoIcon := "(i)" |}.

(** The first item of the deprecation guide of the repository's unit
    tests. *)
Definition guideText : string :=
  "`ArrayProxy` is deprecated since Ember 5.0. Use tracked properties instead.".

(** What the three extraction patterns capture in [guideText]; the
    captures of other texts are not needed. *)
Definition captures : Captures :=
  {| sinceCapture := fun c =>
       if String.eqb c guideText then Some "5.0" else None;
     reasonCapture := fun c =>
       if String.eqb c guideText then Some "Ember 5" else None;
     alternativeCapture := fun c =>
       if String.eqb c guideText then Some "tracked properties instead"
       else None |}.

Definition guideLink : string := "https://guides.emberjs.com/deprecations".

Definition guide : list (string * list Linked) :=
  [("deprecation-guide",
    [{| text := guideText; link := Some guideLink |}]);
   ("api-docs",
    [{| text := "Component API documentation"; link := None |}])].

Definition guideCorpus : string :=
  ("# deprecation-guide
" ++ guideText)%string.

End DeprecationSample.

(** ** Instances for the links and the version information *)

Module LinkSample.

(** The two bases are not recorded in the sources; these stand in for
    them. *)
Definition bases : UrlBuilder.Bases :=
  {| UrlBuilder.API_DOCS_BASE := "https://api.emberjs.com/ember";
     UrlBuilder.GUIDES_BASE := "https://guides.emberjs.com" |}.

Definition apiSections : Sections :=
  [("api-docs",
    [Sample.item "Component class" 0;
     Sample.item "Documented in ember-5.4.0 and later." 3])].

End LinkSample.

(** * Properties *)

(** ** Completions and loops *)

Lemma bind_returns {A B : Type} (m : Completion A) (k : A -> Completion B)
  (b : B) :
  bind m k = Returns b -> exists a, m = Returns a /\ k a = Returns b.
Proof.
  destruct m as [a | e]; simpl; intros H.
  - exists a. split; [reflexivity | exact H].
  - discriminate H.
Qed.

(** A property of the accumulator that every iteration keeps holds when the
    loop is over. *)
Lemma foldC_invariant {A S : Type} (P : S -> Prop)
  (body : S -> A -> Completion S) :
  (forall acc x acc', P acc -> body acc x = Returns acc' -> P acc') ->
  forall xs acc r, P acc -> foldC body xs acc = Returns r -> P r.
Proof.
  intros Hstep xs.
  induction xs as [| x xs IH]; simpl; intros acc r Hacc Hrun.
  - inversion Hrun. subst. exact Hacc.
  - apply bind_returns in Hrun. destruct Hrun as [acc' [Hbody Hrest]].
    apply IH with (acc := acc'); [| exact Hrest].
    apply Hstep with (acc := acc) (x := x); assumption.
Qed.

(** ** The stable sort and [slice] *)

Section SortFacts.

Context {A : Type}.
Variable cmp : A -> A -> Z.

Lemma insertSorted_perm (x : A) (l : list A) :
  Permutation (x :: l) (Js.insertSorted cmp x l).
Proof.
  induction l as [| y l IH]; simpl.
  - apply Permutation_refl.
  - destruct (0 <? cmp x y)%Z.
    + eapply perm_trans; [apply perm_swap |].
      apply perm_skip. exact IH.
    + apply Permutation_refl.
Qed.

Lemma sort_perm (l : list A) : Permutation l (Js.sort cmp l).
Proof.
  induction l as [| x l IH]; simpl.
  - apply perm_nil.
  - eapply perm_trans; [apply perm_skip; exact IH |].
    apply insertSorted_perm.
Qed.

Lemma sort_In (l : list A) (x : A) : In x (Js.sort cmp l) <-> In x l.
Proof.
  split; intros H.
  - eapply Permutation_in; [apply Permutation_sym, sort_perm | exact H].
  - eapply Permutation_in; [apply sort_perm | exact H].
Qed.

(** Stability, as a statement on filters: a class [p] of elements that the
    comparator never moves [x] behind keeps its order. *)
Lemma insertSorted_filter (p : A -> bool) (x : A) (l : list A) :
  (forall y, p x = true -> (0 < cmp x y)%Z -> p y = false) ->
  filter p (Js.insertSorted cmp x l) = filter p (x :: l).
Proof.
  intros Hp.
  induction l as [| y l IH]; simpl; [reflexivity |].
  destruct (0 <? cmp x y)%Z eqn:Hc; [| reflexivity].
  apply Z.ltb_lt in Hc. simpl. rewrite IH. simpl.
  destruct (p x) eqn:Hx; [| reflexivity].
  rewrite (Hp y eq_refl Hc). reflexivity.
Qed.

Lemma sort_filter (p : A -> bool) (l : list A) :
  (forall x y, p x = true -> (0 < cmp x y)%Z -> p y = false) ->
  filter p (Js.sort cmp l) = filter p l.
Proof.
  intros Hp.
  induction l as [| x l IH]; simpl; [reflexivity |].
  rewrite insertSorted_filter by (apply Hp).
  simpl. rewrite IH. reflexivity.
Qed.

(** Order, for a comparator that subtracts keys. *)
Variable key : A -> Z.
Hypothesis cmp_key : forall a b, cmp a b = (key a - key b)%Z.

Lemma insertSorted_sorted (x : A) (l : list A) :
  StronglySorted (Js.keyLe key) l ->
  StronglySorted (Js.keyLe key) (Js.insertSorted cmp x l).
Proof.
  induction l as [| y l IH]; simpl; intros Hs.
  - constructor; constructor.
  - inversion Hs as [| ? ? Hl Hall]; subst.
    destruct (0 <? cmp x y)%Z eqn:Hc.
    + apply Z.ltb_lt in Hc. rewrite cmp_key in Hc.
      constructor; [apply IH; exact Hl |].
      apply Forall_forall. intros z Hz.
      apply (Permutation_in z (Permutation_sym (insertSorted_perm x l)))
        in Hz.
      destruct Hz as [Hz | Hz].
      * subst z. unfold Js.keyLe. lia.
      * rewrite Forall_forall in Hall. apply Hall. exact Hz.
    + apply Z.ltb_ge in Hc. rewrite cmp_key in Hc.
      constructor; [exact Hs |].
      constructor; [unfold Js.keyLe; lia |].
      rewrite Forall_forall in Hall |- *. intros z Hz.
      specialize (Hall z Hz). unfold Js.keyLe in *. lia.
Qed.

Lemma sort_sorted (l : list A) : StronglySorted (Js.keyLe key) (Js.sort cmp l).
Proof.
  induction l as [| x l IH]; simpl.
  - constructor.
  - apply insertSorted_sorted. exact IH.
Qed.

End SortFacts.

Lemma StronglySorted_firstn {A : Type} (R : A -> A -> Prop) (n : nat)
  (l : list A) :
  StronglySorted R l -> StronglySorted R (firstn n l).
Proof.
  revert l.
  induction n as [| n IH]; intros l Hs; simpl; [constructor |].
  destruct l as [| x l]; [constructor |].
  inversion Hs as [| ? ? Hl Hall]; subst.
  constructor; [apply IH; exact Hl |].
  rewrite Forall_forall in Hall |- *. intros z Hz.
  apply Hall. rewrite <- (firstn_skipn n l).
  apply in_or_app. left. exact Hz.
Qed.

Lemma filter_firstn_prefix {A : Type} (p : A -> bool) (n : nat) (l : list A) :
  exists rest, filter p l = filter p (firstn n l) ++ rest.
Proof.
  exists (filter p (skipn n l)).
  rewrite <- filter_app, firstn_skipn. reflexivity.
Qed.

Lemma slice0_firstn {A : Type} (l : list A) (e : Z) :
  exists n, Js.slice0 l e = firstn n l.
Proof. unfold Js.slice0. eexists. reflexivity. Qed.

Lemma slice0_In {A : Type} (l : list A) (e : Z) (x : A) :
  In x (Js.slice0 l e) -> In x l.
Proof.
  destruct (slice0_firstn l e) as [n ->]. intros H.
  rewrite <- (firstn_skipn n l). apply in_or_app. left. exact H.
Qed.

(** A strongly sorted list read by positions. *)
Lemma StronglySorted_nth {A : Type} (R : A -> A -> Prop) (l : list A) :
  StronglySorted R l ->
  forall i j a b,
    (i < j)%nat -> nth_error l i = Some a -> nth_error l j = Some b -> R a b.
Proof.
  induction 1 as [| x l Hl IH Hall]; intros i j a b Hij Ha Hb.
  - destruct i; discriminate Ha.
  - destruct j as [| j]; [lia |].
    simpl in Hb.
    destruct i as [| i]; simpl in Ha.
    + inversion Ha; subst.
      rewrite Forall_forall in Hall. apply Hall.
      eapply nth_error_In. exact Hb.
    + apply (IH i j); [lia | assumption | assumption].
Qed.

Lemma StronglySorted_weaken {A : Type} (R R' : A -> A -> Prop) (l : list A) :
  (forall a b, R a b -> R' a b) -> StronglySorted R l -> StronglySorted R' l.
Proof.
  intros Himp. induction 1 as [| x l Hl IH Hall]; constructor.
  - exact IH.
  - rewrite Forall_forall in Hall |- *. intros z Hz.
    apply Himp, Hall, Hz.
Qed.

(** ** Search: admission, order, categories *)

Section SearchFacts.

Variable cfg : SEARCH_CONFIG.
Variable host : Host.

Lemma admitted_meetsFloors (name : string) (terms : list string)
  (it : Item) (s : Scoring.t) :
  admitted cfg s = true -> meetsFloors cfg (resultOf host name terms it s).
Proof.
  unfold admitted, meetsFloors. simpl. intros H.
  apply andb_true_iff in H. destruct H as [Hmin Hor].
  apply Z.leb_le in Hmin. split; [exact Hmin |].
  apply orb_true_iff in Hor. destruct Hor as [H2 | H1].
  - left. apply Nat.leb_le. exact H2.
  - right. apply Z.leb_le. exact H1.
Qed.

(** An item that is scanned without a throw has a title that is a string,
    and its scoring returned. *)
Lemma searchItem_returns (q : string) (terms : list string) (name : string)
  (results results' : list SearchResult) (it : Item) :
  searchItem cfg host q terms name results it = Returns results' ->
  Title.isText host (content it) = true
  /\ exists s,
       scoreItem cfg host q terms it = Returns s
       /\ results' = if admitted cfg s
                     then results ++ [resultOf host name terms it s]
                     else results.
Proof.
  unfold searchItem. intros Hrun.
  destruct (Title.isText host (content it)); [| discriminate].
  split; [reflexivity |].
  apply bind_returns in Hrun. destruct Hrun as [s [Hs Hret]].
  exists s. split; [exact Hs |]. inversion Hret. reflexivity.
Qed.

Lemma searchItem_keeps (P : SearchResult -> Prop) (q : string)
  (terms : list string) (name : string) (results results' : list SearchResult)
  (it : Item) :
  (forall s, admitted cfg s = true -> P (resultOf host name terms it s)) ->
  Forall P results ->
  searchItem cfg host q terms name results it = Returns results' ->
  Forall P results'.
Proof.
  intros Hnew Hall Hrun.
  apply searchItem_returns in Hrun. destruct Hrun as [_ [s [_ ->]]].
  destruct (admitted cfg s) eqn:Hadm.
  - apply Forall_app. split; [exact Hall |].
    constructor; [apply Hnew; exact Hadm | constructor].
  - exact Hall.
Qed.

Lemma scan_meetsFloors (sections : Sections) (query category : string)
  (results : list SearchResult) :
  scan cfg host sections query category = Returns results ->
  Forall (meetsFloors cfg) results.
Proof.
  unfold scan.
  apply foldC_invariant with (P := Forall (meetsFloors cfg)); [| constructor].
  intros acc name acc' Hacc Hsec. unfold searchSection in Hsec.
  revert Hsec.
  apply foldC_invariant with (P := Forall (meetsFloors cfg)); [| exact Hacc].
  intros rs it rs' Hrs Hitem.
  eapply searchItem_keeps; [| exact Hrs | exact Hitem].
  intros s Hs. apply admitted_meetsFloors. exact Hs.
Qed.

Lemma search_returns (sections : Sections) (query category : string)
  (limit : Z) (out : list SearchResult) :
  search cfg host sections query category limit = Returns out ->
  exists results,
    scan cfg host sections query category = Returns results
    /\ out = Js.slice0 (Js.sort byScoreDesc results) limit.
Proof.
  unfold search. intros H. apply bind_returns in H.
  destruct H as [results [Hscan Hret]].
  exists results. split; [exact Hscan |].
  inversion Hret. reflexivity.
Qed.

(** The two loops append the admitted items in corpus order. *)
Lemma searchSection_appends (q : string) (terms : list string)
  (name : string) :
  forall items acc r,
    foldC (searchItem cfg host q terms name) items acc = Returns r ->
    r = acc ++ flat_map (admittedFrom cfg host q terms name) items.
Proof.
  induction items as [| it items IH]; simpl; intros acc r Hrun.
  - inversion Hrun. rewrite app_nil_r. reflexivity.
  - apply bind_returns in Hrun. destruct Hrun as [acc' [Hitem Hrest]].
    apply IH in Hrest. subst r.
    assert (Hacc : acc' = acc ++ admittedFrom cfg host q terms name it).
    { apply searchItem_returns in Hitem.
      destruct Hitem as [_ [s [Hs ->]]].
      unfold admittedFrom. rewrite Hs.
      destruct (admitted cfg s); [reflexivity |].
      rewrite app_nil_r. reflexivity. }
    rewrite Hacc, <- app_assoc. reflexivity.
Qed.

Lemma scan_corpusOrder (sections : Sections) (query category : string)
  (results : list SearchResult) :
  scan cfg host sections query category = Returns results ->
  results = corpusOrder cfg host sections query category.
Proof.
  unfold scan, corpusOrder.
  set (q := Js.toLowerCase query).
  set (terms := Js.wordsLongerThan 0 q).
  assert (Hgen : forall names acc r,
             foldC (searchSection cfg host sections q terms) names acc
             = Returns r ->
             r = acc ++
                 flat_map
                   (fun name =>
                      flat_map (admittedFrom cfg host q terms name)
                        (sectionItemsOf sections name)) names).
  { induction names as [| name names IH]; simpl; intros acc r Hrun.
    - inversion Hrun. rewrite app_nil_r. reflexivity.
    - apply bind_returns in Hrun. destruct Hrun as [acc' [Hsec Hrest]].
      apply IH in Hrest. subst r.
      unfold searchSection in Hsec.
      apply searchSection_appends in Hsec. subst acc'.
      rewrite <- app_assoc. reflexivity. }
  intros Hrun. apply Hgen in Hrun. exact Hrun.
Qed.

(** What the admission test gives for every entry of the list that
    [search] returns: a score of at least [MIN_SCORE], and either a field
    [matchedTerms] of at least two or a score that reaches
    [MIN_SCORE_SINGLE_TERM]. The field is the length of the array
    [matchedTerms]: the whole phrase is one entry of it and a query word
    that is repeated counts each time. *)
Theorem search_results_meet_floors (sections : Sections)
  (query category : string) (limit : Z) (out : list SearchResult)
  (r : SearchResult) :
  search cfg host sections query category limit = Returns out ->
  In r out ->
  (MIN_SCORE cfg <= score r)%Z
  /\ ((2 <= matchedTerms r)%nat \/ (MIN_SCORE_SINGLE_TERM cfg <= score r)%Z).
Proof.
  intros Hsearch Hin.
  apply search_returns in Hsearch.
  destruct Hsearch as [results [Hscan ->]].
  apply slice0_In in Hin. apply sort_In in Hin.
  pose proof (scan_meetsFloors _ _ _ _ Hscan) as Hall.
  rewrite Forall_forall in Hall. exact (Hall r Hin).
Qed.

Lemma sorted_slice_by_score (results : list SearchResult) (limit : Z) :
  StronglySorted scoreGe (Js.slice0 (Js.sort byScoreDesc results) limit).
Proof.
  destruct (slice0_firstn (Js.sort byScoreDesc results) limit) as [n Hn].
  rewrite Hn. apply StronglySorted_firstn.
  apply StronglySorted_weaken with (R := Js.keyLe (fun r => (- score r)%Z)).
  - unfold Js.keyLe, scoreGe. intros a b Hab. lia.
  - apply sort_sorted. intros a b. unfold byScoreDesc. lia.
Qed.

(** C2. The list that [search] returns is in non-increasing order of
    score, and for every score the entries with that score are, in the
    same order, an initial part of the entries with that score in the
    order the items were scanned: section after section and, in a section,
    item after item. *)
Theorem search_sorted_stable (sections : Sections) (query category : string)
  (limit : Z) (out : list SearchResult) :
  search cfg host sections query category limit = Returns out ->
  StronglySorted (fun a b => (score b <= score a)%Z) out
  /\ scan cfg host sections query category
     = Returns (corpusOrder cfg host sections query category)
  /\ forall s, exists rest,
       filter (hasScore s) (corpusOrder cfg host sections query category)
       = filter (hasScore s) out ++ rest.
Proof.
  intros Hsearch.
  apply search_returns in Hsearch.
  destruct Hsearch as [results [Hscan ->]].
  split; [apply sorted_slice_by_score |].
  pose proof (scan_corpusOrder _ _ _ _ Hscan) as Horder.
  rewrite <- Horder. split; [exact Hscan |].
  destruct (slice0_firstn (Js.sort byScoreDesc results) limit) as [n Hn].
  rewrite Hn.
  intros s.
  destruct (filter_firstn_prefix (hasScore s) n
              (Js.sort byScoreDesc results)) as [rest Hrest].
  exists rest. rewrite <- Hrest.
  symmetry. apply sort_filter.
  unfold hasScore, byScoreDesc. intros x y Hx Hlt.
  apply Z.eqb_eq in Hx. apply Z.eqb_neq. lia.
Qed.

(** C10. For a category that is none of ["all"], ["api"], ["guides"] and
    ["community"], [search] scans no section and returns the empty list,
    whatever the query and the limit. *)
Theorem search_unknown_category (sections : Sections)
  (query category : string) (limit : Z) :
  category <> "all" -> category <> "api" ->
  category <> "guides" -> category <> "community" ->
  sectionsToSearch sections category = []
  /\ search cfg host sections query category limit = Returns [].
Proof.
  intros Hall Hapi Hguides Hcommunity.
  assert (Hnone : sectionsToSearch sections category = []).
  { unfold sectionsToSearch.
    apply String.eqb_neq in Hall, Hapi, Hguides, Hcommunity.
    rewrite Hall, Hapi, Hguides, Hcommunity. reflexivity. }
  split; [exact Hnone |].
  unfold search, scan. rewrite Hnone. simpl.
  unfold Js.slice0. simpl. rewrite firstn_nil. reflexivity.
Qed.

End SearchFacts.

Lemma search_results_meet_floors_witness :
  exists out r,
    search Sample.config Sample.host Sample.sections "tracked state" "all" 5
    = Returns out
    /\ In r out
    /\ (MIN_SCORE Sample.config <= score r)%Z
    /\ ((2 <= matchedTerms r)%nat
        \/ (MIN_SCORE_SINGLE_TERM Sample.config <= score r)%Z).
Proof.
  eexists. eexists.
  split; [vm_compute; reflexivity |].
  split; [left; reflexivity |].
  eapply (search_results_meet_floors Sample.config Sample.host Sample.sections
            "tracked state" "all" 5).
  - vm_compute. reflexivity.
  - left. reflexivity.
Defined.

Lemma search_sorted_stable_witness :
  exists out,
    search Sample.config Sample.host Sample.sections "modern" "all" 2
    = Returns out
    /\ StronglySorted (fun a b => (score b <= score a)%Z) out
    /\ scan Sample.config Sample.host Sample.sections "modern" "all"
       = Returns
           (corpusOrder Sample.config Sample.host Sample.sections
              "modern" "all")
    /\ forall s, exists rest,
         filter (hasScore s)
           (corpusOrder Sample.config Sample.host Sample.sections
              "modern" "all")
         = filter (hasScore s) out ++ rest.
Proof.
  eexists.
  split; [vm_compute; reflexivity |].
  eapply (search_sorted_stable Sample.config Sample.host Sample.sections
            "modern" "all" 2).
  vm_compute. reflexivity.
Defined.

Lemma search_unknown_category_witness :
  sectionsToSearch Sample.sections "docs" = []
  /\ search Sample.config Sample.host Sample.sections "tracked state" "docs" 5
     = Returns [].
Proof.
  apply (search_unknown_category Sample.config Sample.host Sample.sections
           "tracked state" "docs" 5); discriminate.
Defined.

(** ** Search: terms that are not valid patterns *)

Section SearchThrows.

Variable cfg : SEARCH_CONFIG.
Variable host : Host.

Lemma matchCount_invalid (term content : string) :
  Regex.isPlain term = false -> Regex.invalid term = true ->
  Regex.matchCount host term content = Throws SyntaxError.
Proof.
  intros Hplain Hinv. unfold Regex.matchCount.
  rewrite Hplain, Hinv. reflexivity.
Qed.

Lemma matchCount_error (term content : string) (e : JsError) :
  Regex.matchCount host term content = Throws e -> e = SyntaxError.
Proof.
  unfold Regex.matchCount.
  destruct (Regex.isPlain term); [discriminate |].
  destruct (Regex.invalid term); [intros H; inversion H; reflexivity |].
  destruct (regexCount host term content); [discriminate |].
  intros H; inversion H; reflexivity.
Qed.

(** The loop over the terms throws as soon as one term is rejected by the
    pattern constructor. *)
Lemma scoreTerms_throw (content titleLower : string) (terms : list string)
  (bad : string) :
  In bad terms ->
  Regex.isPlain bad = false -> Regex.invalid bad = true ->
  forall acc,
    foldC (scoreTerm cfg host content titleLower) terms acc
    = Throws SyntaxError.
Proof.
  intros Hin Hplain Hinv.
  induction terms as [| t terms IH]; [contradiction |].
  intros acc. simpl. unfold scoreTerm at 1.
  destruct (Regex.matchCount host t content) as [n | e] eqn:Hcount.
  - destruct Hin as [Heq | Hin].
    + subst t. rewrite matchCount_invalid in Hcount by assumption.
      discriminate.
    + simpl. destruct (0 <? n)%nat; simpl; apply IH; exact Hin.
  - simpl. apply matchCount_error in Hcount. subst e. reflexivity.
Qed.

Lemma foldC_all_throw {A S : Type} (body : S -> A -> Completion S)
  (e : JsError) (xs : list A) (acc : S) :
  (forall a x, body a x = Throws e) -> xs <> [] ->
  foldC body xs acc = Throws e.
Proof.
  intros Hbody Hne. destruct xs as [| x xs]; [contradiction |].
  simpl. rewrite Hbody. reflexivity.
Qed.

Lemma searchItem_throws (queryLower : string) (terms : list string)
  (bad name : string) (results : list SearchResult) (it : Item) :
  In bad terms -> Regex.isPlain bad = false -> Regex.invalid bad = true ->
  Title.isText host (content it) = true ->
  searchItem cfg host queryLower terms name results it = Throws SyntaxError.
Proof.
  intros Hin Hplain Hinv Htext. unfold searchItem, scoreItem.
  rewrite Htext.
  rewrite (scoreTerms_throw _ _ terms bad Hin Hplain Hinv). reflexivity.
Qed.

Lemma searchItem_throws_any (queryLower : string) (terms : list string)
  (bad name : string) (results : list SearchResult) (it : Item) :
  In bad terms -> Regex.isPlain bad = false -> Regex.invalid bad = true ->
  exists e, searchItem cfg host queryLower terms name results it = Throws e.
Proof.
  intros Hin Hplain Hinv.
  destruct (Title.isText host (content it)) eqn:Htext.
  - exists SyntaxError. eapply searchItem_throws; eassumption.
  - exists TypeError. unfold searchItem. rewrite Htext. reflexivity.
Qed.

(** A term that the pattern constructor rejects makes [search] throw as soon
    as one of the scanned sections holds an item. *)
Lemma search_throws_on_invalid_term (sections : Sections)
  (query category : string) (limit : Z) (bad : string) :
  In bad (Js.wordsLongerThan 0 (Js.toLowerCase query)) ->
  Regex.isPlain bad = false -> Regex.invalid bad = true ->
  (exists name,
      In name (sectionsToSearch sections category)
      /\ sectionItemsOf sections name <> []) ->
  exists e, search cfg host sections query category limit = Throws e.
Proof.
  intros Hin Hplain Hinv [name [Hname Hitems]].
  unfold search, scan.
  set (q := Js.toLowerCase query) in *.
  set (terms := Js.wordsLongerThan 0 q) in *.
  assert (Hscan : forall names acc,
             In name names ->
             exists e,
               foldC (searchSection cfg host sections q terms) names acc
               = Throws e).
  { induction names as [| n names IH]; intros acc Hn; [contradiction |].
    cbn [foldC]. unfold searchSection at 1.
    destruct (sectionItemsOf sections n) as [| it items] eqn:Hsec.
    - cbn [foldC bind]. destruct Hn as [Heq | Hn].
      + subst n. contradiction.
      + apply IH. exact Hn.
    - cbn [foldC].
      destruct (searchItem_throws_any q terms bad n acc it Hin Hplain Hinv)
        as [e He].
      rewrite He. exists e. reflexivity. }
  destruct (Hscan _ [] Hname) as [e He].
  rewrite He. exists e. reflexivity.
Qed.

(** The error is a [SyntaxError] when the titles of the scanned items are
    all strings. *)
Lemma search_throws_syntax_error (sections : Sections)
  (query category : string) (limit : Z) (bad : string) :
  In bad (Js.wordsLongerThan 0 (Js.toLowerCase query)) ->
  Regex.isPlain bad = false -> Regex.invalid bad = true ->
  (exists name,
      In name (sectionsToSearch sections category)
      /\ sectionItemsOf sections name <> []) ->
  Forall (fun it => Title.isText host (content it) = true)
    (flat_map (sectionItemsOf sections)
       (sectionsToSearch sections category)) ->
  search cfg host sections query category limit = Throws SyntaxError.
Proof.
  intros Hin Hplain Hinv [name [Hname Hitems]] Htext.
  unfold search, scan.
  set (q := Js.toLowerCase query) in *.
  set (terms := Js.wordsLongerThan 0 q) in *.
  assert (Hscan : forall names acc,
             In name names ->
             Forall (fun it => Title.isText host (content it) = true)
               (flat_map (sectionItemsOf sections) names) ->
             foldC (searchSection cfg host sections q terms) names acc
             = Throws SyntaxError).
  { induction names as [| n names IH]; intros acc Hn Hall; [contradiction |].
    cbn [foldC]. unfold searchSection at 1.
    cbn [flat_map] in Hall. apply Forall_app in Hall.
    destruct Hall as [Hhere Hrest].
    destruct (sectionItemsOf sections n) as [| it items] eqn:Hsec.
    - cbn [foldC bind]. destruct Hn as [Heq | Hn].
      + subst n. contradiction.
      + apply IH; assumption.
    - cbn [foldC]. inversion Hhere as [| ? ? Hit _]; subst.
      rewrite (searchItem_throws q terms bad n acc it Hin Hplain Hinv Hit).
      reflexivity. }
  rewrite (Hscan _ [] Hname Htext). reflexivity.
Qed.

(** C5, at the inputs where it fails. On a corpus with at least one item in
    a scanned section, each of the queries [(], [+] and [[] makes [search]
    throw a [SyntaxError] instead of returning a list. *)
Theorem search_throws_on_pattern_characters :
  search cfg host Sample.sections "(" "all" 5 = Throws SyntaxError
  /\ search cfg host Sample.sections "+" "all" 5 = Throws SyntaxError
  /\ search cfg host Sample.sections "[" "all" 5 = Throws SyntaxError
  /\ search cfg host Sample.sections "tracked (state" "guides" 5
     = Throws SyntaxError.
Proof.
  repeat split; vm_compute; reflexivity.
Qed.

(** The all-terms test compares the length of [matchedTerms], which holds
    the whole phrase as an extra entry after an exact-phrase hit, with the
    number of query terms. *)
Lemma scoreBonuses_skipped (terms : list string) (s : Scoring.t) :
  List.length (Scoring.matchedTerms s) <> List.length terms ->
  scoreBonuses cfg terms s = s.
Proof.
  intros Hne. unfold scoreBonuses.
  apply Nat.eqb_neq in Hne. rewrite Hne. reflexivity.
Qed.

(** C3, at an input where it fails. The item [foo bar] holds the query
    [foo bar] verbatim and both of its terms; its score is the exact-phrase
    bonus plus one occurrence of each term, without [ALL_TERMS_BONUS]:
    three entries were matched against two terms. *)
Theorem exact_phrase_item_misses_all_terms_bonus :
  Js.wordsLongerThan 0 (Js.toLowerCase "foo bar") = ["foo"; "bar"]
  /\ Js.includes (Js.toLowerCase "foo bar")
       (Js.toLowerCase (content Sample.fooBar)) = true
  /\ exists s,
       scoreItem cfg host "foo bar" ["foo"; "bar"] Sample.fooBar = Returns s
       /\ Scoring.matchedTerms s = ["foo bar"; "foo"; "bar"]
       /\ Scoring.score s
          = (EXACT_PHRASE_BONUS cfg + 2 * TERM_MATCH_WEIGHT cfg)%Z.
Proof.
  split; [reflexivity |].
  split; [reflexivity |].
  exists {| Scoring.score :=
              (EXACT_PHRASE_BONUS cfg + 0 + 1 * TERM_MATCH_WEIGHT cfg
               + 0 + 1 * TERM_MATCH_WEIGHT cfg)%Z;
            Scoring.matchedTerms := ["foo bar"; "foo"; "bar"];
            Scoring.termPositions :=
              [{| term := "foo"; pos := 0 |};
               {| term := "bar"; pos := 4 |}] |}.
  split; [vm_compute; reflexivity |].
  split; [reflexivity |].
  cbn [Scoring.score]. lia.
Qed.

End SearchThrows.

(** ** The excerpt extractor: which hit anchors the excerpt *)

Section ExcerptFacts.

Lemma sortByPos_sorted (hits : list Hit) :
  StronglySorted Excerpt.posLe (Js.sort Excerpt.byPos hits).
Proof.
  apply StronglySorted_weaken with (R := Js.keyLe pos).
  - intros a b H. exact H.
  - apply sort_sorted. intros a b. reflexivity.
Qed.

(** On hits in ascending order the inner loop, which stops at the first hit
    that is too far, has counted every hit of the window. *)
Lemma within_counts (h : Hit) (rest : list Hit) :
  StronglySorted Excerpt.posLe (h :: rest) ->
  Excerpt.within (pos h) rest
  = List.length (filter (fun x => (pos x - pos h <? 500)%Z) rest).
Proof.
  intros Hs. inversion Hs as [| ? ? Hrest _]; subst. clear Hs.
  induction Hrest as [| x r Hr IH Hall]; simpl; [reflexivity |].
  destruct (pos x - pos h <? 500)%Z eqn:Hx.
  - simpl. rewrite IH. reflexivity.
  - apply Z.ltb_ge in Hx.
    replace (filter (fun y => (pos y - pos h <? 500)%Z) r) with (@nil Hit);
      [reflexivity |].
    symmetry. clear IH.
    induction r as [| y r IHr]; simpl; [reflexivity |].
    inversion Hall as [| ? ? Hy Hall']; subst.
    inversion Hr as [| ? ? Hr' Hally]; subst.
    unfold Excerpt.posLe in Hy.
    replace (pos y - pos h <? 500)%Z with false
      by (symmetry; apply Z.ltb_ge; lia).
    apply IHr; assumption.
Qed.

Lemma StronglySorted_skipn (k : nat) (l : list Hit) :
  StronglySorted Excerpt.posLe l -> StronglySorted Excerpt.posLe (skipn k l).
Proof.
  revert l. induction k as [| k IH]; intros l Hs; simpl; [exact Hs |].
  destruct l as [| x l]; [constructor |].
  inversion Hs; subst. apply IH. assumption.
Qed.

Lemma sizeAt_window (l : list Hit) (k : nat) :
  StronglySorted Excerpt.posLe l ->
  Excerpt.sizeAt l k = Excerpt.hitsInWindow l k.
Proof.
  intros Hs. unfold Excerpt.sizeAt, Excerpt.hitsInWindow.
  pose proof (StronglySorted_skipn k l Hs) as Hk.
  destruct (skipn k l) as [| h rest]; [reflexivity |].
  rewrite within_counts by exact Hk. reflexivity.
Qed.

(** What the outer loop leaves in [(bestStart, bestDensity)]: the running
    maximum of the sizes, and the position of the first hit that reached
    it. *)
Lemma scanClusters_spec (l : list Hit) :
  forall best,
    let r := Excerpt.scanClusters l best in
    (snd best <= snd r)%nat
    /\ (forall k, (Excerpt.sizeAt l k <= snd r)%nat)
    /\ (r = best
        \/ exists k h,
             nth_error l k = Some h
             /\ fst r = pos h
             /\ snd r = Excerpt.sizeAt l k
             /\ (snd best < snd r)%nat
             /\ forall k', (k' < k)%nat -> (Excerpt.sizeAt l k' < snd r)%nat).
Proof.
  induction l as [| h rest IH]; intros best; simpl.
  - split; [lia |]. split; [| left; reflexivity].
    intros k. unfold Excerpt.sizeAt. rewrite skipn_nil. lia.
  - set (size := S (Excerpt.within (pos h) rest)).
    set (best' := if (snd best <? size)%nat then (pos h, size) else best).
    destruct (IH best') as [Hmono [Hmax Hwho]].
    assert (Hbest : (snd best <= snd best')%nat /\ (size <= snd best')%nat).
    { unfold best'. destruct (snd best <? size)%nat eqn:Hlt; simpl.
      - apply Nat.ltb_lt in Hlt. lia.
      - apply Nat.ltb_ge in Hlt. lia. }
    destruct Hbest as [Hb1 Hb2].
    split; [lia |]. split.
    + intros [| k]; [unfold Excerpt.sizeAt; simpl; fold size; lia |].
      exact (Hmax k).
    + destruct Hwho as [Heq | [k [h' [Hnth [Hfst [Hsnd [Hlt Hearly]]]]]]].
      * rewrite Heq. unfold best'.
        destruct (snd best <? size)%nat eqn:Hlt.
        -- right. exists O, h. apply Nat.ltb_lt in Hlt. simpl.
           repeat split; try reflexivity; try lia.
        -- left. reflexivity.
      * right. exists (S k), h'. simpl.
        repeat split; try assumption; try lia.
        intros [| k'] Hk'.
        -- unfold Excerpt.sizeAt. simpl. fold size. lia.
        -- apply Hearly. lia.
Qed.

Lemma sort_nonempty (hits : list Hit) :
  hits <> [] -> Js.sort Excerpt.byPos hits <> [].
Proof.
  intros Hne Heq.
  pose proof (sort_perm Excerpt.byPos hits) as Hperm.
  rewrite Heq in Hperm. apply Permutation_sym, Permutation_nil in Hperm.
  contradiction.
Qed.

(** C6, amended. Given a non-empty list of hits, the extractor sorts them by
    position and anchors the excerpt at the hit whose window is the fullest:
    the window of a hit holds the hits that lie less than 500 behind that
    hit itself (not behind their neighbour). Among the hits with the fullest
    window the earliest one is taken, and the excerpt is cut from 150
    characters in front of the anchor to 400 characters behind it, clipped
    to the content. *)
Theorem excerpt_anchored_at_fullest_window (content : string)
  (searchTerms : list string) (termPositions : list Hit) :
  termPositions <> [] ->
  let sorted := Js.sort Excerpt.byPos termPositions in
  Permutation termPositions sorted
  /\ StronglySorted Excerpt.posLe sorted
  /\ exists k h,
       nth_error sorted k = Some h
       /\ Excerpt.bestStart termPositions = pos h
       /\ (forall k',
              (Excerpt.hitsInWindow sorted k'
               <= Excerpt.hitsInWindow sorted k)%nat)
       /\ (forall k', (k' < k)%nat ->
              (Excerpt.hitsInWindow sorted k'
               < Excerpt.hitsInWindow sorted k)%nat)
       /\ Excerpt.contextStart termPositions = Z.max 0 (pos h - 150)
       /\ Excerpt.contextEnd content termPositions
          = Z.min (Js.len content) (pos h + 400)
       /\ Excerpt.extractExcerpt content searchTerms termPositions
          = Excerpt.aroundCluster content termPositions.
Proof.
  intros Hne sorted.
  pose proof (sortByPos_sorted termPositions) as Hsorted.
  fold sorted in Hsorted.
  split; [apply sort_perm |]. split; [exact Hsorted |].
  assert (Hanchor :
    exists k h,
      nth_error sorted k = Some h
      /\ Excerpt.bestStart termPositions = pos h
      /\ (forall k', (Excerpt.sizeAt sorted k' <= Excerpt.sizeAt sorted k)%nat)
      /\ (forall k', (k' < k)%nat ->
                     (Excerpt.sizeAt sorted k' < Excerpt.sizeAt sorted k)%nat)).
  { unfold Excerpt.bestStart, Excerpt.bestCluster. fold sorted.
    pose proof (sort_nonempty termPositions Hne) as Hsne. fold sorted in Hsne.
    destruct sorted as [| h0 rest] eqn:Hs; [contradiction |].
    destruct (scanClusters_spec (h0 :: rest) (pos h0, 1%nat))
      as [_ [Hmax Hwho]].
    destruct Hwho as [Heq | [k [h [Hnth [Hfst [Hsnd [_ Hearly]]]]]]].
    - exists O, h0. rewrite Heq in *. simpl in Hmax |- *.
      assert (H0 : Excerpt.sizeAt (h0 :: rest) 0 = 1%nat).
      { specialize (Hmax O). unfold Excerpt.sizeAt in *. simpl in *. lia. }
      repeat split; try reflexivity.
      + intros k'. rewrite H0. apply Hmax.
      + intros k' Hk'. lia.
    - exists k, h. rewrite <- Hsnd.
      repeat split; assumption. }
  destruct Hanchor as [k [h [Hnth [Hstart [Hmax Hearly]]]]].
  exists k, h.
  split; [exact Hnth |]. split; [exact Hstart |].
  split; [intros k'; rewrite <- !sizeAt_window by exact Hsorted; apply Hmax |].
  split; [intros k' Hk'; rewrite <- !sizeAt_window by exact Hsorted;
          apply Hearly; exact Hk' |].
  split; [unfold Excerpt.contextStart; rewrite Hstart; reflexivity |].
  split; [unfold Excerpt.contextEnd; rewrite Hstart; reflexivity |].
  unfold Excerpt.extractExcerpt.
  destruct termPositions; [contradiction | reflexivity].
Qed.

End ExcerptFacts.

Lemma excerpt_anchored_at_fullest_window_witness :
  Sample.chainedHits <> []
  /\ exists k h,
       nth_error (Js.sort Excerpt.byPos Sample.chainedHits) k = Some h
       /\ Excerpt.bestStart Sample.chainedHits = pos h.
Proof.
  split; [discriminate |].
  destruct (excerpt_anchored_at_fullest_window "text" ["t"] Sample.chainedHits)
    as [_ [_ [k [h [Hnth [Hstart _]]]]]]; [discriminate |].
  exists k, h. split; assumption.
Defined.

(** C6 as worded fails: the five hits at 0, 400, 800, 900 and 1000 form one
    run whose gaps are all below 500, so the wording anchors the excerpt at
    0; the extractor anchors it at 800, the hit with three hits in its
    window. *)
Lemma gap_cluster_is_not_the_anchor :
  SpecWords.clusterStart Sample.chainedHits = Some 0%Z
  /\ Excerpt.bestStart Sample.chainedHits = 800%Z
  /\ Excerpt.contextStart Sample.chainedHits = 650%Z
  /\ SpecWords.clusterStart Sample.chainedHits
     <> Some (Excerpt.bestStart Sample.chainedHits).
Proof.
  repeat split; try reflexivity.
  vm_compute. discriminate.
Qed.

(** ** Segmentation: items, sections and separators *)

Section SegmenterFacts.

Import Segmenter.

Lemma appendTo_keys_In (secs : Sections) (n k : string) (it : Item) :
  In k (keys (appendTo secs n it)) -> In k (keys secs) \/ k = n.
Proof.
  induction secs as [| [k0 v] rest IH]; simpl.
  - intros [H | []]. right. symmetry. exact H.
  - destruct (String.eqb k0 n) eqn:Hk; simpl.
    + intros H. left. exact H.
    + intros [H | H]; [left; left; exact H |].
      destruct (IH H) as [H' | H']; [left; right; exact H' | right; exact H'].
Qed.

Lemma appendTo_keys_NoDup (secs : Sections) (n : string) (it : Item) :
  NoDup (keys secs) -> NoDup (keys (appendTo secs n it)).
Proof.
  induction secs as [| [k0 v] rest IH]; simpl; intros Hnd.
  - constructor; [intros [] | constructor].
  - inversion Hnd as [| ? ? Hnotin Hrest]; subst.
    destruct (String.eqb k0 n) eqn:Hk; simpl.
    + constructor; assumption.
    + constructor; [| apply IH; exact Hrest].
      intros Hin. apply appendTo_keys_In in Hin.
      destruct Hin as [Hin | Heq]; [contradiction |].
      subst k0. rewrite String.eqb_refl in Hk. discriminate.
Qed.

Lemma appendTo_starts (secs : Sections) (n : string) (it : Item) :
  Permutation (startLine it :: starts secs) (starts (appendTo secs n it)).
Proof.
  unfold starts.
  induction secs as [| [k0 v] rest IH]; simpl.
  - apply Permutation_refl.
  - destruct (String.eqb k0 n); simpl.
    + rewrite !map_app. simpl. rewrite <- app_assoc. simpl.
      apply Permutation_middle.
    + rewrite !map_app.
      eapply perm_trans; [apply Permutation_middle |].
      apply Permutation_app_head. exact IH.
Qed.

Lemma appendTo_count (secs : Sections) (n name : string) (it : Item) :
  itemCount (appendTo secs n it) name
  = (itemCount secs name + (if String.eqb n name then 1 else 0))%nat.
Proof.
  unfold itemCount, sectionItemsOf.
  induction secs as [| [k0 v] rest IH]; simpl.
  - destruct (String.eqb n name); reflexivity.
  - destruct (String.eqb k0 n) eqn:Hk; simpl.
    + apply String.eqb_eq in Hk. subst k0.
      destruct (String.eqb n name); [| lia].
      rewrite length_app. simpl. lia.
    + destruct (String.eqb k0 name) eqn:Hname; [| exact IH].
      apply String.eqb_eq in Hname. subst k0.
      rewrite String.eqb_sym in Hk. rewrite Hk. lia.
Qed.

Lemma pushItem_returns (secs secs' : Sections) (n : string) (it : Item) :
  pushItem secs n it = Returns secs' -> secs' = appendTo secs n it.
Proof.
  unfold pushItem. destruct (String.eqb n "constructor"); [discriminate |].
  intros H. inversion H. reflexivity.
Qed.

Lemma push_wellFormed (secs secs' : Sections) (n text : string) (c : nat) :
  pushItem secs n {| content := text; startLine := c |} = Returns secs' ->
  NoDup (keys secs) -> NoDup (starts secs) ->
  Forall (fun s => (s < c)%nat) (starts secs) ->
  NoDup (keys secs') /\ NoDup (starts secs')
  /\ Forall (fun s => (s <= c)%nat) (starts secs').
Proof.
  intros Hpush Hk Hs Hlt.
  apply pushItem_returns in Hpush. subst secs'.
  pose proof (appendTo_starts secs n {| content := text; startLine := c |})
    as Hperm. simpl in Hperm.
  assert (Hc : NoDup (c :: starts secs)).
  { constructor; [| exact Hs]. intros Hin.
    rewrite Forall_forall in Hlt. specialize (Hlt c Hin). lia. }
  split; [apply appendTo_keys_NoDup; exact Hk |].
  split; [eapply Permutation_NoDup; [exact Hperm | exact Hc] |].
  eapply Permutation_Forall; [exact Hperm |].
  constructor; [lia |].
  rewrite Forall_forall in Hlt |- *. intros s Hin.
  specialize (Hlt s Hin). lia.
Qed.

Lemma Forall_lt_weaken (c d : nat) (l : list nat) :
  (c < d)%nat -> Forall (fun s => (s <= c)%nat) l ->
  Forall (fun s => (s < d)%nat) l.
Proof.
  intros Hcd Hl. rewrite Forall_forall in Hl |- *.
  intros s Hin. specialize (Hl s Hin). lia.
Qed.

Lemma Forall_lt_mono (c d : nat) (l : list nat) :
  (c <= d)%nat -> Forall (fun s => (s < c)%nat) l ->
  Forall (fun s => (s < d)%nat) l.
Proof.
  intros Hcd Hl. rewrite Forall_forall in Hl |- *.
  intros s Hin. specialize (Hl s Hin). lia.
Qed.

Lemma nonempty_length {A : Type} (l : list A) :
  (0 <? List.length l)%nat = true -> l <> [].
Proof. destruct l; simpl; [discriminate | intros _; discriminate]. Qed.

Lemma step_wellFormed (i : nat) (st st' : State) (line : string) :
  wellFormed i st -> step st i line = Returns st' -> wellFormed (S i) st'.
Proof.
  intros [Hk [Hs Hcur]] Hstep. unfold step in Hstep.
  destruct (isHeader line).
  - apply bind_returns in Hstep. destruct Hstep as [secs [Hflush Hret]].
    inversion Hret; subst st'; clear Hret. unfold wellFormed; simpl.
    unfold flush in Hflush.
    destruct (currentSection st) as [c |] eqn:Hc.
    + destruct Hcur as [Hle [Hlt Hall]].
      destruct (0 <? List.length (currentContent st))%nat eqn:Hlen.
      * apply nonempty_length in Hlen. specialize (Hlt Hlen).
        destruct (push_wellFormed _ _ _ _ _ Hflush Hk Hs Hall)
          as [Hk' [Hs' Hall']].
        repeat split; try assumption; try lia.
        eapply Forall_lt_weaken; [exact Hlt | exact Hall'].
      * inversion Hflush; subst secs.
        repeat split; try assumption; try lia.
        eapply Forall_lt_mono; [exact Hle | exact Hall].
    + inversion Hflush; subst secs. rewrite Hcur.
      repeat split; try constructor; try lia.
  - destruct (currentSection st) as [c |] eqn:Hc.
    + destruct Hcur as [Hle [Hlt Hall]].
      destruct (isSeparator line && (1 <? List.length (currentContent st))%nat)
        eqn:Hsep.
      * apply bind_returns in Hstep. destruct Hstep as [secs [Hpush Hret]].
        inversion Hret; subst st'; clear Hret. unfold wellFormed; simpl.
        destruct (0 <? List.length (currentContent st))%nat eqn:Hlen.
        -- destruct (push_wellFormed _ _ _ _ _ Hpush Hk Hs Hall)
             as [Hk' [Hs' Hall']].
           repeat split; try assumption; try lia.
           ++ intros Hne. contradiction Hne. reflexivity.
           ++ eapply Forall_lt_weaken; [| exact Hall']. lia.
        -- inversion Hpush; subst secs.
           repeat split; try assumption; try lia.
           ++ intros Hne. contradiction Hne. reflexivity.
           ++ eapply Forall_lt_mono; [| exact Hall]. lia.
      * inversion Hstep; subst st'; clear Hstep. unfold wellFormed; simpl.
        repeat split; try assumption; try lia.
    + inversion Hstep; subst st'. unfold wellFormed. rewrite Hc.
      repeat split; assumption.
Qed.

Lemma run_wellFormed (ls : list string) :
  forall i st st',
    wellFormed i st -> run i ls st = Returns st' ->
    wellFormed (i + List.length ls) st'.
Proof.
  induction ls as [| line rest IH]; simpl; intros i st st' Hwf Hrun.
  - inversion Hrun; subst. rewrite Nat.add_0_r. exact Hwf.
  - apply bind_returns in Hrun. destruct Hrun as [st1 [Hstep Hrest]].
    replace (i + S (List.length rest))%nat
      with (S i + List.length rest)%nat by lia.
    eapply IH; [| exact Hrest].
    eapply step_wellFormed; [exact Hwf | exact Hstep].
Qed.

Lemma flush_wellFormed (i : nat) (st : State) (secs : Sections) :
  wellFormed i st -> flush st = Returns secs ->
  NoDup (keys secs) /\ NoDup (starts secs).
Proof.
  intros [Hk [Hs Hcur]] Hflush. unfold flush in Hflush.
  destruct (currentSection st) as [c |].
  - destruct Hcur as [_ [_ Hall]].
    destruct (0 <? List.length (currentContent st))%nat.
    + destruct (push_wellFormed _ _ _ _ _ Hflush Hk Hs Hall) as [Hk' [Hs' _]].
      split; assumption.
    + inversion Hflush; subst. split; assumption.
  - inversion Hflush; subst. split; assumption.
Qed.

Lemma getSection_In (secs : Sections) (name : string) (items : list Item)
  (it : Item) :
  getSection secs name = Some items -> In it items ->
  In it (flat_map snd secs).
Proof.
  induction secs as [| [k v] rest IH]; simpl; [discriminate |].
  destruct (String.eqb k name).
  - intros H Hin. inversion H; subst. apply in_or_app. left. exact Hin.
  - intros H Hin. apply in_or_app. right. apply IH; assumption.
Qed.

Lemma In_flat_map_section (secs : Sections) (it : Item) :
  NoDup (keys secs) -> In it (flat_map snd secs) ->
  exists name, In it (sectionItemsOf secs name).
Proof.
  unfold sectionItemsOf.
  induction secs as [| [k v] rest IH]; simpl; intros Hnd Hin; [contradiction |].
  inversion Hnd as [| ? ? Hnotin Hrest]; subst.
  apply in_app_or in Hin. destruct Hin as [Hin | Hin].
  - exists k. rewrite String.eqb_refl. exact Hin.
  - destruct (IH Hrest Hin) as [name Hname].
    exists name.
    destruct (String.eqb k name) eqn:Hk; [| exact Hname].
    apply String.eqb_eq in Hk. subst k.
    destruct (getSection rest name) as [items |] eqn:Hget; [| contradiction].
    exfalso. apply Hnotin. clear - Hget.
    induction rest as [| [k' v'] rest IH]; simpl in *; [discriminate |].
    destruct (String.eqb k' name) eqn:Hk'.
    + left. apply String.eqb_eq. exact Hk'.
    + right. apply IH. exact Hget.
Qed.

(** With distinct start lines an item sits in one section only. *)
Lemma one_section (secs : Sections) (it : Item) (n1 n2 : string) :
  NoDup (starts secs) ->
  In it (sectionItemsOf secs n1) -> In it (sectionItemsOf secs n2) ->
  n1 = n2.
Proof.
  unfold starts, sectionItemsOf.
  induction secs as [| [k v] rest IH]; simpl; intros Hnd H1 H2; [contradiction |].
  rewrite map_app in Hnd.
  assert (Hsplit : forall x, In x v -> In x (flat_map snd rest) -> False).
  { intros x Hv Hr.
    apply (in_map startLine) in Hv. apply (in_map startLine) in Hr.
    clear - Hnd Hv Hr.
    induction (map startLine v) as [| a l IHl]; [contradiction |].
    simpl in Hnd. inversion Hnd as [| ? ? Ha Hl]; subst.
    destruct Hv as [Heq | Hv].
    - subst a. apply Ha. apply in_or_app. right. exact Hr.
    - apply IHl; assumption. }
  destruct (String.eqb k n1) eqn:Hk1; destruct (String.eqb k n2) eqn:Hk2.
  - apply String.eqb_eq in Hk1, Hk2. congruence.
  - exfalso. destruct (getSection rest n2) as [items |] eqn:Hget;
      [| contradiction].
    apply (Hsplit it H1). eapply getSection_In; eassumption.
  - exfalso. destruct (getSection rest n1) as [items |] eqn:Hget;
      [| contradiction].
    apply (Hsplit it H2). eapply getSection_In; eassumption.
  - apply IH; try assumption.
    apply NoDup_app_remove_l in Hnd. exact Hnd.
Qed.

End SegmenterFacts.

Section SegmenterCounts.

Import Segmenter.

Lemma flush_count (st : State) (secs : Sections) (name : string) :
  flush st = Returns secs ->
  (itemCount secs name
   <= itemCount (sections st) name + SpecWords.inSection (curName st) name)%nat.
Proof.
  unfold flush, curName. intros Hflush.
  destruct (currentSection st) as [c |].
  - destruct (0 <? List.length (currentContent st))%nat.
    + apply pushItem_returns in Hflush. subst secs.
      rewrite appendTo_count. simpl. lia.
    + inversion Hflush; subst. lia.
  - inversion Hflush; subst. lia.
Qed.

Lemma step_count (name : string) (i : nat) (st st' : State) (line : string) :
  step st i line = Returns st' ->
  curName st' = (if isHeader line then Some (nameOf line) else curName st)
  /\ (itemCount (sections st') name + SpecWords.inSection (curName st') name
      <= itemCount (sections st) name + SpecWords.inSection (curName st) name
         + (if isHeader line && String.eqb (nameOf line) name then 1 else 0)
         + (if isHeader line then 0
            else if isSeparator line
                 then SpecWords.inSection (curName st) name else 0))%nat.
Proof.
  intros Hstep. unfold step in Hstep.
  destruct (isHeader line) eqn:Hh.
  - apply bind_returns in Hstep. destruct Hstep as [secs [Hflush Hret]].
    inversion Hret; subst st'; clear Hret.
    pose proof (flush_count st secs name Hflush) as Hc.
    unfold curName at 1 2. simpl. split; [reflexivity |].
    destruct (String.eqb (nameOf line) name); lia.
  - destruct (currentSection st) as [c |] eqn:Hcur.
    + destruct (isSeparator line && (1 <? List.length (currentContent st))%nat)
        eqn:Hsep.
      * apply andb_true_iff in Hsep. destruct Hsep as [Hsep Hlen].
        rewrite Hsep.
        apply bind_returns in Hstep. destruct Hstep as [secs [Hpush Hret]].
        inversion Hret; subst st'; clear Hret.
        assert (Hcn : curName st = Some (sectionName st))
          by (unfold curName; rewrite Hcur; reflexivity).
        rewrite Hcn. unfold curName. simpl.
        split; [reflexivity |].
        destruct (0 <? List.length (currentContent st))%nat.
        -- apply pushItem_returns in Hpush. subst secs.
           rewrite appendTo_count. simpl. lia.
        -- inversion Hpush; subst. lia.
      * inversion Hstep; subst st'; clear Hstep.
        assert (Hcn : curName st = Some (sectionName st))
          by (unfold curName; rewrite Hcur; reflexivity).
        rewrite Hcn. unfold curName. simpl.
        split; [reflexivity |].
        destruct (isSeparator line); lia.
    + inversion Hstep; subst st'. split; [reflexivity |].
      destruct (isSeparator line); lia.
Qed.

Lemma run_count (name : string) (ls : list string) :
  forall i st st',
    run i ls st = Returns st' ->
    (itemCount (sections st') name + SpecWords.inSection (curName st') name
     <= itemCount (sections st) name + SpecWords.inSection (curName st) name
        + SpecWords.headerLines name ls
        + SpecWords.separatorsInside name (curName st) ls)%nat.
Proof.
  induction ls as [| line rest IH]; simpl; intros i st st' Hrun.
  - inversion Hrun; subst. lia.
  - apply bind_returns in Hrun. destruct Hrun as [st1 [Hstep Hrest]].
    destruct (step_count name i st st1 line Hstep) as [Hcur Hone].
    specialize (IH (S i) st1 st' Hrest). rewrite Hcur in IH, Hone.
    destruct (isHeader line); simpl in *.
    + lia.
    + destruct (isSeparator line); lia.
Qed.

Lemma run_count_exact (name : string) (ls : list string) :
  forall i st st' secs,
    run i ls st = Returns st' -> flush st' = Returns secs ->
    itemCount secs name
    = (itemCount (sections st) name
       + SpecWords.closingSeparators name (curName st)
           (List.length (currentContent st)) ls
       + SpecWords.closingEnds name (curName st)
           (List.length (currentContent st)) ls)%nat.
Proof.
  induction ls as [| line rest IH]; intros i st st' secs Hrun Hflush.
  - simpl in Hrun. inversion Hrun; subst st'. clear Hrun.
    simpl. unfold flush in Hflush. unfold curName.
    destruct (currentSection st) as [c |].
    + destruct (0 <? List.length (currentContent st))%nat.
      * apply pushItem_returns in Hflush. subst secs.
        rewrite appendTo_count. simpl. lia.
      * inversion Hflush; subst. simpl. lia.
    + inversion Hflush; subst.
      destruct (0 <? List.length (currentContent st))%nat; simpl; lia.
  - simpl in Hrun. apply bind_returns in Hrun.
    destruct Hrun as [st1 [Hstep Hrest]].
    specialize (IH (S i) st1 st' secs Hrest Hflush). rewrite IH. clear IH.
    unfold step in Hstep. simpl.
    destruct (isHeader line) eqn:Hh.
    + apply bind_returns in Hstep. destruct Hstep as [closed [Hclosed Hret]].
      inversion Hret; subst st1; clear Hret.
      unfold curName at 1 2. simpl.
      unfold flush in Hclosed. unfold curName.
      destruct (currentSection st) as [c |].
      * destruct (0 <? List.length (currentContent st))%nat.
        -- apply pushItem_returns in Hclosed. subst closed.
           rewrite appendTo_count. simpl. lia.
        -- inversion Hclosed; subst. simpl. lia.
      * inversion Hclosed; subst.
        destruct (0 <? List.length (currentContent st))%nat; simpl; lia.
    + unfold curName.
      destruct (currentSection st) as [c |] eqn:Hcur.
      * destruct (isSeparator line
                  && (1 <? List.length (currentContent st))%nat) eqn:Hsep.
        -- apply andb_true_iff in Hsep. destruct Hsep as [_ Hlen].
           assert (H0 : (0 <? List.length (currentContent st))%nat = true).
           { apply Nat.ltb_lt. apply Nat.ltb_lt in Hlen. lia. }
           rewrite H0 in Hstep.
           apply bind_returns in Hstep.
           destruct Hstep as [closed [Hclosed Hret]].
           inversion Hret; subst st1; clear Hret.
           apply pushItem_returns in Hclosed. subst closed.
           simpl. rewrite appendTo_count. simpl. lia.
        -- inversion Hstep; subst st1; clear Hstep.
           simpl. rewrite length_app. simpl.
           rewrite Nat.add_1_r. lia.
      * inversion Hstep; subst st1. rewrite Hcur. lia.
Qed.

(** C7, amended. When segmentation of a corpus completes, every item
    belongs to exactly one section. A separator line closes the item being
    buffered when that item already holds two lines or more (the header line
    counts for the first item of a section) and is buffered as a line of the
    item otherwise. The number of items of a section equals the number of
    separator lines inside it that close an item plus the number of header
    lines and ends of input that find lines of the section buffered; it is
    at most the number of header lines that name the section plus the number
    of separator lines encountered inside it. *)
Theorem segmentation_items_and_separators (text : string) (secs : Sections) :
  parseDocumentation text = Returns secs ->
  (forall it,
      In it (flat_map snd secs) ->
      exists name,
        In it (sectionItemsOf secs name)
        /\ forall name', In it (sectionItemsOf secs name') -> name' = name)
  /\ (forall st i line start,
         isHeader line = false -> isSeparator line = true ->
         currentSection st = Some start ->
         step st i line
         = if (2 <=? List.length (currentContent st))%nat
           then
             closed <- pushItem (sections st) (sectionName st)
                         (itemOf st start) ;;
             Returns {| sections := closed;
                        currentSection := Some (i + 1);
                        currentContent := [];
                        sectionName := sectionName st |}
           else
             Returns {| sections := sections st;
                        currentSection := currentSection st;
                        currentContent := currentContent st ++ [line];
                        sectionName := sectionName st |})
  /\ (forall name,
         itemCount secs name
         = (SpecWords.closingSeparators name None 0 (Js.lines text)
            + SpecWords.closingEnds name None 0 (Js.lines text))%nat)
  /\ forall name,
       (itemCount secs name
        <= SpecWords.headerLines name (Js.lines text)
           + SpecWords.separatorsInside name None (Js.lines text))%nat.
Proof.
  unfold parseDocumentation, parseLines. intros Hparse.
  apply bind_returns in Hparse. destruct Hparse as [st [Hrun Hflush]].
  assert (Hinit : wellFormed 0 initial).
  { unfold wellFormed, initial, starts. simpl.
    repeat split; try constructor. }
  pose proof (run_wellFormed _ _ _ _ Hinit Hrun) as Hwf.
  destruct (flush_wellFormed _ _ _ Hwf Hflush) as [Hkeys Hstarts].
  split; [| split; [| split]].
  - intros it Hin.
    destruct (In_flat_map_section secs it Hkeys Hin) as [name Hname].
    exists name. split; [exact Hname |].
    intros name' Hname'. eapply one_section; eassumption.
  - intros st0 i line start Hh Hs Hcur. unfold step.
    rewrite Hh, Hcur, Hs, andb_true_l. unfold Nat.ltb.
    destruct (2 <=? List.length (currentContent st0))%nat eqn:Hlen;
      [| reflexivity].
    replace (1 <=? List.length (currentContent st0))%nat with true;
      [reflexivity |].
    symmetry. apply Nat.leb_le. apply Nat.leb_le in Hlen. lia.
  - intros name.
    rewrite (run_count_exact name _ _ _ _ _ Hrun Hflush). reflexivity.
  - intros name.
    pose proof (run_count name _ _ _ _ Hrun) as Hc.
    pose proof (flush_count st secs name Hflush) as Hf.
    replace (curName initial) with (@None string) in Hc by reflexivity.
    replace (itemCount (sections initial) name) with 0%nat in Hc
      by reflexivity.
    simpl SpecWords.inSection in Hc.
    lia.
Qed.

End SegmenterCounts.

Lemma segmentation_items_and_separators_witness :
  exists secs,
    Segmenter.parseDocumentation Sample.shortItemCorpus = Returns secs
    /\ itemCount secs "sec"
       = (SpecWords.closingSeparators "sec" None 0
            (Js.lines Sample.shortItemCorpus)
          + SpecWords.closingEnds "sec" None 0
              (Js.lines Sample.shortItemCorpus))%nat
    /\ (itemCount secs "sec"
        <= SpecWords.headerLines "sec" (Js.lines Sample.shortItemCorpus)
           + SpecWords.separatorsInside "sec" None
               (Js.lines Sample.shortItemCorpus))%nat.
Proof.
  eexists. split; [vm_compute; reflexivity |].
  edestruct (segmentation_items_and_separators Sample.shortItemCorpus)
    as [_ [_ [Hexact Hbound]]]; [vm_compute; reflexivity |].
  split; [apply Hexact | apply Hbound].
Defined.

(** C7 as worded fails on a section whose second item is one line long: the
    second separator finds a single buffered line, does not close the item
    and becomes part of it. The section has two separator lines, none of
    them leading, and two items, not three. *)
Lemma short_item_swallows_separator :
  Segmenter.parseDocumentation Sample.shortItemCorpus
  = Returns
      [("sec",
        [{| content := Js.joinLines ["# sec"; "a"]; startLine := 0 |};
         {| content := Js.joinLines ["b"; "---"; "c"]; startLine := 3 |}])]
  /\ SpecWords.separatorsInside "sec" None (Js.lines Sample.shortItemCorpus)
     = 2%nat
  /\ SpecWords.leadingSeparators "sec" None true
       (Js.lines Sample.shortItemCorpus) = 0%nat
  /\ SpecWords.promisedItems "sec" (Js.lines Sample.shortItemCorpus) = 3%nat
  /\ match Segmenter.parseDocumentation Sample.shortItemCorpus with
     | Returns secs =>
         itemCount secs "sec"
         <> SpecWords.promisedItems "sec" (Js.lines Sample.shortItemCorpus)
     | Throws _ => True
     end.
Proof.
  repeat split; try reflexivity.
  vm_compute. discriminate.
Qed.

(** ** Best practices: matching a topic term with inflection *)

Section BestPracticesFacts.

Variable cfg : SEARCH_CONFIG.
Variable host : Host.











(** *** The call as it runs *)

Lemma visitOrThrow_returns (topicLower : string) (topicTerms : list string)
  (acc acc' : list (Z * BestPractices.Entry) * list string) (doc : Item) :
  BestPractices.visitOrThrow cfg host topicLower topicTerms acc doc
  = Returns acc' ->
  acc' = BestPractices.visit cfg host topicLower topicTerms acc doc.
Proof.
  unfold BestPractices.visitOrThrow, BestPractices.visit.
  destruct acc as [practices seen]. cbv zeta.
  destruct (_ =? 0)%nat; [intros H; inversion H; reflexivity |].
  destruct (_ <? _)%Z; [intros H; inversion H; reflexivity |].
  destruct (Title.isText host (BestPractices.docContent doc));
    [| discriminate].
  intros H; inversion H. reflexivity.
Qed.

Lemma call_loop (topicLower : string) (topicTerms : list string) :
  forall docs acc acc',
    foldC (BestPractices.visitOrThrow cfg host topicLower topicTerms) docs acc
    = Returns acc' ->
    acc' = fold_left (BestPractices.visit cfg host topicLower topicTerms)
             docs acc.
Proof.
  induction docs as [| doc docs IH]; cbn [foldC fold_left]; intros acc acc' H.
  - inversion H. reflexivity.
  - apply bind_returns in H. destruct H as [mid [Hdoc Hrest]].
    apply visitOrThrow_returns in Hdoc. subst mid.
    apply IH. exact Hrest.
Qed.

(** A call that returns, returns the list of [getBestPractices]. *)
Lemma call_returns (sections : Sections) (topic : string)
  (out : list BestPractices.Entry) :
  BestPractices.call cfg host sections topic = Returns out ->
  out = BestPractices.getBestPractices cfg host sections topic.
Proof.
  unfold BestPractices.call, BestPractices.getBestPractices. cbv zeta.
  intros H. apply bind_returns in H. destruct H as [acc [Hloop Hret]].
  apply call_loop in Hloop. subst acc. inversion Hret. reflexivity.
Qed.

(** A call returns when every document of the candidate pool has a string
    for a title. *)
Lemma call_returns_on_text_titles (sections : Sections) (topic : string) :
  Forall (fun doc => Title.isText host (content doc) = true)
    (BestPractices.allSections sections) ->
  BestPractices.call cfg host sections topic
  = Returns (BestPractices.getBestPractices cfg host sections topic).
Proof.
  intros Htext.
  unfold BestPractices.call, BestPractices.getBestPractices. cbv zeta.
  set (tl := Js.toLowerCase topic).
  set (terms := Js.wordsLongerThan 2 tl).
  assert (Hloop : forall docs acc,
             Forall (fun doc => Title.isText host (content doc) = true) docs ->
             foldC (BestPractices.visitOrThrow cfg host tl terms) docs acc
             = Returns (fold_left (BestPractices.visit cfg host tl terms)
                          docs acc)).
  { induction docs as [| doc docs IH]; intros acc Hall;
      cbn [foldC fold_left]; [reflexivity |].
    inversion Hall as [| ? ? Hdoc Hrest]; subst.
    assert (Hstep : BestPractices.visitOrThrow cfg host tl terms acc doc
                    = Returns (BestPractices.visit cfg host tl terms acc doc)).
    { unfold BestPractices.visitOrThrow, BestPractices.visit.
      destruct acc as [practices seen]. cbv zeta.
      destruct (_ =? 0)%nat; [reflexivity |].
      destruct (_ <? _)%Z; [reflexivity |].
      unfold BestPractices.docContent. rewrite Hdoc. reflexivity. }
    rewrite Hstep. cbn [bind]. apply IH. exact Hrest. }
  rewrite (Hloop _ _ Htext). reflexivity.
Qed.

(** The only exception is the [TypeError] on a title that is not a
    string. *)
Lemma call_throws (sections : Sections) (topic : string) (e : JsError) :
  BestPractices.call cfg host sections topic = Throws e ->
  e = TypeError
  /\ exists doc,
       In doc (BestPractices.allSections sections)
       /\ Title.isText host (content doc) = false.
Proof.
  unfold BestPractices.call. cbv zeta.
  set (tl := Js.toLowerCase topic).
  set (terms := Js.wordsLongerThan 2 tl).
  assert (Hloop : forall docs acc,
             foldC (BestPractices.visitOrThrow cfg host tl terms) docs acc
             = Throws e ->
             e = TypeError
             /\ exists doc, In doc docs
                            /\ Title.isText host (content doc) = false).
  { induction docs as [| doc docs IH]; intros acc H; cbn [foldC] in H;
      [discriminate |].
    destruct (BestPractices.visitOrThrow cfg host tl terms acc doc)
      as [mid | e'] eqn:Hdoc; cbn [bind] in H.
    - destruct (IH mid H) as [He [d [Hd Ht]]].
      split; [exact He |]. exists d. split; [right; exact Hd | exact Ht].
    - inversion H; subst e'. clear H.
      unfold BestPractices.visitOrThrow in Hdoc. cbv zeta in Hdoc.
      destruct (_ =? 0)%nat; [discriminate |].
      destruct (_ <? _)%Z; [discriminate |].
      unfold BestPractices.docContent in Hdoc.
      destruct (Title.isText host (content doc)) eqn:Ht; [discriminate |].
      inversion Hdoc. split; [reflexivity |].
      exists doc. split; [left; reflexivity | exact Ht]. }
  intros H.
  destruct (foldC (BestPractices.visitOrThrow cfg host tl terms)
              (BestPractices.allSections sections) ([], [])) as [acc | e']
    eqn:Hrun; cbn [bind] in H; [discriminate |].
  inversion H; subst e'. apply (Hloop _ _ Hrun).
Qed.




End BestPracticesFacts.



(** The example of the specification: the article that holds only the
    singular form is returned for the singular and for the plural topic. *)
Example practice_found_by_both_forms :
  map BestPractices.content
    (BestPractices.getBestPractices Sample.config Sample.host
       (Sample.sectionsOf Sample.practiceCorpus) "component")
  = ["Best practice for component architecture"]
  /\ map BestPractices.content
       (BestPractices.getBestPractices Sample.config Sample.host
          (Sample.sectionsOf Sample.practiceCorpus) "components")
     = ["Best practice for component architecture"].
Proof.
  split; vm_compute; reflexivity.
Qed.

(** A record whose name is a number, in a guide section: a topic that the
    record matches makes the call throw, a topic that it does not match
    leaves its title alone. *)
Example call_throws_on_number_name :
  BestPractices.call Sample.config Sample.numberNames
    [("guides", [Sample.numberRecord])] "attributes" = Throws TypeError
  /\ BestPractices.call Sample.config Sample.numberNames
       [("guides", [Sample.numberRecord])] "zzz" = Returns [].
Proof. split; vm_compute; reflexivity. Qed.

(** ** The deprecation registry *)

Section DeprecationFacts.

Import Deprecation.

Lemma toLowerCase_isEmpty (n : string) :
  Js.isEmpty (Js.toLowerCase n) = Js.isEmpty n.
Proof. destruct n; reflexivity. Qed.

Lemma isEmpty_false (n : string) : n <> EmptyString -> Js.isEmpty n = false.
Proof. destruct n; [intros H; contradiction H; reflexivity | reflexivity]. Qed.

Lemma get_set_same (t : Table) (k : string) (v : Info) :
  get (set t k v) k = Some v.
Proof.
  induction t as [| [k0 w] rest IH]; simpl.
  - rewrite String.eqb_refl. reflexivity.
  - destruct (String.eqb k0 k) eqn:Hk; simpl; rewrite Hk; [reflexivity | exact IH].
Qed.

Lemma get_set_other (t : Table) (k k' : string) (v : Info) :
  k <> k' -> get (set t k v) k' = get t k'.
Proof.
  intros Hne. apply String.eqb_neq in Hne.
  induction t as [| [k0 w] rest IH]; simpl.
  - rewrite Hne. reflexivity.
  - destruct (String.eqb k0 k) eqn:Hk; simpl.
    + apply String.eqb_eq in Hk. subst k0. rewrite Hne. reflexivity.
    + destruct (String.eqb k0 k'); [reflexivity | exact IH].
Qed.

(** C9, amended. Lookups depend on the queried name only through its
    lower-case form. An entry of the content-derived tier is returned
    whatever the seeded tier holds for the name, and the seeded tier answers
    when the content-derived tier has no entry. After a record is
    registered under a name that is not empty, looking that name up in any
    letter case returns the record. *)
Theorem deprecation_lookup (m : Manager) :
  (forall n1 n2,
      Js.toLowerCase n1 = Js.toLowerCase n2 ->
      isDeprecated m n1 = isDeprecated m n2
      /\ getDeprecationInfo m n1 = getDeprecationInfo m n2)
  /\ (forall n derived,
         n <> EmptyString ->
         get (deprecations m) (Js.toLowerCase n) = Some derived ->
         getDeprecationInfo m n = Some derived /\ isDeprecated m n = true)
  /\ (forall n,
         n <> EmptyString ->
         get (deprecations m) (Js.toLowerCase n) = None ->
         getDeprecationInfo m n = get (knownDeprecations m) (Js.toLowerCase n))
  /\ (forall n n' record,
         n <> EmptyString ->
         Js.toLowerCase n' = Js.toLowerCase n ->
         getDeprecationInfo (registerDeprecation m n (Some record)) n'
         = Some record
         /\ isDeprecated (registerDeprecation m n (Some record)) n' = true).
Proof.
  split; [| split; [| split]].
  - intros n1 n2 Heq. unfold isDeprecated, getDeprecationInfo.
    rewrite <- (toLowerCase_isEmpty n1), <- (toLowerCase_isEmpty n2), Heq.
    split; reflexivity.
  - intros n derived Hne Hget. unfold isDeprecated, getDeprecationInfo, has.
    rewrite (isEmpty_false n Hne), Hget. split; reflexivity.
  - intros n Hne Hget. unfold getDeprecationInfo.
    rewrite (isEmpty_false n Hne), Hget. reflexivity.
  - intros n n' record Hne Heq.
    assert (Hne' : Js.isEmpty n' = false).
    { rewrite <- toLowerCase_isEmpty, Heq, toLowerCase_isEmpty.
      apply isEmpty_false. exact Hne. }
    unfold isDeprecated, getDeprecationInfo, registerDeprecation, has.
    rewrite (isEmpty_false n Hne), Hne'. simpl.
    rewrite Heq, get_set_same. split; reflexivity.
Qed.

End DeprecationFacts.

Lemma deprecation_lookup_witness :
  Deprecation.getDeprecationInfo
    (Deprecation.registerDeprecation Deprecation.create "ArrayProxy"
       (Some Sample.customInfo)) "ARRAYPROXY"
  = Some Sample.customInfo
  /\ Deprecation.isDeprecated
       (Deprecation.registerDeprecation Deprecation.create "ArrayProxy"
          (Some Sample.customInfo)) "ARRAYPROXY" = true.
Proof.
  destruct (deprecation_lookup Deprecation.create) as [_ [_ [_ Hreg]]].
  apply (Hreg "ArrayProxy" "ARRAYPROXY" Sample.customInfo);
    [discriminate | reflexivity].
Defined.

(** C9 as worded fails for the empty name: registering under it is ignored
    and looking it up finds nothing. *)
Lemma empty_name_is_not_registered :
  Deprecation.registerDeprecation Deprecation.create EmptyString
    (Some Sample.customInfo) = Deprecation.create
  /\ Deprecation.getDeprecationInfo
       (Deprecation.registerDeprecation Deprecation.create EmptyString
          (Some Sample.customInfo)) EmptyString = None
  /\ Deprecation.getDeprecationInfo
       (Deprecation.registerDeprecation Deprecation.create EmptyString
          (Some Sample.customInfo)) EmptyString <> Some Sample.customInfo.
Proof.
  repeat split; try reflexivity. discriminate.
Qed.

(** ** Occurrences of one string in another *)

Section OccurrenceFacts.

Lemma append_assoc3 (a b c : string) :
  ((a ++ b) ++ c)%string = (a ++ b ++ c)%string.
Proof. induction a as [| ch a IH]; simpl; [reflexivity | rewrite IH; reflexivity]. Qed.

Lemma append_empty_r (a : string) : (a ++ "")%string = a.
Proof. induction a as [| ch a IH]; simpl; [reflexivity | rewrite IH; reflexivity]. Qed.

Lemma prefix_split (x s : string) :
  prefix x s = true <-> exists b, s = (x ++ b)%string.
Proof.
  revert s. induction x as [| c x IH]; intros s.
  - split; [intros _; exists s; reflexivity |].
    intros _. destruct s; reflexivity.
  - destruct s as [| d s]; simpl;
      [split; [discriminate | intros [b Hb]; discriminate] |].
    destruct (ascii_dec c d) as [Heq | Hne].
    + subst d. rewrite IH. split; intros [b Hb]; exists b.
      * rewrite Hb. reflexivity.
      * inversion Hb. reflexivity.
    + split; [discriminate |]. intros [b Hb]. simpl in Hb. congruence.
Qed.

Lemma includes_occurs (x s : string) :
  Js.includes x s = true <-> Js.occursIn x s.
Proof.
  unfold Js.includes, Js.occursIn. split.
  - revert x. induction s as [| c s IH]; intros x; cbn [index].
    + destruct x; [| intros H; discriminate H].
      intros _. exists EmptyString, EmptyString. reflexivity.
    + destruct (prefix x (String c s)) eqn:Hp.
      * intros _. apply prefix_split in Hp. destruct Hp as [b Hb].
        exists EmptyString, b. exact Hb.
      * destruct (index 0 x s) as [n |] eqn:Hi; [| intros H; discriminate H].
        intros _. destruct (IH x) as [a [b Hab]]; [rewrite Hi; reflexivity |].
        exists (String c a), b. simpl. rewrite Hab. reflexivity.
  - intros [a [b Hab]]. subst s.
    induction a as [| c a IH].
    + assert (Hp : prefix x (x ++ b) = true)
        by (apply prefix_split; exists b; reflexivity).
      change (EmptyString ++ x ++ b)%string with (x ++ b)%string.
      destruct (x ++ b)%string as [| d r] eqn:Hxb; cbn [index].
      * destruct x; [reflexivity | discriminate Hxb].
      * rewrite Hp. reflexivity.
    + change (String c a ++ x ++ b)%string with (String c (a ++ x ++ b)).
      cbn [index].
      destruct (prefix x (String c (a ++ x ++ b))); [reflexivity |].
      destruct (index 0 x (a ++ x ++ b)); [reflexivity | discriminate IH].
Qed.

Lemma occursIn_trans (x y s : string) :
  Js.occursIn x y -> Js.occursIn y s -> Js.occursIn x s.
Proof.
  intros [a [b Hy]] [a' [b' Hs]]. subst y s.
  exists (a' ++ a)%string, (b ++ b')%string.
  rewrite !append_assoc3. reflexivity.
Qed.

(** The pieces of a split occur in the string that was split, the first of
    them at its start. *)
Lemma splitOn_pieces (sep : ascii -> bool) (s : string) :
  (exists w ws b, Js.splitOn sep s = w :: ws /\ s = (w ++ b)%string)
  /\ forall t, In t (Js.splitOn sep s) -> Js.occursIn t s.
Proof.
  induction s as [| c s [[w [ws [b [Hsplit Hb]]]] IHall]]; simpl.
  - split.
    + exists EmptyString, [], EmptyString. split; reflexivity.
    + intros t [Ht | []]. subst t. exists EmptyString, EmptyString. reflexivity.
  - destruct (sep c).
    + split.
      * exists EmptyString, (Js.splitOn sep s), (String c s).
        split; reflexivity.
      * intros t [Ht | Ht].
        -- subst t. exists EmptyString, (String c s). reflexivity.
        -- destruct (IHall t Ht) as [a [b' Hab]].
           exists (String c a), b'. simpl. rewrite Hab. reflexivity.
    + rewrite Hsplit. split.
      * exists (String c w), ws, b. split; [reflexivity |].
        simpl. rewrite Hb. reflexivity.
      * intros t [Ht | Ht].
        -- subst t. exists EmptyString, b. simpl. rewrite Hb. reflexivity.
        -- assert (Hin : In t (Js.splitOn sep s))
             by (rewrite Hsplit; right; exact Ht).
           destruct (IHall t Hin) as [a [b' Hab]].
           exists (String c a), b'. simpl. rewrite Hab. reflexivity.
Qed.

Lemma word_occurs (n : nat) (s t : string) :
  In t (Js.wordsLongerThan n s) -> Js.occursIn t s.
Proof.
  unfold Js.wordsLongerThan. intros Hin. apply filter_In in Hin.
  destruct Hin as [Hin _]. apply (proj2 (splitOn_pieces Js.isSpace s)).
  exact Hin.
Qed.

(** A plain pattern that occurs is counted at least once. *)
Lemma countPlain_positive (p s : string) :
  Js.includes p s = true -> (0 < Regex.countPlain p s 0)%nat.
Proof.
  unfold Js.includes.
  induction s as [| c s IH]; cbn [index Regex.countPlain].
  - destruct p; [simpl; lia | intros H; discriminate H].
  - destruct (prefix p (String c s)); [lia |].
    destruct (index 0 p s); [| intros H; discriminate H].
    intros _. apply IH. reflexivity.
Qed.

End OccurrenceFacts.

(** ** Ranking: an exact phrase against scattered words *)

Section RankingFacts.

Variable cfg : SEARCH_CONFIG.
Variable host : Host.

Lemma scoreTerms_all_found (content titleLower : string)
  (terms : list string) :
  Forall (termFound host content) terms ->
  forall acc,
    exists s,
      foldC (scoreTerm cfg host content titleLower) terms acc = Returns s
      /\ Scoring.score s
         = (Scoring.score acc + termScore cfg host content titleLower terms)%Z
      /\ List.length (Scoring.matchedTerms s)
         = (List.length (Scoring.matchedTerms acc) + List.length terms)%nat
      /\ Scoring.termPositions s
         = Scoring.termPositions acc ++ firstPositions content terms.
Proof.
  induction 1 as [| t terms [n [Hcount Hpos]] _ IH]; intros acc; simpl.
  - exists acc. repeat split; try lia. rewrite app_nil_r. reflexivity.
  - unfold scoreTerm at 1. rewrite Hcount. simpl.
    apply Nat.ltb_lt in Hpos. rewrite Hpos. cbn [bind].
    match goal with
    | |- exists s, foldC _ _ ?acc' = _ /\ _ =>
        destruct (IH acc') as [s [Hrun [Hscore [Hlen Htp]]]]
    end.
    exists s. split; [exact Hrun |].
    simpl in Hscore, Hlen, Htp.
    split; [| split].
    + rewrite Hscore. unfold termPoints. rewrite Hcount, Hpos. lia.
    + rewrite Hlen, length_app. simpl. lia.
    + rewrite Htp.
      destruct (Js.indexOf t content =? -1)%Z; simpl;
        [reflexivity | rewrite <- app_assoc; reflexivity].
Qed.

(** An item that holds the whole query and each of its terms. *)
Lemma scoreItem_phrase (queryLower : string) (terms : list string)
  (it : Item) :
  terms <> [] ->
  Js.includes queryLower (Js.toLowerCase (content it)) = true ->
  Forall (termFound host (Js.toLowerCase (content it))) terms ->
  exists s,
    scoreItem cfg host queryLower terms it = Returns s
    /\ Scoring.score s
       = (EXACT_PHRASE_BONUS cfg + itemTermScore cfg host terms it)%Z.
Proof.
  intros Hne Hphrase Hall. unfold scoreItem.
  destruct (scoreTerms_all_found _
              (Js.toLowerCase (Title.extractTitle host (content it)))
              _ Hall
              (scorePhrase cfg queryLower (Js.toLowerCase (content it))))
    as [s [Hrun [Hscore [Hlen _]]]].
  rewrite Hrun. simpl.
  exists (scoreBonuses cfg terms s). split; [reflexivity |].
  unfold scorePhrase in Hscore, Hlen. rewrite Hphrase in Hscore, Hlen.
  simpl in Hscore, Hlen.
  rewrite scoreBonuses_skipped by lia.
  rewrite Hscore. reflexivity.
Qed.

(** Plain terms of a query that occurs in the content occur there as
    well. *)
Lemma plain_terms_found (query content : string) :
  Js.includes query content = true ->
  Forall (fun t => Regex.isPlain t = true) (Js.wordsLongerThan 0 query) ->
  Forall (termFound host content) (Js.wordsLongerThan 0 query).
Proof.
  intros Hphrase Hplain. rewrite Forall_forall in Hplain |- *.
  intros t Hin. unfold termFound, Regex.matchCount.
  rewrite (Hplain t Hin).
  exists (Regex.countPlain t content 0). split; [reflexivity |].
  apply countPlain_positive. apply includes_occurs.
  apply occursIn_trans with (y := query).
  - eapply word_occurs. exact Hin.
  - apply includes_occurs. exact Hphrase.
Qed.

(** Whatever the query of plain words and whatever the item that holds it
    verbatim: scoring records one entry more than there are terms, and the
    score is the exact-phrase bonus plus what the terms add, without the
    all-terms bonus. *)
Lemma exact_phrase_never_earns_all_terms_bonus (query : string) (it : Item) :
  let queryLower := Js.toLowerCase query in
  let terms := Js.wordsLongerThan 0 queryLower in
  terms <> [] ->
  Forall (fun t => Regex.isPlain t = true) terms ->
  Js.includes queryLower (Js.toLowerCase (content it)) = true ->
  exists s,
    scoreItem cfg host queryLower terms it = Returns s
    /\ Scoring.score s
       = (EXACT_PHRASE_BONUS cfg + itemTermScore cfg host terms it)%Z.
Proof.
  intros queryLower terms Hne Hplain Hphrase.
  apply scoreItem_phrase; [exact Hne | exact Hphrase |].
  apply plain_terms_found; assumption.
Qed.

(** An item that holds each term of the query, not the whole query, with
    first positions at least [PROXIMITY_THRESHOLD] apart. *)
Lemma scoreItem_scattered (queryLower : string) (terms : list string)
  (it : Item) :
  Js.includes queryLower (Js.toLowerCase (content it)) = false ->
  Forall (termFound host (Js.toLowerCase (content it))) terms ->
  (PROXIMITY_THRESHOLD cfg
   <= spreadOf (firstPositions (Js.toLowerCase (content it)) terms))%Z ->
  exists s,
    scoreItem cfg host queryLower terms it = Returns s
    /\ Scoring.score s = (ALL_TERMS_BONUS cfg + itemTermScore cfg host terms it)%Z.
Proof.
  intros Hphrase Hall Hspread. unfold scoreItem.
  destruct (scoreTerms_all_found _
              (Js.toLowerCase (Title.extractTitle host (content it)))
              _ Hall
              (scorePhrase cfg queryLower (Js.toLowerCase (content it))))
    as [s [Hrun [Hscore [Hlen Htp]]]].
  rewrite Hrun. simpl.
  exists (scoreBonuses cfg terms s). split; [reflexivity |].
  unfold scorePhrase in Hscore, Hlen, Htp.
  rewrite Hphrase in Hscore, Hlen, Htp. simpl in Hscore, Hlen, Htp.
  unfold scoreBonuses. rewrite Hlen, Nat.eqb_refl.
  destruct (1 <? List.length (Scoring.termPositions s))%nat; simpl.
  - rewrite Hscore, Htp. unfold itemTermScore.
    unfold spreadOf in Hspread. unfold proximityBonus.
    destruct (Js.sort Excerpt.byPos
                (firstPositions (Js.toLowerCase (content it)) terms))
      as [| h rest]; [lia |].
    replace (lastPos (pos h) rest - pos h <? PROXIMITY_THRESHOLD cfg)%Z
      with false by (symmetry; apply Z.ltb_ge; exact Hspread).
    lia.
  - rewrite Hscore. unfold itemTermScore. lia.
Qed.

(** Entries of the returned list with different scores: the higher score
    comes first. *)
Lemma higher_score_first (out : list SearchResult) (a b : SearchResult)
  (i j : nat) :
  StronglySorted scoreGe out ->
  nth_error out i = Some a -> nth_error out j = Some b ->
  (score b < score a)%Z -> (i < j)%nat.
Proof.
  intros Hsorted Ha Hb Hlt.
  destruct (Nat.lt_trichotomy i j) as [Hij | [Hij | Hij]]; [exact Hij | |].
  - subst j. rewrite Ha in Hb. inversion Hb; subst. lia.
  - pose proof (StronglySorted_nth scoreGe out Hsorted j i b a Hij Hb Ha) as H.
    unfold scoreGe in H. lia.
Qed.

(** C4, amended. Take a query of two terms or more, an item that holds the
    whole lower-case query and each of its terms, and an item that holds each
    term but not the whole query, with first occurrences at least the
    proximity threshold apart. The score of the first is at least the
    exact-phrase bonus plus what its terms add (occurrences and title hits),
    the score of the second is the all-terms bonus plus what its terms add.
    Whenever the first sum is the larger one, the first item stands in
    front of the second in every list [search] returns that holds both. *)
Theorem adjacent_above_scattered (sections : Sections)
  (query category : string) (limit : Z) (out : list SearchResult)
  (adjacent scattered : Item) :
  let queryLower := Js.toLowerCase query in
  let terms := Js.wordsLongerThan 0 queryLower in
  (2 <= List.length terms)%nat ->
  search cfg host sections query category limit = Returns out ->
  Js.includes queryLower (Js.toLowerCase (content adjacent)) = true ->
  Forall (termFound host (Js.toLowerCase (content adjacent))) terms ->
  Js.includes queryLower (Js.toLowerCase (content scattered)) = false ->
  Forall (termFound host (Js.toLowerCase (content scattered))) terms ->
  (PROXIMITY_THRESHOLD cfg
   <= spreadOf (firstPositions (Js.toLowerCase (content scattered)) terms))%Z ->
  (ALL_TERMS_BONUS cfg + itemTermScore cfg host terms scattered
   < EXACT_PHRASE_BONUS cfg + itemTermScore cfg host terms adjacent)%Z ->
  exists sa sb,
    scoreItem cfg host queryLower terms adjacent = Returns sa
    /\ scoreItem cfg host queryLower terms scattered = Returns sb
    /\ (EXACT_PHRASE_BONUS cfg + itemTermScore cfg host terms adjacent
        <= Scoring.score sa)%Z
    /\ Scoring.score sb
       = (ALL_TERMS_BONUS cfg + itemTermScore cfg host terms scattered)%Z
    /\ forall na nb i j,
         nth_error out i = Some (resultOf host na terms adjacent sa) ->
         nth_error out j = Some (resultOf host nb terms scattered sb) ->
         (i < j)%nat.
Proof.
  intros queryLower terms Hmulti Hsearch HphraseA HallA HphraseB HallB
    Hspread Hsum.
  assert (Hne : terms <> []).
  { intros Hnil. rewrite Hnil in Hmulti. simpl in Hmulti. lia. }
  destruct (scoreItem_phrase queryLower terms adjacent Hne HphraseA HallA)
    as [sa [Hsa Hscorea]].
  destruct (scoreItem_scattered queryLower terms scattered HphraseB HallB
              Hspread) as [sb [Hsb Hscoreb]].
  exists sa, sb.
  split; [exact Hsa |]. split; [exact Hsb |].
  split; [rewrite Hscorea; lia |]. split; [exact Hscoreb |].
  intros na nb i j Hi Hj.
  apply search_returns in Hsearch.
  destruct Hsearch as [results [_ Hout]].
  eapply higher_score_first; [| exact Hi | exact Hj |].
  - rewrite Hout. apply sorted_slice_by_score.
  - simpl. lia.
Qed.

End RankingFacts.

Lemma adjacent_above_scattered_witness :
  exists out sa sb,
    search Sample.config Sample.host (Sample.ranking 1) "foo bar" "all" 5
    = Returns out
    /\ scoreItem Sample.config Sample.host "foo bar" ["foo"; "bar"]
         Sample.adjacent = Returns sa
    /\ scoreItem Sample.config Sample.host "foo bar" ["foo"; "bar"]
         (Sample.scattered 1) = Returns sb
    /\ forall na nb i j,
         nth_error out i
         = Some (resultOf Sample.host na ["foo"; "bar"] Sample.adjacent sa) ->
         nth_error out j
         = Some (resultOf Sample.host nb ["foo"; "bar"]
                   (Sample.scattered 1) sb) ->
         (i < j)%nat.
Proof.
  assert (Hsearch :
    exists out,
      search Sample.config Sample.host (Sample.ranking 1) "foo bar" "all" 5
      = Returns out) by (eexists; vm_compute; reflexivity).
  destruct Hsearch as [out Hsearch].
  destruct (adjacent_above_scattered Sample.config Sample.host
              (Sample.ranking 1) "foo bar" "all" 5 out
              Sample.adjacent (Sample.scattered 1))
    as [sa [sb [Hsa [Hsb [_ [_ Horder]]]]]].
  - apply Nat.leb_le. vm_compute. reflexivity.
  - exact Hsearch.
  - vm_compute. reflexivity.
  - repeat constructor; eexists; (split; [vm_compute; reflexivity | lia]).
  - vm_compute. reflexivity.
  - repeat constructor; eexists; (split; [vm_compute; reflexivity | lia]).
  - apply Z.leb_le. vm_compute. reflexivity.
  - apply Z.ltb_lt. vm_compute. reflexivity.
  - exists out, sa, sb.
    split; [exact Hsearch |]. split; [exact Hsa |]. split; [exact Hsb |].
    exact Horder.
Defined.

(** C4 as worded fails: with nine occurrences of [foo] the scattered item
    collects more from its occurrences than the adjacent item gains from the
    exact phrase, and [search] returns it first although it was scanned
    second. *)
Lemma scattered_item_outranks_adjacent :
  Js.includes "foo bar" (Js.toLowerCase (content Sample.adjacent)) = true
  /\ Js.includes "foo bar" (Js.toLowerCase (content (Sample.scattered 9)))
     = false
  /\ Regex.matchCount Sample.host "foo"
       (Js.toLowerCase (content (Sample.scattered 9))) = Returns 9%nat
  /\ Regex.matchCount Sample.host "bar"
       (Js.toLowerCase (content (Sample.scattered 9))) = Returns 1%nat
  /\ spreadOf
       (firstPositions (Js.toLowerCase (content (Sample.scattered 9)))
          ["foo"; "bar"]) = 537%Z
  /\ PROXIMITY_THRESHOLD Sample.config = 500%Z
  /\ match search Sample.config Sample.host (Sample.ranking 9)
             "foo bar" "all" 5 with
     | Returns out => map (fun r => (title r, score r)) out
     | Throws _ => []
     end = [("Scattered", 70%Z); ("Adjacent", 60%Z)].
Proof.
  repeat split; vm_compute; reflexivity.
Qed.

(** ** The repository's unit tests, replayed on the embedding *)

Example test_parse_sections :
  match Segmenter.parseDocumentation Sample.twoSections with
  | Returns secs =>
      (itemCount secs "api-docs", itemCount secs "community-bloggers")
  | Throws _ => (0, 0)%nat
  end = (2, 1)%nat.
Proof. vm_compute. reflexivity. Qed.

Example test_parse_multiple_items :
  match Segmenter.parseDocumentation Sample.threeItems with
  | Returns secs => itemCount secs "api-docs"
  | Throws _ => 0%nat
  end = 3%nat.
Proof. vm_compute. reflexivity. Qed.

Example test_best_cluster :
  Excerpt.bestStart Sample.clusterHits = 1020%Z
  /\ Js.includes "Modern"
       (Excerpt.extractExcerpt Sample.clusterContent
          ["arrayproxy"; "modern"; "tracked"] Sample.clusterHits) = true
  /\ Js.includes "tracked"
       (Excerpt.extractExcerpt Sample.clusterContent
          ["arrayproxy"; "modern"; "tracked"] Sample.clusterHits) = true.
Proof. repeat split; vm_compute; reflexivity. Qed.

Example test_missing_positions :
  Excerpt.extractExcerpt "Some content without specific positions"
    ["content"] []
  = "Some content without specific positions".
Proof. vm_compute. reflexivity. Qed.

Example test_known_deprecations :
  Deprecation.isDeprecated Deprecation.create "ArrayProxy" = true
  /\ Deprecation.isDeprecated Deprecation.create "arrayproxy" = true
  /\ Deprecation.isDeprecated Deprecation.create "PromiseProxyMixin" = true
  /\ Deprecation.isDeprecated Deprecation.create "Component" = false
  /\ Deprecation.getDeprecationInfo Deprecation.create "UnknownAPI" = None
  /\ Deprecation.getDeprecationInfo Deprecation.create "ArrayProxy"
     = Deprecation.getDeprecationInfo Deprecation.create "ARRAYPROXY".
Proof. repeat split; reflexivity. Qed.

(** ** When the operations return *)

Section Returning.

Variable cfg : SEARCH_CONFIG.
Variable host : Host.

Lemma foldC_returns {A S : Type} (body : S -> A -> Completion S)
  (xs : list A) :
  (forall acc x, In x xs -> exists acc', body acc x = Returns acc') ->
  forall acc, exists r, foldC body xs acc = Returns r.
Proof.
  induction xs as [| x xs IH]; intros Hbody acc; simpl.
  - exists acc. reflexivity.
  - destruct (Hbody acc x (or_introl eq_refl)) as [acc' Hacc'].
    rewrite Hacc'. simpl. apply IH.
    intros a y Hy. apply Hbody. right. exact Hy.
Qed.

(** An item whose title is found in its text has a string for a title,
    whatever the host makes of its records. *)
Lemma textual_isText (text : string) :
  Title.textual text = true -> Title.isText host text = true.
Proof.
  unfold Title.textual, Title.isText. intros Htext.
  destruct (if prefix "---" text then frontmatterTitle host text else None);
    [reflexivity |].
  destruct (Title.firstHeader (Js.lines text)); [reflexivity |].
  apply negb_true_iff in Htext. rewrite Htext. reflexivity.
Qed.

(** X5. A query whose terms are all plain text is answered with a list:
    [search] returns, whatever the category and the limit, on a
    documentation whose scanned items all have a string for a title. A
    record whose name is not a string is the one thing that is excluded:
    there [title.toLowerCase()] throws. *)
Lemma search_returns_on_plain_terms (sections : Sections)
  (query category : string) (limit : Z) :
  Forall (fun t => Regex.isPlain t = true)
    (Js.wordsLongerThan 0 (Js.toLowerCase query)) ->
  Forall (fun it => Title.isText host (content it) = true)
    (flat_map (sectionItemsOf sections)
       (sectionsToSearch sections category)) ->
  exists out, search cfg host sections query category limit = Returns out.
Proof.
  intros Hplain Htext. unfold search, scan.
  set (q := Js.toLowerCase query) in *.
  set (terms := Js.wordsLongerThan 0 q) in *.
  rewrite Forall_forall in Htext.
  destruct (foldC_returns (searchSection cfg host sections q terms)
              (sectionsToSearch sections category)) with (acc := @nil SearchResult)
    as [results Hresults].
  - intros acc name Hname. unfold searchSection. apply foldC_returns.
    intros rs it Hit. unfold searchItem, scoreItem.
    rewrite (Htext it) by (apply in_flat_map; exists name; split; assumption).
    destruct (foldC_returns
                (scoreTerm cfg host (Js.toLowerCase (content it))
                   (Js.toLowerCase (Title.extractTitle host (content it))))
                terms) with
      (acc := scorePhrase cfg q (Js.toLowerCase (content it)))
      as [s Hs].
    + intros a t Ht. unfold scoreTerm, Regex.matchCount.
      rewrite Forall_forall in Hplain. rewrite (Hplain t Ht). simpl.
      destruct (0 <? _)%nat; eexists; reflexivity.
    + rewrite Hs. simpl. eexists. reflexivity.
  - rewrite Hresults. simpl. eexists. reflexivity.
Qed.

End Returning.

(** A record whose name is a number: the title is that number, and
    [search] throws on a query of plain words. *)
Example search_throws_on_number_name :
  Js.includes Title.dataKey (content Sample.numberRecord) = true
  /\ Title.isText Sample.numberNames (content Sample.numberRecord) = false
  /\ search Sample.config Sample.numberNames
       [("api-docs", [Sample.numberRecord])] "zzz" "all" 5
     = Throws TypeError.
Proof. repeat split; vm_compute; reflexivity. Qed.

Section SegmenterReturns.

Import Segmenter.

Lemma pushItem_plain (secs : Sections) (n : string) (it : Item) :
  n <> "constructor" -> pushItem secs n it = Returns (appendTo secs n it).
Proof.
  intros Hn. unfold pushItem. apply String.eqb_neq in Hn. rewrite Hn.
  reflexivity.
Qed.

Lemma flush_returns (st : State) :
  sectionName st <> "constructor" -> exists secs, flush st = Returns secs.
Proof.
  intros Hn. unfold flush.
  destruct (currentSection st); [| eexists; reflexivity].
  destruct (0 <? List.length (currentContent st))%nat;
    [| eexists; reflexivity].
  rewrite pushItem_plain by exact Hn. eexists. reflexivity.
Qed.

Lemma run_returns (ls : list string) :
  Forall plainName ls ->
  forall i st,
    sectionName st <> "constructor" ->
    exists st',
      run i ls st = Returns st' /\ sectionName st' <> "constructor".
Proof.
  induction 1 as [| line rest Hline _ IH]; intros i st Hn; simpl.
  - exists st. split; [reflexivity | exact Hn].
  - unfold step. destruct (isHeader line) eqn:Hh.
    + destruct (flush_returns st Hn) as [secs Hsecs]. rewrite Hsecs. simpl.
      apply IH. simpl. apply Hline. exact Hh.
    + destruct (currentSection st) as [c |].
      * destruct (isSeparator line && (1 <? List.length (currentContent st))%nat).
        -- destruct (0 <? List.length (currentContent st))%nat.
           ++ rewrite pushItem_plain by exact Hn. simpl. apply IH. exact Hn.
           ++ simpl. apply IH. exact Hn.
        -- simpl. apply IH. exact Hn.
      * simpl. apply IH. exact Hn.
Qed.

(** X15. Segmentation completes on every corpus without a header line that
    names a section [constructor]. *)
Lemma parseDocumentation_returns (text : string) :
  Forall plainName (Js.lines text) ->
  exists secs, parseDocumentation text = Returns secs.
Proof.
  intros Hplain. unfold parseDocumentation, parseLines.
  destruct (run_returns _ Hplain 0 initial) as [st [Hrun Hn]];
    [simpl; discriminate |].
  rewrite Hrun. simpl. apply flush_returns. exact Hn.
Qed.

(** With such a header line segmentation throws. *)
Example constructor_section_throws :
  parseDocumentation "# constructor
text" = Throws TypeError.
Proof. reflexivity. Qed.

End SegmenterReturns.

(** ** Search: the shape of the result list *)

Section SearchShape.

Variable cfg : SEARCH_CONFIG.
Variable host : Host.

Lemma slice0_length {A : Type} (l : list A) (e : Z) :
  (0 <= e)%Z -> (Z.of_nat (List.length (Js.slice0 l e)) <= e)%Z.
Proof.
  intros He. unfold Js.slice0.
  destruct (e <? 0)%Z eqn:Hneg; [apply Z.ltb_lt in Hneg; lia |].
  rewrite length_firstn. lia.
Qed.

Lemma slice0_length_exact {A : Type} (l : list A) (e : Z) :
  (0 <= e)%Z ->
  Z.of_nat (List.length (Js.slice0 l e))
  = Z.min e (Z.of_nat (List.length l)).
Proof.
  intros He. unfold Js.slice0.
  destruct (e <? 0)%Z eqn:Hneg; [apply Z.ltb_lt in Hneg; lia |].
  rewrite length_firstn. lia.
Qed.

(** Where an entry of the scan comes from: an item of a scanned section
    whose scoring returned and passed the admission test. *)
Lemma corpusOrder_In (sections : Sections) (query cat : string)
  (r : SearchResult) :
  In r (corpusOrder cfg host sections query cat) ->
  exists name it s,
    In name (sectionsToSearch sections cat)
    /\ In it (sectionItemsOf sections name)
    /\ scoreItem cfg host (Js.toLowerCase query)
         (Js.wordsLongerThan 0 (Js.toLowerCase query)) it = Returns s
    /\ admitted cfg s = true
    /\ r = resultOf host name
             (Js.wordsLongerThan 0 (Js.toLowerCase query)) it s.
Proof.
  unfold corpusOrder. intros Hin.
  apply in_flat_map in Hin. destruct Hin as [name [Hname Hin]].
  apply in_flat_map in Hin. destruct Hin as [it [Hit Hin]].
  unfold admittedFrom in Hin.
  destruct (scoreItem cfg host (Js.toLowerCase query)
              (Js.wordsLongerThan 0 (Js.toLowerCase query)) it)
    as [s | e] eqn:Hs; [| contradiction].
  destruct (admitted cfg s) eqn:Ha; [| contradiction].
  destruct Hin as [Heq | []].
  exists name, it, s. repeat split; auto.
Qed.

Lemma search_In (sections : Sections) (query cat : string) (limit : Z)
  (out : list SearchResult) (r : SearchResult) :
  search cfg host sections query cat limit = Returns out ->
  In r out -> In r (corpusOrder cfg host sections query cat).
Proof.
  intros Hsearch Hin.
  apply search_returns in Hsearch.
  destruct Hsearch as [results [Hscan ->]].
  apply slice0_In in Hin. apply sort_In in Hin.
  rewrite <- (scan_corpusOrder _ _ _ _ _ _ Hscan). exact Hin.
Qed.

(** X1. How many entries [search] returns, [results] being the admitted
    items: with a limit that is not negative, the smaller of the limit and
    their number; with a negative limit the list is cut at its end and
    loses its last [-limit] entries. *)
Theorem search_respects_limit (sections : Sections) (query cat : string)
  (limit : Z) (out : list SearchResult) :
  search cfg host sections query cat limit = Returns out ->
  exists results,
    scan cfg host sections query cat = Returns results
    /\ ((0 <= limit)%Z ->
        Z.of_nat (List.length out)
        = Z.min limit (Z.of_nat (List.length results)))
    /\ ((limit < 0)%Z ->
        Z.of_nat (List.length out)
        = Z.max (Z.of_nat (List.length results) + limit) 0).
Proof.
  intros Hsearch.
  apply search_returns in Hsearch.
  destruct Hsearch as [results [Hscan ->]].
  exists results. split; [exact Hscan |].
  pose proof (Permutation_length (sort_perm byScoreDesc results)) as Hlen.
  split; intros Hlimit.
  - rewrite slice0_length_exact by exact Hlimit. rewrite <- Hlen. reflexivity.
  - unfold Js.slice0.
    apply Z.ltb_lt in Hlimit. rewrite Hlimit. apply Z.ltb_lt in Hlimit.
    rewrite length_firstn, <- Hlen. lia.
Qed.

(** X2. The category filter decides the category label of every entry:
    under ["api"] every entry is labelled [API Documentation], under
    ["community"] [Community Articles], and under ["guides"]
    [Guides & Tutorials]. *)
Theorem search_category_filter (sections : Sections) (query cat : string)
  (limit : Z) (out : list SearchResult) (r : SearchResult) :
  search cfg host sections query cat limit = Returns out ->
  In r out ->
  (cat = "api" -> category r = "API Documentation")
  /\ (cat = "community" -> category r = "Community Articles")
  /\ (cat = "guides" -> category r = "Guides & Tutorials").
Proof.
  intros Hsearch Hin.
  apply (search_In _ _ _ _ _ _ Hsearch) in Hin.
  apply corpusOrder_In in Hin.
  destruct Hin as [name [it [s [Hname [_ [_ [_ ->]]]]]]].
  cbn [category resultOf].
  repeat split; intros ->; unfold sectionsToSearch in Hname; simpl in Hname.
  - destruct Hname as [<- | []]. reflexivity.
  - destruct Hname as [<- | []]. reflexivity.
  - apply filter_In in Hname. destruct Hname as [_ Hname].
    unfold isOneOf in Hname. simpl in Hname.
    unfold categorizeSectionName.
    rewrite !orb_false_r in Hname.
    apply negb_true_iff in Hname. apply orb_false_iff in Hname.
    destruct Hname as [H1 H2].
    rewrite H1, H2. reflexivity.
Qed.

Lemma scoreTerms_matched_bound (content titleLower : string) :
  forall terms acc s,
    foldC (scoreTerm cfg host content titleLower) terms acc = Returns s ->
    (List.length (Scoring.matchedTerms s)
     <= List.length (Scoring.matchedTerms acc) + List.length terms)%nat.
Proof.
  induction terms as [| t terms IH]; simpl; intros acc s Hrun.
  - inversion Hrun. lia.
  - apply bind_returns in Hrun. destruct Hrun as [acc' [Hterm Hrest]].
    apply IH in Hrest.
    unfold scoreTerm in Hterm.
    apply bind_returns in Hterm. destruct Hterm as [n [_ Hret]].
    destruct (0 <? n)%nat; inversion Hret; subst acc'; clear Hret.
    + cbn [Scoring.matchedTerms] in Hrest.
      rewrite length_app in Hrest. simpl in Hrest. lia.
    + lia.
Qed.

Lemma scoreBonuses_matched (terms : list string) (s : Scoring.t) :
  Scoring.matchedTerms (scoreBonuses cfg terms s) = Scoring.matchedTerms s.
Proof.
  unfold scoreBonuses.
  destruct (_ =? _)%nat; [| reflexivity].
  destruct (_ <? _)%nat; reflexivity.
Qed.

(** X3. Every entry reports the number of query terms as [totalTerms], and
    its [matchedTerms] exceeds that number by one at most: the one entry the
    exact-phrase test adds. *)
Theorem search_match_counts (sections : Sections) (query cat : string)
  (limit : Z) (out : list SearchResult) (r : SearchResult) :
  search cfg host sections query cat limit = Returns out ->
  In r out ->
  totalTerms r
  = List.length (Js.wordsLongerThan 0 (Js.toLowerCase query))
  /\ (matchedTerms r <= totalTerms r + 1)%nat.
Proof.
  intros Hsearch Hin.
  apply (search_In _ _ _ _ _ _ Hsearch) in Hin.
  apply corpusOrder_In in Hin.
  destruct Hin as [name [it [s [_ [_ [Hscore [_ ->]]]]]]].
  cbn [totalTerms matchedTerms resultOf].
  split; [reflexivity |].
  unfold scoreItem in Hscore.
  apply bind_returns in Hscore. destruct Hscore as [s0 [Hterms Hret]].
  inversion Hret; subst s; clear Hret.
  rewrite scoreBonuses_matched.
  apply scoreTerms_matched_bound in Hterms.
  unfold scorePhrase in Hterms.
  destruct (Js.includes _ _); simpl in Hterms; lia.
Qed.

(** The score of an item under a query that has no terms. *)
Lemma scoreItem_blank (queryLower : string) (it : Item) :
  exists s,
    scoreItem cfg host queryLower [] it = Returns s
    /\ Scoring.termPositions s = []
    /\ ((Scoring.score s = EXACT_PHRASE_BONUS cfg
         /\ Scoring.matchedTerms s = [queryLower])
        \/ (Scoring.score s = ALL_TERMS_BONUS cfg
            /\ Scoring.matchedTerms s = [])).
Proof.
  unfold scoreItem, scorePhrase. cbn [foldC bind].
  destruct (Js.includes queryLower (Js.toLowerCase (content it))).
  - eexists. split; [reflexivity |]. unfold scoreBonuses. simpl.
    split; [reflexivity |]. left. split; reflexivity.
  - eexists. split; [reflexivity |]. unfold scoreBonuses. simpl.
    split; [reflexivity |]. right. split; reflexivity.
Qed.

Lemma searchSection_blank (sections : Sections) (queryLower name : string) :
  (MIN_SCORE cfg <= EXACT_PHRASE_BONUS cfg)%Z ->
  (MIN_SCORE_SINGLE_TERM cfg <= EXACT_PHRASE_BONUS cfg)%Z ->
  (MIN_SCORE cfg <= ALL_TERMS_BONUS cfg)%Z ->
  (MIN_SCORE_SINGLE_TERM cfg <= ALL_TERMS_BONUS cfg)%Z ->
  forall items acc,
    Forall (fun it => Title.isText host (content it) = true) items ->
    exists more,
      foldC (searchItem cfg host queryLower [] name) items acc
      = Returns (acc ++ more)
      /\ List.length more = List.length items.
Proof.
  intros H1 H2 H3 H4.
  induction items as [| it items IH]; intros acc Htext; cbn [foldC].
  - exists []. rewrite app_nil_r. split; reflexivity.
  - inversion Htext as [| ? ? Hit Hrest]; subst.
    unfold searchItem at 1. rewrite Hit.
    destruct (scoreItem_blank queryLower it) as [s [Hs [_ Hcase]]].
    rewrite Hs. cbn [bind].
    assert (Hadm : admitted cfg s = true).
    { unfold admitted.
      destruct Hcase as [[Hscore _] | [Hscore _]]; rewrite Hscore;
        apply andb_true_iff; split;
        try (apply Z.leb_le; assumption);
        apply orb_true_iff; right; apply Z.leb_le; assumption. }
    rewrite Hadm.
    destruct (IH (acc ++ [resultOf host name [] it s]) Hrest)
      as [more [Hrun Hlen]].
    exists (resultOf host name [] it s :: more).
    rewrite Hrun, <- app_assoc. split; [reflexivity |].
    simpl. rewrite Hlen. reflexivity.
Qed.

Lemma scan_blank (sections : Sections) (queryLower : string) :
  (MIN_SCORE cfg <= EXACT_PHRASE_BONUS cfg)%Z ->
  (MIN_SCORE_SINGLE_TERM cfg <= EXACT_PHRASE_BONUS cfg)%Z ->
  (MIN_SCORE cfg <= ALL_TERMS_BONUS cfg)%Z ->
  (MIN_SCORE_SINGLE_TERM cfg <= ALL_TERMS_BONUS cfg)%Z ->
  forall names acc,
    Forall (fun it => Title.isText host (content it) = true)
      (flat_map (sectionItemsOf sections) names) ->
    exists more,
      foldC (searchSection cfg host sections queryLower []) names acc
      = Returns (acc ++ more)
      /\ List.length more
         = List.length (flat_map (sectionItemsOf sections) names).
Proof.
  intros H1 H2 H3 H4.
  induction names as [| name names IH]; intros acc Htext;
    cbn [foldC flat_map] in *.
  - exists []. rewrite app_nil_r. split; reflexivity.
  - apply Forall_app in Htext. destruct Htext as [Hhere Hrest].
    unfold searchSection at 1.
    destruct (searchSection_blank sections queryLower name H1 H2 H3 H4
                (sectionItemsOf sections name) acc Hhere)
      as [m1 [Hrun1 Hlen1]].
    rewrite Hrun1. cbn [bind].
    destruct (IH (acc ++ m1) Hrest) as [m2 [Hrun2 Hlen2]].
    exists (m1 ++ m2). rewrite Hrun2, <- app_assoc.
    split; [reflexivity |].
    rewrite !length_app, Hlen1, Hlen2. reflexivity.
Qed.

(** X4. A query without terms (empty, or white space only) is not turned
    down: every item of the scanned sections scores the exact-phrase bonus
    or the all-terms bonus, and when both bonuses reach both floors
    [search] returns as many entries as the limit allows out of all the
    items of the scanned sections. This holds on a documentation whose
    scanned items all have a string for a title; a record whose name is
    not a string makes [title.toLowerCase()] throw. *)
Theorem blank_query_returns_every_item (sections : Sections)
  (query cat : string) (limit : Z) :
  Js.wordsLongerThan 0 (Js.toLowerCase query) = [] ->
  Forall (fun it => Title.isText host (content it) = true)
    (flat_map (sectionItemsOf sections) (sectionsToSearch sections cat)) ->
  (MIN_SCORE cfg <= EXACT_PHRASE_BONUS cfg)%Z ->
  (MIN_SCORE_SINGLE_TERM cfg <= EXACT_PHRASE_BONUS cfg)%Z ->
  (MIN_SCORE cfg <= ALL_TERMS_BONUS cfg)%Z ->
  (MIN_SCORE_SINGLE_TERM cfg <= ALL_TERMS_BONUS cfg)%Z ->
  (0 <= limit)%Z ->
  exists out,
    search cfg host sections query cat limit = Returns out
    /\ Z.of_nat (List.length out)
       = Z.min limit
           (Z.of_nat
              (List.length
                 (flat_map (sectionItemsOf sections)
                    (sectionsToSearch sections cat)))).
Proof.
  intros Hterms Htext H1 H2 H3 H4 Hlimit.
  unfold search, scan. rewrite Hterms.
  destruct (scan_blank sections (Js.toLowerCase query) H1 H2 H3 H4
              (sectionsToSearch sections cat) [] Htext)
    as [more [Hrun Hlen]].
  rewrite Hrun. cbn [bind app].
  eexists. split; [reflexivity |].
  rewrite slice0_length_exact by exact Hlimit.
  rewrite <- Hlen.
  rewrite (Permutation_length (sort_perm byScoreDesc more)).
  reflexivity.
Qed.

End SearchShape.

Lemma search_respects_limit_witness :
  exists out results,
    search Sample.config Sample.host Sample.sections "modern" "all" (-1)
    = Returns out
    /\ scan Sample.config Sample.host Sample.sections "modern" "all"
       = Returns results
    /\ List.length results = 3%nat
    /\ Z.of_nat (List.length out) = 2%Z.
Proof.
  destruct (search_respects_limit Sample.config Sample.host Sample.sections
              "modern" "all" (-1)
              (Js.slice0
                 (Js.sort byScoreDesc
                    (corpusOrder Sample.config Sample.host Sample.sections
                       "modern" "all")) (-1)))
    as [results [Hscan [_ Hcut]]]; [vm_compute; reflexivity |].
  eexists. exists results.
  split; [vm_compute; reflexivity |].
  split; [exact Hscan |].
  assert (Hthree : List.length results = 3%nat).
  { vm_compute in Hscan. inversion Hscan. reflexivity. }
  split; [exact Hthree |].
  vm_compute. reflexivity.
Defined.

Lemma search_category_filter_witness :
  exists out r,
    search Sample.config Sample.host Sample.sections "tracked state"
      "community" 5 = Returns out
    /\ In r out
    /\ category r = "Community Articles".
Proof.
  eexists. eexists.
  split; [vm_compute; reflexivity |].
  split; [left; reflexivity |].
  eapply (search_category_filter Sample.config Sample.host Sample.sections
            "tracked state" "community" 5).
  - vm_compute. reflexivity.
  - left. reflexivity.
  - reflexivity.
Defined.

Lemma search_match_counts_witness :
  exists out r,
    search Sample.config Sample.host Sample.sections "tracked state" "all" 5
    = Returns out
    /\ In r out
    /\ totalTerms r = 2%nat
    /\ (matchedTerms r <= totalTerms r + 1)%nat.
Proof.
  eexists. eexists.
  split; [vm_compute; reflexivity |].
  split; [left; reflexivity |].
  eapply (search_match_counts Sample.config Sample.host Sample.sections
            "tracked state" "all" 5).
  - vm_compute. reflexivity.
  - left. reflexivity.
Defined.

Lemma blank_query_returns_every_item_witness :
  exists out,
    search Sample.config Sample.host Sample.sections "  " "all" 5
    = Returns out
    /\ Z.of_nat (List.length out) = 3%Z.
Proof.
  apply (blank_query_returns_every_item Sample.config Sample.host
           Sample.sections "  " "all" 5);
    [reflexivity | | vm_compute; discriminate .. ].
  set (items := flat_map _ _). vm_compute in items. subst items.
  repeat (apply Forall_cons; [vm_compute; reflexivity |]). apply Forall_nil.
Defined.

(** ** Search: what the admission test counts *)

Section AdmissionCounts.

Variable cfg : SEARCH_CONFIG.
Variable host : Host.

(** After the loop over the terms [matchedTerms] holds, behind what it held
    before, the query terms that were found, in the order of the query and
    as often as the query has them. *)
Lemma scoreTerms_matched (content titleLower : string) :
  forall terms acc s,
    foldC (scoreTerm cfg host content titleLower) terms acc = Returns s ->
    exists found,
      Scoring.matchedTerms s = Scoring.matchedTerms acc ++ found
      /\ Forall (fun t => In t terms /\ termFound host content t) found
      /\ (NoDup terms -> NoDup found).
Proof.
  induction terms as [| t terms IH]; cbn [foldC]; intros acc s Hrun.
  - inversion Hrun. exists []. rewrite app_nil_r.
    split; [reflexivity |]. split; [constructor | intros _; constructor].
  - apply bind_returns in Hrun. destruct Hrun as [acc' [Hterm Hrest]].
    apply IH in Hrest. destruct Hrest as [found [Hm [Hall Hnd]]].
    assert (Hall' : Forall (fun u => In u (t :: terms)
                                     /\ termFound host content u) found).
    { eapply Forall_impl; [| exact Hall].
      intros u [Hu Hf]. split; [right; exact Hu | exact Hf]. }
    unfold scoreTerm in Hterm.
    apply bind_returns in Hterm. destruct Hterm as [n [Hcount Hret]].
    destruct (0 <? n)%nat eqn:Hpos; inversion Hret; subst acc'; clear Hret.
    + cbn [Scoring.matchedTerms] in Hm.
      exists (t :: found). rewrite Hm, <- app_assoc.
      split; [reflexivity |]. split.
      * constructor; [| exact Hall'].
        split; [left; reflexivity |].
        exists n. split; [exact Hcount | apply Nat.ltb_lt; exact Hpos].
      * intros Hnodup. inversion Hnodup as [| x l Hnotin Hrest]; subst.
        constructor; [| apply Hnd; exact Hrest].
        intros Hin. apply Hnotin.
        rewrite Forall_forall in Hall. apply (Hall t Hin).
    + exists found. split; [exact Hm |]. split; [exact Hall' |].
      intros Hnodup. inversion Hnodup; subst. apply Hnd. assumption.
Qed.

(** For a query without a repeated word the admission test is the one its
    comment announces, up to the whole-phrase entry: an entry of the result
    has a score of at least [MIN_SCORE], and its item holds the whole query,
    or two different query terms were found in it, or its score reaches
    [MIN_SCORE_SINGLE_TERM]. *)
Lemma distinct_words_meet_floors (sections : Sections)
  (query cat : string) (limit : Z) (out : list SearchResult)
  (r : SearchResult) :
  let queryLower := Js.toLowerCase query in
  let terms := Js.wordsLongerThan 0 queryLower in
  NoDup terms ->
  search cfg host sections query cat limit = Returns out ->
  In r out ->
  exists name it,
    In name (sectionsToSearch sections cat)
    /\ In it (sectionItemsOf sections name)
    /\ title r = Title.extractTitle host (content it)
    /\ (MIN_SCORE cfg <= score r)%Z
    /\ (Js.includes queryLower (Js.toLowerCase (content it)) = true
        \/ (exists a b,
              a <> b /\ In a terms /\ In b terms
              /\ termFound host (Js.toLowerCase (content it)) a
              /\ termFound host (Js.toLowerCase (content it)) b)
        \/ (MIN_SCORE_SINGLE_TERM cfg <= score r)%Z).
Proof.
  intros queryLower terms Hnodup Hsearch Hin.
  apply (search_In _ _ _ _ _ _ _ _ Hsearch) in Hin.
  apply corpusOrder_In in Hin.
  destruct Hin as [name [it [s [Hname [Hit [Hscore [Hadm ->]]]]]]].
  exists name, it. split; [exact Hname |]. split; [exact Hit |].
  split; [reflexivity |].
  cbn [score resultOf].
  unfold admitted in Hadm. apply andb_true_iff in Hadm.
  destruct Hadm as [Hmin Hor]. apply Z.leb_le in Hmin.
  split; [exact Hmin |].
  apply orb_true_iff in Hor. destruct Hor as [Htwo | Hsingle];
    [| right; right; apply Z.leb_le; exact Hsingle].
  apply Nat.leb_le in Htwo.
  unfold scoreItem in Hscore.
  apply bind_returns in Hscore. destruct Hscore as [s0 [Hterms Hret]].
  inversion Hret; subst s; clear Hret.
  rewrite scoreBonuses_matched in Htwo.
  apply scoreTerms_matched in Hterms.
  destruct Hterms as [found [Hm [Hall Hnd]]].
  fold queryLower in Hm. fold terms in Hall, Hnd.
  unfold scorePhrase in Hm.
  destruct (Js.includes queryLower (Js.toLowerCase (content it))) eqn:Hphrase;
    [left; reflexivity |].
  right. left. cbn [Scoring.matchedTerms app] in Hm.
  rewrite Hm in Htwo. specialize (Hnd Hnodup).
  destruct found as [| a [| b rest]]; cbn [List.length] in Htwo; try lia.
  exists a, b.
  inversion Hall as [| ? ? [Ha Hfa] Hall']; subst.
  inversion Hall' as [| ? ? [Hb Hfb] _]; subst.
  inversion Hnd as [| ? ? Hnotin _]; subst.
  split; [intros ->; apply Hnotin; left; reflexivity |].
  repeat split; assumption.
Qed.

(** C1, at an input where it fails. The query [tracked tracked zzz] has
    three terms, of which the item [reactivity] holds one, [tracked], once
    and not in its title; it holds neither [zzz] nor the whole query. The
    loop over the terms pushes the word that is found twice, so that
    [matchedTerms] has two entries for one term found; the score is twice
    [TERM_MATCH_WEIGHT], and the test on the number of matched terms lets
    the item in as soon as that score reaches [MIN_SCORE]. With the sample
    configuration [search] returns the item with a score of 10, below
    [MIN_SCORE_SINGLE_TERM]. *)
Theorem repeated_word_passes_two_term_test :
  Js.wordsLongerThan 0 (Js.toLowerCase "tracked tracked zzz")
  = ["tracked"; "tracked"; "zzz"]
  /\ Js.includes "tracked tracked zzz"
       (Js.toLowerCase (content Sample.reactivity)) = false
  /\ Regex.matchCount host "tracked"
       (Js.toLowerCase (content Sample.reactivity)) = Returns 1%nat
  /\ Regex.matchCount host "zzz"
       (Js.toLowerCase (content Sample.reactivity)) = Returns 0%nat
  /\ (exists s,
        scoreItem cfg host "tracked tracked zzz" ["tracked"; "tracked"; "zzz"]
          Sample.reactivity = Returns s
        /\ Scoring.matchedTerms s = ["tracked"; "tracked"]
        /\ Scoring.score s = (2 * TERM_MATCH_WEIGHT cfg)%Z
        /\ admitted cfg s = (MIN_SCORE cfg <=? 2 * TERM_MATCH_WEIGHT cfg)%Z)
  /\ match search Sample.config Sample.host [("guides", [Sample.reactivity])]
             "tracked tracked zzz" "all" 5 with
     | Returns out =>
         map (fun r => (title r, score r, matchedTerms r, totalTerms r)) out
     | Throws _ => []
     end = [("Reactivity", 10%Z, 2%nat, 3%nat)]
  /\ (10 < MIN_SCORE_SINGLE_TERM Sample.config)%Z.
Proof.
  split; [reflexivity |].
  split; [vm_compute; reflexivity |].
  split; [vm_compute; reflexivity |].
  split; [vm_compute; reflexivity |].
  split.
  - exists {| Scoring.score :=
                (0 + 0 + 1 * TERM_MATCH_WEIGHT cfg
                 + 0 + 1 * TERM_MATCH_WEIGHT cfg)%Z;
              Scoring.matchedTerms := ["tracked"; "tracked"];
              Scoring.termPositions :=
                [{| term := "tracked"; pos := 29 |};
                 {| term := "tracked"; pos := 29 |}] |}.
    split; [vm_compute; reflexivity |].
    split; [reflexivity |].
    cbn [Scoring.score]. split; [lia |].
    unfold admitted. cbn [Scoring.score Scoring.matchedTerms List.length].
    replace (0 + 0 + 1 * TERM_MATCH_WEIGHT cfg + 0 + 1 * TERM_MATCH_WEIGHT cfg)%Z
      with (2 * TERM_MATCH_WEIGHT cfg)%Z by lia.
    cbn [Nat.leb orb]. apply andb_true_r.
  - split; [vm_compute; reflexivity |]. vm_compute. reflexivity.
Qed.

End AdmissionCounts.

(** ** Best practices: what an entry holds and how the list is built *)

Lemma fold_left_invariant {A S : Type} (P : S -> Prop) (f : S -> A -> S)
  (xs : list A) :
  (forall acc x, In x xs -> P acc -> P (f acc x)) ->
  forall acc, P acc -> P (fold_left f xs acc).
Proof.
  induction xs as [| x xs IH]; simpl; intros Hstep acc Hacc; [exact Hacc |].
  apply IH.
  - intros a y Hy. apply Hstep. right. exact Hy.
  - apply Hstep; [left; reflexivity | exact Hacc].
Qed.

Lemma NoDup_firstn {A : Type} (n : nat) (l : list A) :
  NoDup l -> NoDup (firstn n l).
Proof.
  intros Hnd. rewrite <- (firstn_skipn n l) in Hnd.
  apply NoDup_app_remove_r in Hnd. exact Hnd.
Qed.

Lemma slice0_NoDup {A : Type} (l : list A) (e : Z) :
  NoDup l -> NoDup (Js.slice0 l e).
Proof.
  destruct (slice0_firstn l e) as [n ->]. apply NoDup_firstn.
Qed.

Lemma slice0_Forall {A : Type} (P : A -> Prop) (l : list A) (e : Z) :
  Forall P l -> Forall P (Js.slice0 l e).
Proof.
  rewrite !Forall_forall. intros H x Hx. apply H.
  eapply slice0_In. exact Hx.
Qed.

Lemma slice0_length_nat {A : Type} (l : list A) (n : nat) :
  (List.length (Js.slice0 l (Z.of_nat n)) <= n)%nat.
Proof.
  pose proof (slice0_length l (Z.of_nat n)). lia.
Qed.

Section BestPracticesShape.

Import BestPractices PracticeShape.

Variable cfg : SEARCH_CONFIG.
Variable host : Host.

Lemma unique_spec (xs : list string) :
  forall seen,
    NoDup (unique seen xs)
    /\ forall x, In x (unique seen xs) ->
                 In x xs /\ isOneOf seen x = false.
Proof.
  induction xs as [| a xs IH]; intros seen; simpl.
  - split; [constructor | intros x []].
  - destruct (isOneOf seen a) eqn:Ha.
    + destruct (IH seen) as [Hnd Hin]. split; [exact Hnd |].
      intros x Hx. destruct (Hin x Hx) as [H1 H2]. split; [right |]; assumption.
    + destruct (IH (a :: seen)) as [Hnd Hin]. split.
      * constructor; [| exact Hnd].
        intros Hx. destruct (Hin a Hx) as [_ H2].
        unfold isOneOf in H2. simpl in H2. rewrite String.eqb_refl in H2.
        discriminate H2.
      * intros x [Hx | Hx].
        -- subst x. split; [left; reflexivity | exact Ha].
        -- destruct (Hin x Hx) as [H1 H2]. split; [right; exact H1 |].
           unfold isOneOf in H2 |- *. simpl in H2.
           apply orb_false_iff in H2. apply H2.
Qed.

Lemma scanLines_antiPatterns (topicTerms : list string) (ls : list string) :
  forall st,
    Forall antiPatternSized (foundAntiPatterns st) ->
    Forall antiPatternSized (foundAntiPatterns (scanLines host topicTerms ls st)).
Proof.
  induction ls as [| line rest IH]; intros st Hst; [exact Hst |].
  cbn [scanLines].
  destruct (prefix "```" (Js.trim line)).
  - destruct (negb (inCodeBlock st)); apply IH; exact Hst.
  - destruct (inCodeBlock st); [apply IH; exact Hst |].
    match goal with
    | |- context [if ?c then ?a else scanLines _ _ _ ?b] =>
        assert (Hnew : Forall antiPatternSized (foundAntiPatterns b))
    end.
    { cbn [foundAntiPatterns].
      match goal with
      | |- context [if ?c then _ ++ _ else _] => destruct c eqn:Hc
      end; [| exact Hst].
      apply Forall_app. split; [exact Hst |].
      constructor; [| constructor].
      apply andb_true_iff in Hc. destruct Hc as [Hc Hhi].
      apply andb_true_iff in Hc. destruct Hc as [_ Hlo].
      apply Nat.ltb_lt in Hlo, Hhi. split; assumption. }
    match goal with
    | |- context [if ?c then _ else _] => destruct c
    end; [exact Hnew | apply IH; exact Hnew].
Qed.

Lemma extracted_shape (text topic : string) :
  let '(_, examples, antiPatterns) :=
    extractBestPracticeSections host text topic in
  (List.length examples <= 3)%nat
  /\ (List.length antiPatterns <= 3)%nat
  /\ NoDup antiPatterns
  /\ Forall antiPatternSized antiPatterns.
Proof.
  unfold extractBestPracticeSections.
  set (st := scanLines host _ _ _).
  split; [apply (slice0_length_nat _ 3) |].
  split; [apply (slice0_length_nat _ 3) |].
  destruct (unique_spec (foundAntiPatterns st) []) as [Hnd Hin].
  split; [apply slice0_NoDup; exact Hnd |].
  apply slice0_Forall. apply Forall_forall. intros a Ha.
  destruct (Hin a Ha) as [Hfound _].
  assert (Hall : Forall antiPatternSized (foundAntiPatterns st)).
  { apply scanLines_antiPatterns. constructor. }
  rewrite Forall_forall in Hall. exact (Hall a Hfound).
Qed.

(** X6. [extractBestPracticeSections] returns at most three examples and at
    most three anti-patterns; the anti-patterns are pairwise distinct and
    each is longer than 10 and shorter than 200 characters. *)
Theorem best_practice_sections_caps (text topic : string) :
  let '(_, examples, antiPatterns) :=
    extractBestPracticeSections host text topic in
  (List.length examples <= 3)%nat
  /\ (List.length antiPatterns <= 3)%nat
  /\ NoDup antiPatterns
  /\ Forall (fun a => (10 < String.length a < 200)%nat) antiPatterns.
Proof. exact (extracted_shape text topic). Qed.

Lemma isOneOf_false (names : list string) (s : string) :
  isOneOf names s = false -> ~ In s names.
Proof.
  unfold isOneOf. intros H Hin.
  assert (Ht : existsb (String.eqb s) names = true).
  { apply existsb_exists. exists s. split; [exact Hin |].
    apply String.eqb_refl. }
  rewrite H in Ht. discriminate Ht.
Qed.

Lemma visit_ok (topicLower : string) (topicTerms : list string)
  (acc : list (Z * Entry) * list string) (doc : Item) :
  visitOk acc -> visitOk (visit cfg host topicLower topicTerms acc doc).
Proof.
  destruct acc as [practices seen].
  intros [Hseen [Htitles [Hin Hok]]]. simpl in Hseen, Htitles, Hin, Hok.
  unfold visit.
  destruct (_ =? 0)%nat; [repeat split; assumption |].
  destruct (_ <? _)%Z; [repeat split; assumption |].
  destruct (isOneOf seen _) eqn:Hnew; [repeat split; assumption |].
  apply isOneOf_false in Hnew.
  pose proof (extracted_shape (docContent doc) topicLower) as Hcaps.
  destruct (extractBestPracticeSections host (docContent doc) topicLower)
    as [[body ex] anti].
  destruct Hcaps as [Hex [Hanti _]].
  assert (Hseen' : NoDup (seen ++ [Js.toLowerCase
                                     (Title.extractTitle host (docContent doc))])).
  { apply NoDup_app; [exact Hseen | repeat constructor; intros [] |].
    intros x Hx [Heq | []]. subst x. apply Hnew. exact Hx. }
  destruct (Js.isEmpty body) eqn:Hbody.
  - split; [exact Hseen' |]. split; [exact Htitles |].
    split; [| exact Hok].
    intros p Hp. simpl. apply in_or_app. left. apply Hin. exact Hp.
  - split; [exact Hseen' |]. simpl.
    split.
    + rewrite map_app. simpl.
      apply NoDup_app; [exact Htitles | repeat constructor; intros [] |].
      intros x Hx [Heq | []]. subst x.
      apply in_map_iff in Hx. destruct Hx as [p [Hp1 Hp2]].
      apply Hnew. specialize (Hin p Hp2). rewrite Hp1 in Hin. exact Hin.
    + split.
      * intros p Hp. apply in_app_or in Hp. apply in_or_app.
        destruct Hp as [Hp | [<- | []]].
        -- left. apply Hin. exact Hp.
        -- right. left. reflexivity.
      * apply Forall_app. split; [exact Hok |].
        constructor; [| constructor].
        unfold entryOk.
        cbn [snd BestPractices.content examples antiPatterns].
        split; [| split; assumption].
        intros Hb. rewrite Hb in Hbody. discriminate Hbody.
Qed.

Lemma practices_ok (sections : Sections) (topicLower : string)
  (topicTerms : list string) :
  visitOk
    (fold_left (visit cfg host topicLower topicTerms) (allSections sections)
       ([], [])).
Proof.
  apply fold_left_invariant.
  - intros acc doc _. apply visit_ok.
  - repeat split; simpl; try constructor. intros p [].
Qed.

(** X7. No two entries that [getBestPractices] returns have the same title
    up to case. *)
Theorem best_practices_titles_distinct (sections : Sections)
  (topic : string) :
  NoDup
    (map (fun e => Js.toLowerCase (title e))
       (getBestPractices cfg host sections topic)).
Proof.
  unfold getBestPractices.
  destruct (practices_ok sections (Js.toLowerCase topic)
              (Js.wordsLongerThan 2 (Js.toLowerCase topic)))
    as [_ [Htitles _]].
  set (practices := fst (fold_left _ _ _)) in *.
  rewrite map_map.
  destruct (slice0_firstn (Js.sort byScoreDesc practices)
              (MAX_BEST_PRACTICES cfg)) as [n ->].
  rewrite <- firstn_map. apply NoDup_firstn.
  eapply Permutation_NoDup; [| exact Htitles].
  apply Permutation_map. apply sort_perm.
Qed.

(** X8. [getBestPractices] returns at most [MAX_BEST_PRACTICES] entries
    when that cap is not negative, and every entry it returns has a content
    that is not empty, at most three examples and at most three
    anti-patterns. *)
Theorem best_practices_entries (sections : Sections) (topic : string) :
  ((0 <= MAX_BEST_PRACTICES cfg)%Z ->
   (Z.of_nat (List.length (getBestPractices cfg host sections topic))
    <= MAX_BEST_PRACTICES cfg)%Z)
  /\ Forall
       (fun e =>
          BestPractices.content e <> EmptyString
          /\ (List.length (examples e) <= 3)%nat
          /\ (List.length (antiPatterns e) <= 3)%nat)
       (getBestPractices cfg host sections topic).
Proof.
  unfold getBestPractices. split.
  - intros Hcap. rewrite length_map. apply slice0_length. exact Hcap.
  - destruct (practices_ok sections (Js.toLowerCase topic)
                (Js.wordsLongerThan 2 (Js.toLowerCase topic)))
      as [_ [_ [_ Hok]]].
    apply Forall_forall. intros e Hin.
    apply in_map_iff in Hin. destruct Hin as [p [<- Hp]].
    apply slice0_In in Hp. apply sort_In in Hp.
    rewrite Forall_forall in Hok. exact (Hok p Hp).
Qed.

Lemma visit_no_terms (topicLower : string)
  (acc : list (Z * Entry) * list string) (doc : Item) :
  visit cfg host topicLower [] acc doc = acc.
Proof. destruct acc as [practices seen]. reflexivity. Qed.

(** X9. A topic none of whose words is longer than two characters yields no
    best practice, whatever the documentation. *)
Theorem best_practices_short_topic (sections : Sections) (topic : string) :
  Js.wordsLongerThan 2 (Js.toLowerCase topic) = [] ->
  getBestPractices cfg host sections topic = [].
Proof.
  intros Hterms. unfold getBestPractices. rewrite Hterms.
  assert (Hfold : forall docs acc,
             fold_left (visit cfg host (Js.toLowerCase topic) []) docs acc
             = acc).
  { induction docs as [| d docs IH]; intros acc; simpl; [reflexivity |].
    rewrite visit_no_terms. apply IH. }
  rewrite Hfold. simpl. unfold Js.slice0. simpl.
  rewrite firstn_nil. reflexivity.
Qed.

Lemma sectionItemsOf_without (sections : Sections) (gone kept : string) :
  gone <> kept ->
  sectionItemsOf
    (filter (fun e => negb (String.eqb (fst e) gone)) sections) kept
  = sectionItemsOf sections kept.
Proof.
  intros Hne. unfold sectionItemsOf.
  induction sections as [| [k v] rest IH]; simpl; [reflexivity |].
  destruct (String.eqb k gone) eqn:Hk; simpl.
  - apply String.eqb_eq in Hk. subst k.
    apply String.eqb_neq in Hne. rewrite Hne. exact IH.
  - destruct (String.eqb k kept); [reflexivity | exact IH].
Qed.

Lemma filter_filter_implied {A : Type} (f g : A -> bool) (l : list A) :
  (forall x, f x = true -> g x = true) ->
  filter f (filter g l) = filter f l.
Proof.
  intros Himp. induction l as [| x l IH]; simpl; [reflexivity |].
  destruct (g x) eqn:Hg; simpl.
  - rewrite IH. reflexivity.
  - destruct (f x) eqn:Hf; [| exact IH].
    rewrite (Himp x Hf) in Hg. discriminate Hg.
Qed.

(** X10. The API section takes no part in [getBestPractices]: the result is
    the same with the section [api-docs] removed from the documentation. *)
Theorem best_practices_ignore_api_docs (sections : Sections)
  (topic : string) :
  getBestPractices cfg host
    (filter (fun e => negb (String.eqb (fst e) "api-docs")) sections) topic
  = getBestPractices cfg host sections topic.
Proof.
  unfold getBestPractices.
  assert (Hall :
            allSections
              (filter (fun e => negb (String.eqb (fst e) "api-docs")) sections)
            = allSections sections).
  { unfold allSections.
    rewrite sectionItemsOf_without by discriminate.
    rewrite filter_filter_implied; [reflexivity |].
    intros [k v]. unfold isOneOf. simpl.
    intros H. apply negb_true_iff in H. apply orb_false_iff in H.
    destruct H as [H _]. rewrite H. reflexivity. }
  rewrite Hall. reflexivity.
Qed.

Lemma practices_scored (docs : list Item) (topicLower : string)
  (topicTerms : list string) :
  Forall (scoredFrom cfg host docs topicTerms)
    (fst (fold_left (visit cfg host topicLower topicTerms) docs ([], []))).
Proof.
  apply (fold_left_invariant
           (fun acc => Forall (scoredFrom cfg host docs topicTerms) (fst acc))).
  - intros [practices seen] doc Hdoc Hacc. simpl in Hacc.
    unfold visit.
    destruct (_ =? 0)%nat; [exact Hacc |].
    destruct (_ <? _)%Z eqn:Hlow; [exact Hacc |].
    destruct (isOneOf seen _); [exact Hacc |].
    destruct (extractBestPracticeSections host (docContent doc) topicLower)
      as [[body ex] anti].
    destruct (Js.isEmpty body); [exact Hacc |].
    simpl. apply Forall_app. split; [exact Hacc |].
    constructor; [| constructor].
    split; simpl.
    + apply Z.ltb_ge in Hlow. exact Hlow.
    + exists doc. split; [exact Hdoc |]. split; reflexivity.
  - constructor.
Qed.

(** X11. The entries that [getBestPractices] returns are in non-increasing
    order of the score their documents were given, and each of these
    scores reaches [BP_MIN_THRESHOLD]: the list is the list of second
    components of a list of scored entries, sorted by score, each built from
    a document of the candidate pool with the title and the score of that
    document. *)
Theorem best_practices_ranked (sections : Sections) (topic : string) :
  exists scored : list (Z * Entry),
    getBestPractices cfg host sections topic = map snd scored
    /\ StronglySorted (fun a b => (fst b <= fst a)%Z) scored
    /\ Forall
         (scoredFrom cfg host (allSections sections)
            (Js.wordsLongerThan 2 (Js.toLowerCase topic)))
         scored.
Proof.
  unfold getBestPractices.
  set (practices := fst (fold_left _ _ _)).
  exists (Js.slice0 (Js.sort byScoreDesc practices) (MAX_BEST_PRACTICES cfg)).
  split; [reflexivity |]. split.
  - destruct (slice0_firstn (Js.sort byScoreDesc practices)
                (MAX_BEST_PRACTICES cfg)) as [n ->].
    apply StronglySorted_firstn.
    apply StronglySorted_weaken
      with (R := Js.keyLe (fun p : Z * Entry => (- fst p)%Z)).
    + unfold Js.keyLe. intros a b Hab. lia.
    + apply sort_sorted. intros a b. unfold byScoreDesc. lia.
  - apply slice0_Forall. apply Forall_forall. intros p Hp.
    apply sort_In in Hp.
    pose proof (practices_scored (allSections sections)
                  (Js.toLowerCase topic)
                  (Js.wordsLongerThan 2 (Js.toLowerCase topic))) as Hall.
    rewrite Forall_forall in Hall. exact (Hall p Hp).
Qed.

End BestPracticesShape.

Lemma best_practices_entries_witness :
  (Z.of_nat
     (List.length
        (BestPractices.getBestPractices Sample.config Sample.host
           (Sample.sectionsOf Sample.practiceCorpus) "components"))
   <= MAX_BEST_PRACTICES Sample.config)%Z
  /\ (BestPractices.getBestPractices Sample.config Sample.host
        (Sample.sectionsOf Sample.practiceCorpus) "components" <> []).
Proof.
  split.
  - apply (best_practices_entries Sample.config Sample.host
             (Sample.sectionsOf Sample.practiceCorpus) "components").
    vm_compute. discriminate.
  - vm_compute. discriminate.
Defined.

Lemma best_practices_short_topic_witness :
  BestPractices.getBestPractices Sample.config Sample.host
    (Sample.sectionsOf Sample.practiceCorpus) "is it ok"
  = [].
Proof.
  apply (best_practices_short_topic Sample.config Sample.host
           (Sample.sectionsOf Sample.practiceCorpus) "is it ok").
  reflexivity.
Defined.

(** ** Segmentation: section names, start lines, text without headers *)

Section SegmenterShape.

Import Segmenter SegmentShape.

Lemma substring_whole (s : string) :
  String.substring 0 (String.length s) s = s.
Proof.
  induction s as [| c s IH]; simpl; [reflexivity |].
  rewrite IH. reflexivity.
Qed.

Lemma substringFrom_two (c1 c2 : ascii) (rest : string) :
  Js.substringFrom (String c1 (String c2 rest)) 2 = rest.
Proof.
  unfold Js.substringFrom, Js.substring, Js.len.
  cbn [String.length].
  set (n := String.length rest).
  replace (Z.min (Z.max 2 0) (Z.of_nat (S (S n)))) with 2%Z by lia.
  replace (Z.min (Z.max (Z.of_nat (S (S n))) 0) (Z.of_nat (S (S n))))
    with (Z.of_nat (S (S n))) by lia.
  cbv zeta.
  replace (Z.min 2 (Z.of_nat (S (S n)))) with 2%Z by lia.
  replace (Z.max 2 (Z.of_nat (S (S n)))) with (Z.of_nat (S (S n))) by lia.
  replace (Z.to_nat 2) with 2%nat by reflexivity.
  replace (Z.to_nat (Z.of_nat (S (S n)) - 2)) with n by lia.
  cbn [String.substring]. apply substring_whole.
Qed.

Lemma trimEnd_no_space (s : string) :
  Js.allChars (fun c => negb (Js.isSpace c)) s = true -> Js.trimEnd s = s.
Proof.
  induction s as [| c s IH]; simpl; [reflexivity |].
  intros H. apply andb_true_iff in H. destruct H as [Hc Hs].
  apply negb_true_iff in Hc. rewrite Hc. simpl.
  rewrite IH by exact Hs. reflexivity.
Qed.

Lemma trim_no_space (s : string) :
  Js.allChars (fun c => negb (Js.isSpace c)) s = true -> Js.trim s = s.
Proof.
  intros H. unfold Js.trim.
  assert (Hstart : Js.trimStart s = s).
  { destruct s as [| c s]; [reflexivity |].
    simpl in H |- *. apply andb_true_iff in H. destruct H as [Hc _].
    apply negb_true_iff in Hc. rewrite Hc. reflexivity. }
  rewrite Hstart. apply trimEnd_no_space. exact H.
Qed.

Lemma allChars_impl (p q : ascii -> bool) (s : string) :
  (forall c, p c = true -> q c = true) ->
  Js.allChars p s = true -> Js.allChars q s = true.
Proof.
  intros Himp. induction s as [| c s IH]; simpl; [reflexivity |].
  intros H. apply andb_true_iff in H. destruct H as [Hc Hs].
  rewrite (Himp c Hc), (IH Hs). reflexivity.
Qed.

Lemma nameChar_not_space (c : ascii) :
  isNameChar c = true -> negb (Js.isSpace c) = true.
Proof.
  destruct c as [[] [] [] [] [] [] [] []]; vm_compute;
    intros H; try reflexivity; discriminate H.
Qed.

(** The name that a header line gives its section is the text behind the
    hash and the space. *)
Lemma nameOf_header (line : string) :
  isHeader line = true ->
  line = ("# " ++ nameOf line)%string /\ okName (nameOf line).
Proof.
  unfold isHeader, nameOf.
  destruct line as [| c1 [| c2 rest]]; try discriminate.
  intros H.
  apply andb_true_iff in H. destruct H as [H Hchars].
  apply andb_true_iff in H. destruct H as [H Hne].
  apply andb_true_iff in H. destruct H as [H1 H2].
  apply Ascii.eqb_eq in H1, H2. subst c1 c2.
  rewrite substringFrom_two.
  rewrite trim_no_space
    by (eapply allChars_impl; [apply nameChar_not_space | exact Hchars]).
  split; [reflexivity |].
  split; [| exact Hchars].
  intros ->. discriminate Hne.
Qed.

Lemma appendTo_nonempty (secs : Sections) (n : string) (it : Item) :
  Forall (fun e : string * list Item => snd e <> []) secs ->
  Forall (fun e : string * list Item => snd e <> []) (appendTo secs n it).
Proof.
  induction secs as [| [k v] rest IH]; simpl; intros H.
  - constructor; [discriminate | constructor].
  - inversion H as [| ? ? Hv Hrest]; subst.
    destruct (String.eqb k n).
    + constructor; [| exact Hrest]. simpl.
      intros Happ. apply app_eq_nil in Happ. destruct Happ as [_ Hnil].
      discriminate Hnil.
    + constructor; [exact Hv | apply IH; exact Hrest].
Qed.

Lemma push_namesOk (secs secs' : Sections) (n : string) (it : Item) :
  okName n ->
  Forall sectionKey (keys secs) ->
  Forall (fun e : string * list Item => snd e <> []) secs ->
  pushItem secs n it = Returns secs' ->
  Forall sectionKey (keys secs')
  /\ Forall (fun e : string * list Item => snd e <> []) secs'.
Proof.
  intros Hn Hkeys Hne Hpush. unfold pushItem in Hpush.
  destruct (String.eqb n "constructor") eqn:Hc; [discriminate Hpush |].
  inversion Hpush; subst secs'; clear Hpush.
  apply String.eqb_neq in Hc.
  split; [| apply appendTo_nonempty; exact Hne].
  apply Forall_forall. intros k Hk.
  apply appendTo_keys_In in Hk. destruct Hk as [Hk | ->].
  - rewrite Forall_forall in Hkeys. apply Hkeys. exact Hk.
  - split; assumption.
Qed.

Lemma step_namesOk (i : nat) (st st' : State) (line : string) :
  namesOk st -> step st i line = Returns st' -> namesOk st'.
Proof.
  intros [Hkeys [Hne Hcur]] Hstep. unfold step in Hstep.
  destruct (isHeader line) eqn:Hh.
  - apply bind_returns in Hstep. destruct Hstep as [secs [Hflush Hret]].
    inversion Hret; subst st'; clear Hret.
    assert (Hsecs : Forall sectionKey (keys secs)
                    /\ Forall (fun e : string * list Item => snd e <> [])
                         secs).
    { unfold flush in Hflush.
      destruct (currentSection st) as [c |] eqn:Hc.
      - destruct (0 <? List.length (currentContent st))%nat.
        + eapply push_namesOk; [| exact Hkeys | exact Hne | exact Hflush].
          apply Hcur. discriminate.
        + inversion Hflush; subst secs. split; assumption.
      - inversion Hflush; subst secs. split; assumption. }
    destruct Hsecs as [Hk' Hn'].
    split; [exact Hk' |]. split; [exact Hn' |].
    intros _. simpl. apply nameOf_header. exact Hh.
  - destruct (currentSection st) as [c |] eqn:Hc.
    + destruct (isSeparator line && (1 <? List.length (currentContent st))%nat).
      * apply bind_returns in Hstep. destruct Hstep as [secs [Hpush Hret]].
        inversion Hret; subst st'; clear Hret.
        assert (Hsecs : Forall sectionKey (keys secs)
                        /\ Forall (fun e : string * list Item => snd e <> [])
                             secs).
        { destruct (0 <? List.length (currentContent st))%nat.
          - eapply push_namesOk; [| exact Hkeys | exact Hne | exact Hpush].
            apply Hcur. discriminate.
          - inversion Hpush; subst secs. split; assumption. }
        destruct Hsecs as [Hk' Hn'].
        split; [exact Hk' |]. split; [exact Hn' |].
        intros _. simpl. apply Hcur. discriminate.
      * inversion Hstep; subst st'; clear Hstep.
        split; [exact Hkeys |]. split; [exact Hne |].
        intros _. simpl. apply Hcur. discriminate.
    + inversion Hstep; subst st'; clear Hstep.
      split; [exact Hkeys |]. split; [exact Hne |].
      rewrite Hc. intros H. contradiction H. reflexivity.
Qed.

Lemma run_namesOk (ls : list string) :
  forall i st st',
    namesOk st -> run i ls st = Returns st' -> namesOk st'.
Proof.
  induction ls as [| line rest IH]; simpl; intros i st st' Hok Hrun.
  - inversion Hrun; subst. exact Hok.
  - apply bind_returns in Hrun. destruct Hrun as [st1 [Hstep Hrest]].
    eapply IH; [| exact Hrest].
    eapply step_namesOk; [exact Hok | exact Hstep].
Qed.

(** X12. The sections that segmentation returns have pairwise distinct
    names; every name is a non-empty word of lower-case letters and hyphens
    other than [constructor], and no section is without items. *)
Theorem parse_section_names (text : string) (secs : Sections) :
  parseDocumentation text = Returns secs ->
  NoDup (keys secs)
  /\ Forall
       (fun n =>
          n <> EmptyString
          /\ Js.allChars
               (fun c => Js.isLower c || Ascii.eqb c "-"%char) n = true
          /\ n <> "constructor")
       (keys secs)
  /\ Forall (fun e : string * list Item => snd e <> []) secs.
Proof.
  unfold parseDocumentation, parseLines. intros Hparse.
  apply bind_returns in Hparse. destruct Hparse as [st [Hrun Hflush]].
  assert (Hwf : wellFormed (0 + List.length (Js.lines text)) st).
  { eapply run_wellFormed; [| exact Hrun].
    unfold wellFormed, initial; simpl.
    split; [constructor |]. split; [constructor | reflexivity]. }
  destruct (flush_wellFormed _ _ _ Hwf Hflush) as [Hnd _].
  split; [exact Hnd |].
  assert (Hok : namesOk st).
  { eapply run_namesOk; [| exact Hrun].
    unfold namesOk, initial; simpl.
    split; [constructor |]. split; [constructor |].
    intros H. contradiction H. reflexivity. }
  destruct Hok as [Hkeys [Hne Hcur]].
  assert (Hsecs : Forall sectionKey (keys secs)
                  /\ Forall (fun e : string * list Item => snd e <> []) secs).
  { unfold flush in Hflush.
    destruct (currentSection st) as [c |] eqn:Hc.
    - destruct (0 <? List.length (currentContent st))%nat.
      + eapply push_namesOk; [| exact Hkeys | exact Hne | exact Hflush].
        apply Hcur. discriminate.
      + inversion Hflush; subst secs. split; assumption.
    - inversion Hflush; subst secs. split; assumption. }
  destruct Hsecs as [Hk' Hn'].
  split; [| exact Hn'].
  rewrite Forall_forall in Hk' |- *. intros n Hn.
  destruct (Hk' n Hn) as [[H1 H2] H3].
  split; [exact H1 |]. split; [exact H2 | exact H3].
Qed.

Lemma sorted_snoc (l : list nat) (c : nat) :
  StronglySorted lt l -> Forall (fun s => (s < c)%nat) l ->
  StronglySorted lt (l ++ [c]).
Proof.
  induction 1 as [| x l Hl IH Hall]; intros Hlt; simpl.
  - constructor; constructor.
  - inversion Hlt as [| ? ? Hx Hrest]; subst.
    constructor; [apply IH; exact Hrest |].
    apply Forall_app. split; [exact Hall |].
    constructor; [exact Hx | constructor].
Qed.

Lemma appendTo_sorted (secs : Sections) (n text : string) (c : nat) :
  sortedStarts secs ->
  Forall (fun s => (s < c)%nat) (starts secs) ->
  sortedStarts (appendTo secs n {| content := text; startLine := c |}).
Proof.
  unfold sortedStarts, starts.
  induction secs as [| [k v] rest IH]; simpl; intros Hs Hlt.
  - constructor; [| constructor]. simpl. constructor; constructor.
  - inversion Hs as [| ? ? Hv Hrest]; subst.
    rewrite map_app in Hlt. apply Forall_app in Hlt.
    destruct Hlt as [Hltv Hltrest].
    destruct (String.eqb k n).
    + constructor; [| exact Hrest]. simpl.
      rewrite map_app. simpl. apply sorted_snoc; assumption.
    + constructor; [exact Hv | apply IH; assumption].
Qed.

Lemma push_sorted (secs secs' : Sections) (n text : string) (c : nat) :
  sortedStarts secs ->
  Forall (fun s => (s < c)%nat) (starts secs) ->
  pushItem secs n {| content := text; startLine := c |} = Returns secs' ->
  sortedStarts secs'.
Proof.
  intros Hs Hlt Hpush. apply pushItem_returns in Hpush. subst secs'.
  apply appendTo_sorted; assumption.
Qed.

Lemma step_sorted (i : nat) (st st' : State) (line : string) :
  wellFormed i st -> sortedStarts (sections st) ->
  step st i line = Returns st' -> sortedStarts (sections st').
Proof.
  intros [_ [_ Hcur]] Hs Hstep. unfold step in Hstep.
  destruct (isHeader line).
  - apply bind_returns in Hstep. destruct Hstep as [secs [Hflush Hret]].
    inversion Hret; subst st'; clear Hret. simpl.
    unfold flush in Hflush.
    destruct (currentSection st) as [c |].
    + destruct Hcur as [_ [_ Hall]].
      destruct (0 <? List.length (currentContent st))%nat.
      * eapply push_sorted; [exact Hs | exact Hall | exact Hflush].
      * inversion Hflush; subst secs. exact Hs.
    + inversion Hflush; subst secs. exact Hs.
  - destruct (currentSection st) as [c |].
    + destruct Hcur as [_ [_ Hall]].
      destruct (isSeparator line && (1 <? List.length (currentContent st))%nat).
      * apply bind_returns in Hstep. destruct Hstep as [secs [Hpush Hret]].
        inversion Hret; subst st'; clear Hret. simpl.
        destruct (0 <? List.length (currentContent st))%nat.
        -- eapply push_sorted; [exact Hs | exact Hall | exact Hpush].
        -- inversion Hpush; subst secs. exact Hs.
      * inversion Hstep; subst st'. exact Hs.
    + inversion Hstep; subst st'. exact Hs.
Qed.

Lemma run_sorted (ls : list string) :
  forall i st st',
    wellFormed i st -> sortedStarts (sections st) ->
    run i ls st = Returns st' -> sortedStarts (sections st').
Proof.
  induction ls as [| line rest IH]; simpl; intros i st st' Hwf Hs Hrun.
  - inversion Hrun; subst. exact Hs.
  - apply bind_returns in Hrun. destruct Hrun as [st1 [Hstep Hrest]].
    eapply IH; [| | exact Hrest].
    + eapply step_wellFormed; [exact Hwf | exact Hstep].
    + eapply step_sorted; [exact Hwf | exact Hs | exact Hstep].
Qed.

(** X13. The start lines of the items that segmentation returns are
    pairwise distinct, each is the index of a line of the text, and in
    every section the items stand in increasing order of start line. *)
Theorem parse_start_lines (text : string) (secs : Sections) :
  parseDocumentation text = Returns secs ->
  NoDup (starts secs)
  /\ Forall (fun s => (s < List.length (Js.lines text))%nat) (starts secs)
  /\ Forall
       (fun e : string * list Item =>
          StronglySorted lt (map startLine (snd e)))
       secs.
Proof.
  unfold parseDocumentation, parseLines. intros Hparse.
  apply bind_returns in Hparse. destruct Hparse as [st [Hrun Hflush]].
  assert (Hinit : wellFormed 0 initial).
  { unfold wellFormed, initial; simpl.
    split; [constructor |]. split; [constructor | reflexivity]. }
  assert (Hwf : wellFormed (0 + List.length (Js.lines text)) st).
  { eapply run_wellFormed; [exact Hinit | exact Hrun]. }
  assert (Hsorted : sortedStarts (sections st)).
  { eapply run_sorted; [exact Hinit | | exact Hrun]. constructor. }
  destruct (flush_wellFormed _ _ _ Hwf Hflush) as [_ Hnd].
  split; [exact Hnd |].
  simpl in Hwf. destruct Hwf as [Hk [Hs Hcur]].
  unfold flush in Hflush.
  destruct (currentSection st) as [c |].
  - destruct Hcur as [Hle [Hlt Hall]].
    destruct (0 <? List.length (currentContent st))%nat eqn:Hlen.
    + apply nonempty_length in Hlen. specialize (Hlt Hlen).
      destruct (push_wellFormed _ _ _ _ _ Hflush Hk Hs Hall) as [_ [_ Hle']].
      split; [eapply Forall_lt_weaken; [exact Hlt | exact Hle'] |].
      eapply push_sorted; [exact Hsorted | exact Hall | exact Hflush].
    + inversion Hflush; subst secs.
      split; [eapply Forall_lt_mono; [exact Hle | exact Hall] | exact Hsorted].
  - inversion Hflush; subst secs. rewrite Hcur.
    split; constructor.
Qed.

Lemma run_outside (ls : list string) :
  Forall (fun l => isHeader l = false) ls ->
  forall i, run i ls initial = Returns initial.
Proof.
  induction 1 as [| line rest Hline _ IH]; intros i; simpl; [reflexivity |].
  unfold step. rewrite Hline. simpl. apply IH.
Qed.

(** X14. A text without any header line yields no section at all: what
    stands in front of the first header is dropped. *)
Theorem parse_without_header (text : string) :
  Forall (fun l => isHeader l = false) (Js.lines text) ->
  parseDocumentation text = Returns [].
Proof.
  intros Hnone. unfold parseDocumentation, parseLines.
  rewrite run_outside by exact Hnone. reflexivity.
Qed.

End SegmenterShape.

Lemma parse_section_names_witness :
  exists secs,
    Segmenter.parseDocumentation Sample.twoSections = Returns secs
    /\ NoDup (keys secs)
    /\ Forall
         (fun n =>
            n <> EmptyString
            /\ Js.allChars
                 (fun c => Js.isLower c || Ascii.eqb c "-"%char) n = true
            /\ n <> "constructor")
         (keys secs)
    /\ Forall (fun e : string * list Item => snd e <> []) secs.
Proof.
  eexists. split; [vm_compute; reflexivity |].
  apply (parse_section_names Sample.twoSections).
  vm_compute. reflexivity.
Defined.

Lemma parse_start_lines_witness :
  exists secs,
    Segmenter.parseDocumentation Sample.twoSections = Returns secs
    /\ map (fun e : string * list Item => map startLine (snd e)) secs
       = [[0; 5]; [8]]%nat
    /\ NoDup (starts secs).
Proof.
  eexists. split; [vm_compute; reflexivity |].
  split; [vm_compute; reflexivity |].
  apply (parse_start_lines Sample.twoSections).
  vm_compute. reflexivity.
Defined.

Lemma parse_without_header_witness :
  Segmenter.parseDocumentation "Some text
## not a section header
# Neither is this" = Returns [].
Proof.
  apply parse_without_header.
  vm_compute. repeat constructor.
Defined.

(** ** The deprecation registry: lookups, warnings and search results *)

Section DeprecationShape.

Import Deprecation DeprecationText.

Variable cap : Captures.
Variable icons : Icons.

Lemma isDeprecated_info (m : Manager) (n : string) :
  isDeprecated m n = true <-> getDeprecationInfo m n <> None.
Proof.
  unfold isDeprecated, getDeprecationInfo, has.
  destruct (Js.isEmpty n).
  - split; [discriminate | intros H; contradiction H; reflexivity].
  - destruct (get (deprecations m) (Js.toLowerCase n)); simpl.
    + split; [discriminate | reflexivity].
    + destruct (get (knownDeprecations m) (Js.toLowerCase n)).
      * split; [discriminate | reflexivity].
      * split; [discriminate | intros H; contradiction H; reflexivity].
Qed.

(** The two lookups agree: [isDeprecated] answers [true] for exactly
    the names for which [getDeprecationInfo] returns a record. *)
Theorem deprecated_iff_info (m : Manager) (n : string) :
  isDeprecated m n = true <-> exists info, getDeprecationInfo m n = Some info.
Proof.
  rewrite isDeprecated_info.
  destruct (getDeprecationInfo m n) as [info |].
  - split; [intros _; exists info; reflexivity | discriminate].
  - split; [intros H; contradiction H; reflexivity | intros [info H]; discriminate H].
Qed.

Lemma register_other (m : Manager) (n n' : string) (info : option Info) :
  Js.toLowerCase n' <> Js.toLowerCase n ->
  getDeprecationInfo (registerDeprecation m n info) n'
  = getDeprecationInfo m n'.
Proof.
  intros Hne. unfold registerDeprecation.
  destruct info as [i |]; [| reflexivity].
  destruct (Js.isEmpty n); [reflexivity |].
  unfold getDeprecationInfo. simpl.
  rewrite get_set_other by (intros H; apply Hne; symmetry; exact H).
  reflexivity.
Qed.

(** Registering a record under one name leaves every name with another
    lower-case form as it was, for both lookups. *)
Theorem register_leaves_other_names (m : Manager) (n n' : string)
  (info : option Info) :
  Js.toLowerCase n' <> Js.toLowerCase n ->
  getDeprecationInfo (registerDeprecation m n info) n'
  = getDeprecationInfo m n'
  /\ isDeprecated (registerDeprecation m n info) n' = isDeprecated m n'.
Proof.
  intros Hne. split; [apply register_other; exact Hne |].
  pose proof (register_other m n n' info Hne) as Hget.
  destruct (isDeprecated m n') eqn:Hold.
  - apply isDeprecated_info. rewrite Hget. apply isDeprecated_info. exact Hold.
  - destruct (isDeprecated (registerDeprecation m n info) n') eqn:Hnew;
      [| reflexivity].
    apply isDeprecated_info in Hnew. rewrite Hget in Hnew.
    apply isDeprecated_info in Hnew. rewrite Hnew in Hold. discriminate Hold.
Qed.

Lemma register_keeps (m : Manager) (n n' : string) (info : option Info) :
  isDeprecated m n' = true ->
  isDeprecated (registerDeprecation m n info) n' = true.
Proof.
  intros Hold.
  destruct (string_dec (Js.toLowerCase n') (Js.toLowerCase n)) as [Heq | Hne].
  - unfold registerDeprecation.
    destruct info as [i |]; [| exact Hold].
    destruct (Js.isEmpty n) eqn:Hn; [exact Hold |].
    unfold isDeprecated, has. simpl.
    rewrite <- (toLowerCase_isEmpty n'), Heq, toLowerCase_isEmpty, Hn.
    rewrite get_set_same. reflexivity.
  - apply isDeprecated_info. rewrite register_other by exact Hne.
    apply isDeprecated_info. exact Hold.
Qed.

Lemma append_nonempty (a b : string) :
  b <> EmptyString -> (a ++ b)%string <> EmptyString.
Proof.
  intros Hb. destruct a; simpl; [exact Hb | discriminate].
Qed.

(** X16. [generateWarning] returns the empty string for exactly the names
    that are not deprecated, in every format. *)
Theorem warning_empty_iff_not_deprecated (m : Manager) (n format : string) :
  generateWarning icons m n format = EmptyString <-> isDeprecated m n = false.
Proof.
  unfold generateWarning.
  destruct (getDeprecationInfo m n) as [info |] eqn:Hinfo.
  - assert (Hdep : isDeprecated m n = true).
    { apply isDeprecated_info. rewrite Hinfo. discriminate. }
    rewrite Hdep.
    split; [| discriminate]. intros Hempty. exfalso. revert Hempty.
    destruct (String.eqb format "short");
      [| destruct (String.eqb format "inline")].
    + unfold shortWarning. apply append_nonempty. discriminate.
    + unfold inlineWarning. apply append_nonempty. discriminate.
    + unfold bannerWarning. discriminate.
  - split; [intros _ | reflexivity].
    destruct (isDeprecated m n) eqn:Hdep; [| reflexivity].
    apply isDeprecated_info in Hdep. contradiction.
Qed.

Lemma occursIn_here (x b : string) : Js.occursIn x (x ++ b)%string.
Proof. exists EmptyString, b. reflexivity. Qed.

Lemma occursIn_skip (p x s : string) :
  Js.occursIn x s -> Js.occursIn x (p ++ s)%string.
Proof.
  intros [a [b ->]]. exists (p ++ a)%string, b.
  rewrite append_assoc3. reflexivity.
Qed.

Lemma occursIn_keep (x s q : string) :
  Js.occursIn x s -> Js.occursIn x (s ++ q)%string.
Proof.
  intros [a [b ->]]. exists a, (b ++ q)%string.
  rewrite !append_assoc3. reflexivity.
Qed.

(** X17. The banner of a deprecated name shows the name of the record and,
    when the record has one, its reason and its modern alternative. *)
Theorem banner_shows_record (m : Manager) (n : string) (info : Info) :
  getDeprecationInfo m n = Some info ->
  let banner := generateWarning icons m n "banner" in
  Js.occursIn ("`" ++ name info ++ "`") banner
  /\ (forall r, present (reason info) = Some r -> Js.occursIn r banner)
  /\ (forall a,
         present (modernAlternative info) = Some a -> Js.occursIn a banner).
Proof.
  intros Hinfo. unfold generateWarning. rewrite Hinfo.
  cbn [String.eqb Ascii.eqb Bool.eqb]. cbv zeta. unfold bannerWarning.
  split; [| split].
  - apply occursIn_skip with (p := "
> "). apply occursIn_skip.
    exists " **DEPRECATION WARNING**
>
> **".
    eexists. rewrite !append_assoc3. simpl. reflexivity.
  - intros r Hr. rewrite Hr.
    do 7 apply occursIn_skip. apply occursIn_keep.
    apply occursIn_skip. apply occursIn_here.
  - intros a Ha. rewrite Ha.
    do 8 apply occursIn_skip. apply occursIn_keep.
    apply occursIn_skip. apply occursIn_here.
Qed.

Lemma takeLetters_app (r rest : string) :
  Js.allChars Js.isLetter r = true -> startsLetter rest = false ->
  takeLetters (r ++ rest) = r.
Proof.
  intros Hr Hrest. induction r as [| c r IH]; simpl.
  - destruct rest as [| d rest]; [reflexivity |].
    simpl in Hrest |- *. rewrite Hrest. reflexivity.
  - simpl in Hr. apply andb_true_iff in Hr. destruct Hr as [Hc Hr].
    rewrite Hc, (IH Hr). reflexivity.
Qed.

Lemma firstApiName_leading (n rest : string) :
  isApiName n = true -> startsLetter rest = false ->
  firstApiName (n ++ rest) = Some n.
Proof.
  destruct n as [| c r]; [discriminate |].
  unfold isApiName. intros H Hrest.
  apply andb_true_iff in H. destruct H as [H Hletters].
  apply andb_true_iff in H. destruct H as [Hupper Hne].
  cbn [append firstApiName]. rewrite Hupper.
  assert (Hstart : startsLetter (r ++ rest) = true).
  { destruct r as [| d r]; [discriminate Hne |].
    simpl in Hletters |- *. apply andb_true_iff in Hletters. apply Hletters. }
  rewrite Hstart. cbn [andb].
  rewrite takeLetters_app by assumption. reflexivity.
Qed.

(** X18. Of a title only the first capitalised word is looked up. A result
    whose title opens with a name (a capital followed by letters), followed
    by nothing or by something that is not a letter, is answered with the
    record of that name if it is deprecated, whatever its content; if it is
    not, the rest of the title is not looked at and the content alone
    decides. *)
Theorem result_titled_with_api_name (m : Manager) (n rest content : string) :
  isApiName n = true -> startsLetter rest = false ->
  (isDeprecated m n = true ->
   exists info,
     getDeprecationInfo m n = Some info
     /\ checkSearchResult m (n ++ rest) content = Some (Registered info))
  /\ (isDeprecated m n = false ->
      checkSearchResult m (n ++ rest) content = contentVerdict content).
Proof.
  intros Hname Hrest.
  assert (Hcheck :
            checkSearchResult m (n ++ rest) content
            = if isDeprecated m n
              then option_map Registered (getDeprecationInfo m n)
              else contentVerdict content).
  { unfold checkSearchResult.
    rewrite firstApiName_leading by assumption.
    destruct n as [| c r]; [discriminate Hname | reflexivity]. }
  rewrite Hcheck. split; intros Hdep; rewrite Hdep; [| reflexivity].
  destruct (getDeprecationInfo m n) as [info |] eqn:Hinfo;
    [| apply isDeprecated_info in Hdep; contradiction].
  exists info. split; reflexivity.
Qed.

Lemma toLowerCase_app (a b : string) :
  Js.toLowerCase (a ++ b) = (Js.toLowerCase a ++ Js.toLowerCase b)%string.
Proof.
  induction a as [| c a IH]; simpl; [reflexivity | rewrite IH; reflexivity].
Qed.

Lemma dropN_app (p x : string) : dropN (String.length p) (p ++ x) = x.
Proof.
  induction p as [| c p IH]; simpl; [destruct x; reflexivity | exact IH].
Qed.

Lemma phraseFrom_at (p x : string) :
  x <> EmptyString -> startsWord x = false ->
  phraseFrom false p (p ++ x) = true.
Proof.
  intros Hx Hstart.
  destruct (p ++ x)%string as [| c r] eqn:Heq.
  - exfalso. destruct p; simpl in Heq; [contradiction | discriminate Heq].
  - cbn [phraseFrom]. rewrite <- Heq.
    assert (Hprefix : prefix p (p ++ x) = true).
    { apply prefix_split. exists x. reflexivity. }
    rewrite Hprefix, dropN_app, Hstart. reflexivity.
Qed.

Lemma phraseFrom_skip (p s : string) :
  (forall prev, phraseFrom prev p s = true) ->
  forall a prev, phraseFrom prev p (a ++ s) = true.
Proof.
  intros Hs. induction a as [| c a IH]; intros prev; simpl; [apply Hs |].
  rewrite IH. apply orb_true_r.
Qed.

Lemma hasPhrase_spaced (p a w b : string) :
  Js.toLowerCase w = p ->
  hasPhrase p (a ++ " " ++ w ++ " " ++ b) = true.
Proof.
  intros Hw. unfold hasPhrase.
  rewrite !toLowerCase_app, Hw.
  apply phraseFrom_skip. intros prev.
  change (Js.toLowerCase " ") with " ".
  cbn [append phraseFrom].
  change (isWordChar " ") with false.
  rewrite phraseFrom_at; [apply orb_true_r | discriminate | reflexivity].
Qed.

(** X19. A titled result whose content holds one of the words [deprecated],
    [legacy] or [no longer recommended] between two spaces, in any letter
    case, is never answered with [null]. *)
Theorem result_flagged_by_keyword (m : Manager) (title a w b : string) :
  title <> EmptyString ->
  In (Js.toLowerCase w) possiblyKeywords ->
  checkSearchResult m title (a ++ " " ++ w ++ " " ++ b) <> None.
Proof.
  intros Htitle Hw.
  assert (Hcontent :
            contentVerdict (a ++ " " ++ w ++ " " ++ b)
            = Some PossiblyDeprecated).
  { unfold contentVerdict.
    assert (Hne : Js.isEmpty (a ++ " " ++ w ++ " " ++ b) = false).
    { destruct a; reflexivity. }
    rewrite Hne. cbn [negb andb].
    assert (Hany :
              existsb (fun p => hasPhrase p (a ++ " " ++ w ++ " " ++ b))
                possiblyKeywords = true).
    { apply existsb_exists. exists (Js.toLowerCase w).
      split; [exact Hw | apply hasPhrase_spaced; reflexivity]. }
    rewrite Hany. reflexivity. }
  unfold checkSearchResult.
  rewrite (isEmpty_false title Htitle).
  destruct (firstApiName title) as [apiName |];
    [| rewrite Hcontent; discriminate].
  destruct (isDeprecated m apiName) eqn:Hdep;
    [| rewrite Hcontent; discriminate].
  apply isDeprecated_info in Hdep.
  destruct (getDeprecationInfo m apiName); [discriminate | contradiction].
Qed.

Lemma registerFound_known (item : Linked) (m : Manager) (apiName : string) :
  knownDeprecations (registerFound cap item m apiName) = knownDeprecations m.
Proof.
  unfold registerFound, registerDeprecation.
  destruct (analyzeContent cap apiName (text item)); [| reflexivity].
  destruct (Js.isEmpty apiName); reflexivity.
Qed.

Lemma registerFound_keeps (item : Linked) (m : Manager) (apiName n : string) :
  isDeprecated m n = true ->
  isDeprecated (registerFound cap item m apiName) n = true.
Proof.
  intros Hold. unfold registerFound.
  destruct (analyzeContent cap apiName (text item)); [| exact Hold].
  apply register_keeps. exact Hold.
Qed.

(** X20. The analysis of the documentation never takes a deprecation back
    and never touches the seeded tier: a name that was deprecated before is
    deprecated afterwards. *)
Theorem analysis_keeps_deprecations (m : Manager)
  (sections : list (string * list Linked)) (n : string) :
  isDeprecated m n = true ->
  isDeprecated (analyzeDocumentation cap m sections) n = true
  /\ knownDeprecations (analyzeDocumentation cap m sections)
     = knownDeprecations m.
Proof.
  intros Hold. unfold analyzeDocumentation.
  apply (fold_left_invariant
           (fun m' => isDeprecated m' n = true
                      /\ knownDeprecations m' = knownDeprecations m));
    [| split; [exact Hold | reflexivity]].
  intros acc e _ Hacc. unfold analyzeSection.
  destruct (Js.includes "deprecation" (Js.toLowerCase (fst e)));
    [| exact Hacc].
  revert Hacc.
  apply (fold_left_invariant
           (fun m' => isDeprecated m' n = true
                      /\ knownDeprecations m' = knownDeprecations m)).
  intros acc1 item _ Hacc1. unfold analyzeItem. revert Hacc1.
  apply (fold_left_invariant
           (fun m' => isDeprecated m' n = true
                      /\ knownDeprecations m' = knownDeprecations m)).
  intros acc2 apiName _ [Hdep Hknown]. split.
  - apply registerFound_keeps. exact Hdep.
  - rewrite registerFound_known. exact Hknown.
Qed.

(** Only the sections whose name holds [deprecation] are analysed:
    without such a section the registry is left as it was. *)
Theorem analysis_needs_deprecation_section (m : Manager)
  (sections : list (string * list Linked)) :
  Forall
    (fun e : string * list Linked =>
       Js.includes "deprecation" (Js.toLowerCase (fst e)) = false)
    sections ->
  analyzeDocumentation cap m sections = m.
Proof.
  unfold analyzeDocumentation. intros Hnone. revert m.
  induction Hnone as [| e rest He _ IH]; intros m; simpl; [reflexivity |].
  unfold analyzeSection at 2. rewrite He. apply IH.
Qed.

Lemma registerFound_get (item : Linked) (m : Manager) (apiName key : string)
  (info : Info) :
  get (deprecations (registerFound cap item m apiName)) key = Some info ->
  get (deprecations m) key = Some info
  \/ (key = Js.toLowerCase apiName
      /\ hasDeprecationKeyword (text item) = true
      /\ name info = apiName
      /\ status info = "deprecated"
      /\ severity info = Some "warning"
      /\ deprecationGuideLink info = link item).
Proof.
  unfold registerFound, analyzeContent.
  destruct (Js.isEmpty (text item)); [left; assumption |].
  destruct (hasDeprecationKeyword (text item)) eqn:Hkey;
    cbn [negb]; [| left; assumption].
  unfold registerDeprecation.
  destruct (Js.isEmpty apiName); [left; assumption |].
  cbn [deprecations].
  destruct (string_dec (Js.toLowerCase apiName) key) as [Heq | Hne].
  - subst key. rewrite get_set_same. intros H. inversion H; subst info.
    right. repeat split; reflexivity.
  - rewrite get_set_other by exact Hne. left. assumption.
Qed.

Lemma analysis_derived (m : Manager) (sections : list (string * list Linked))
  (key : string) (info : Info) :
  get (deprecations (analyzeDocumentation cap m sections)) key = Some info ->
  get (deprecations m) key = Some info \/ derivedFrom sections key info.
Proof.
  unfold analyzeDocumentation. revert key info.
  apply (fold_left_invariant
           (fun m' => forall key info,
                get (deprecations m') key = Some info ->
                get (deprecations m) key = Some info
                \/ derivedFrom sections key info));
    [| intros key info H; left; exact H].
  intros acc e He Hacc. unfold analyzeSection.
  destruct (Js.includes "deprecation" (Js.toLowerCase (fst e))) eqn:Hname;
    [| exact Hacc].
  revert Hacc.
  apply (fold_left_invariant
           (fun m' => forall key info,
                get (deprecations m') key = Some info ->
                get (deprecations m) key = Some info
                \/ derivedFrom sections key info)).
  intros acc1 item Hitem Hacc1. unfold analyzeItem. revert Hacc1.
  apply (fold_left_invariant
           (fun m' => forall key info,
                get (deprecations m') key = Some info ->
                get (deprecations m) key = Some info
                \/ derivedFrom sections key info)).
  intros acc2 apiName Hapi Hacc2 key info Hget.
  apply registerFound_get in Hget.
  destruct Hget as [Hold | [Hk [Hkw [Hn [Hs [Hsev Hlink]]]]]].
  - apply Hacc2. exact Hold.
  - right. exists e, item. subst apiName. repeat split; assumption.
Qed.

(** X21. Where the records of the content-derived tier come from: after the
    analysis, a record under a key was there before, or its name stands
    between back quotes in an item of a section whose name holds
    [deprecation], the content of that item holds a deprecation keyword, the
    key is the name in lower case, the status is [deprecated], the severity
    [warning], and the guide link is the link of that item. *)
Theorem analysis_provenance (m : Manager)
  (sections : list (string * list Linked)) (key : string) (info : Info) :
  get (deprecations (analyzeDocumentation cap m sections)) key = Some info ->
  get (deprecations m) key = Some info
  \/ exists e item,
       In e sections
       /\ Js.includes "deprecation" (Js.toLowerCase (fst e)) = true
       /\ In item (snd e)
       /\ hasDeprecationKeyword (text item) = true
       /\ In (name info) (backtickedNames (text item) 0)
       /\ key = Js.toLowerCase (name info)
       /\ status info = "deprecated"
       /\ severity info = Some "warning"
       /\ deprecationGuideLink info = link item.
Proof. exact (analysis_derived m sections key info). Qed.

(** The items that segmentation produces carry no link, so a record
    that the analysis derives from the sections of the service has no
    deprecation guide link. *)
Theorem parsed_sections_give_no_guide_link (m : Manager)
  (sections : Sections) (key : string) (info : Info) :
  get (deprecations (analyzeDocumentation cap m (unlinked sections))) key
  = Some info ->
  get (deprecations m) key = Some info
  \/ deprecationGuideLink info = None.
Proof.
  intros Hget. apply analysis_derived in Hget.
  destruct Hget as [Hold | [e [item [He [_ [Hitem [_ [_ [_ [_ [_ Hlink]]]]]]]]]]];
    [left; exact Hold | right].
  rewrite Hlink. unfold unlinked in He.
  apply in_map_iff in He. destruct He as [e0 [<- _]].
  cbn [snd] in Hitem.
  apply in_map_iff in Hitem. destruct Hitem as [it [<- _]].
  reflexivity.
Qed.

Lemma lowerChar_letter (c : ascii) :
  Js.isLetter (Js.lowerChar c) = Js.isLetter c.
Proof.
  destruct c as [[] [] [] [] [] [] [] []]; vm_compute; reflexivity.
Qed.

Lemma toLowerCase_letters (n : string) :
  Js.allChars Js.isLetter (Js.toLowerCase n) = Js.allChars Js.isLetter n.
Proof.
  induction n as [| c n IH]; simpl; [reflexivity |].
  rewrite lowerChar_letter, IH. reflexivity.
Qed.

Lemma takeLetters_letters (s : string) :
  Js.allChars Js.isLetter (takeLetters s) = true.
Proof.
  induction s as [| c s IH]; simpl; [reflexivity |].
  destruct (Js.isLetter c) eqn:Hc; simpl; [| reflexivity].
  rewrite Hc, IH. reflexivity.
Qed.

Lemma upper_letter (c : ascii) : Js.isUpper c = true -> Js.isLetter c = true.
Proof. unfold Js.isLetter. intros ->. reflexivity. Qed.

Lemma backtickedNames_letters (s : string) :
  forall skip n,
    In n (backtickedNames s skip) -> Js.allChars Js.isLetter n = true.
Proof.
  induction s as [| c rest IH]; intros skip n; simpl; [intros [] |].
  destruct skip as [| k]; [| apply IH].
  destruct (Ascii.eqb c "`"%char); [| apply IH].
  destruct (apiNameAt rest) as [found |] eqn:Hfound; [| apply IH].
  destruct (prefix "`" (dropN (String.length found) rest)); [| apply IH].
  intros [Heq | Hin]; [| eapply IH; exact Hin].
  subst found. unfold apiNameAt in Hfound.
  destruct rest as [| d rest']; [discriminate Hfound |].
  destruct (Js.isUpper d && startsLetter rest') eqn:Hd; [| discriminate Hfound].
  inversion Hfound; subst n. simpl.
  apply andb_true_iff in Hd. destruct Hd as [Hd _].
  rewrite (upper_letter d Hd), takeLetters_letters. reflexivity.
Qed.

Lemma set_lettersOnly (t : Table) (k : string) (v : Info) :
  Js.allChars Js.isLetter k = true -> lettersOnly t -> lettersOnly (set t k v).
Proof.
  unfold lettersOnly. intros Hk.
  induction t as [| [k0 w] rest IH]; simpl; intros Ht.
  - constructor; [exact Hk | constructor].
  - inversion Ht as [| ? ? H0 Hrest]; subst.
    destruct (String.eqb k0 k).
    + constructor; [exact H0 | exact Hrest].
    + constructor; [exact H0 | apply IH; exact Hrest].
Qed.

Lemma get_lettersOnly (t : Table) (k : string) (v : Info) :
  lettersOnly t -> get t k = Some v -> Js.allChars Js.isLetter k = true.
Proof.
  unfold lettersOnly.
  induction t as [| [k0 w] rest IH]; simpl; intros Ht Hget; [discriminate |].
  inversion Ht as [| ? ? H0 Hrest]; subst.
  destruct (String.eqb k0 k) eqn:Hk.
  - apply String.eqb_eq in Hk. subst k0. exact H0.
  - apply IH; assumption.
Qed.

Lemma analysis_lettersOnly (m : Manager)
  (sections : list (string * list Linked)) :
  lettersOnly (deprecations m) ->
  lettersOnly (deprecations (analyzeDocumentation cap m sections)).
Proof.
  unfold analyzeDocumentation.
  apply (fold_left_invariant (fun m' => lettersOnly (deprecations m'))).
  intros acc e _ Hacc. unfold analyzeSection.
  destruct (Js.includes "deprecation" (Js.toLowerCase (fst e)));
    [| exact Hacc].
  revert Hacc.
  apply (fold_left_invariant (fun m' => lettersOnly (deprecations m'))).
  intros acc1 item _ Hacc1. unfold analyzeItem. revert Hacc1.
  apply (fold_left_invariant (fun m' => lettersOnly (deprecations m'))).
  intros acc2 apiName Hapi Hacc2.
  unfold registerFound, registerDeprecation.
  destruct (analyzeContent cap apiName (text item)); [| exact Hacc2].
  destruct (Js.isEmpty apiName); [exact Hacc2 |].
  cbn [deprecations]. apply set_lettersOnly; [| exact Hacc2].
  rewrite toLowerCase_letters.
  eapply backtickedNames_letters. exact Hapi.
Qed.

Lemma anyChar_not_all (p : ascii -> bool) (s : string) :
  Js.anyChar (fun c => negb (p c)) s = true -> Js.allChars p s = false.
Proof.
  induction s as [| c s IH]; simpl; [discriminate |].
  destruct (p c); simpl; [exact IH | reflexivity].
Qed.

(** X22. A warning is printed for bare names only. When the keys of both
    tiers are words of letters, as they are in a fresh registry, they still
    are after the analysis of the documentation, and a name that holds
    anything but letters (a title such as [ArrayProxy Documentation]) gets
    the empty warning in every format. *)
Theorem warning_needs_bare_name (m : Manager)
  (sections : list (string * list Linked)) (n format : string) :
  lettersOnly (deprecations m) ->
  lettersOnly (knownDeprecations m) ->
  Js.anyChar (fun c => negb (Js.isLetter c)) n = true ->
  lettersOnly (deprecations (analyzeDocumentation cap m sections))
  /\ generateWarning icons (analyzeDocumentation cap m sections) n format
     = EmptyString.
Proof.
  intros Hderived Hknown Hn.
  pose proof (analysis_lettersOnly m sections Hderived) as Hafter.
  split; [exact Hafter |].
  assert (Hkey : Js.allChars Js.isLetter (Js.toLowerCase n) = false).
  { rewrite toLowerCase_letters. apply anyChar_not_all. exact Hn. }
  unfold generateWarning, getDeprecationInfo.
  destruct (Js.isEmpty n); [reflexivity |].
  destruct (get (deprecations (analyzeDocumentation cap m sections))
              (Js.toLowerCase n)) as [info |] eqn:Hget.
  - rewrite (get_lettersOnly _ _ _ Hafter Hget) in Hkey. discriminate Hkey.
  - destruct (get (knownDeprecations (analyzeDocumentation cap m sections))
                (Js.toLowerCase n)) as [info |] eqn:Hget'; [| reflexivity].
    assert (Hsame : knownDeprecations (analyzeDocumentation cap m sections)
                    = knownDeprecations m).
    { unfold analyzeDocumentation.
      apply (fold_left_invariant
               (fun m' => knownDeprecations m' = knownDeprecations m));
        [| reflexivity].
      intros acc e _ Hacc. unfold analyzeSection.
      destruct (Js.includes "deprecation" (Js.toLowerCase (fst e)));
        [| exact Hacc].
      revert Hacc.
      apply (fold_left_invariant
               (fun m' => knownDeprecations m' = knownDeprecations m)).
      intros acc1 item _ Hacc1. unfold analyzeItem. revert Hacc1.
      apply (fold_left_invariant
               (fun m' => knownDeprecations m' = knownDeprecations m)).
      intros acc2 apiName _ Hacc2.
      rewrite registerFound_known. exact Hacc2. }
    rewrite Hsame in Hget'.
    rewrite (get_lettersOnly _ _ _ Hknown Hget') in Hkey. discriminate Hkey.
Qed.

End DeprecationShape.

Lemma register_leaves_other_names_witness :
  Deprecation.getDeprecationInfo
    (Deprecation.registerDeprecation Deprecation.create "CustomAPI"
       (Some Sample.customInfo)) "ArrayProxy"
  = Deprecation.getDeprecationInfo Deprecation.create "ArrayProxy"
  /\ Deprecation.isDeprecated
       (Deprecation.registerDeprecation Deprecation.create "CustomAPI"
          (Some Sample.customInfo)) "ArrayProxy"
     = Deprecation.isDeprecated Deprecation.create "ArrayProxy".
Proof.
  apply (register_leaves_other_names Deprecation.create "CustomAPI"
           "ArrayProxy" (Some Sample.customInfo)).
  vm_compute. discriminate.
Defined.

Lemma banner_shows_record_witness :
  exists info,
    Deprecation.getDeprecationInfo Deprecation.create "ArrayProxy" = Some info
    /\ Js.occursIn ("`" ++ Deprecation.name info ++ "`")
         (DeprecationText.generateWarning DeprecationSample.icons
            Deprecation.create "ArrayProxy" "banner").
Proof.
  eexists. split; [reflexivity |].
  apply (banner_shows_record DeprecationSample.icons Deprecation.create
           "ArrayProxy").
  reflexivity.
Defined.

Lemma result_titled_with_api_name_witness :
  (exists info,
      Deprecation.getDeprecationInfo Deprecation.create "ArrayProxy"
      = Some info
      /\ DeprecationText.checkSearchResult Deprecation.create
           ("ArrayProxy" ++ " Documentation") "Some content about ArrayProxy"
         = Some (DeprecationText.Registered info))
  /\ DeprecationText.checkSearchResult Deprecation.create
       ("The" ++ " ArrayProxy class") "Some content about ArrayProxy"
     = None.
Proof.
  split.
  - apply (result_titled_with_api_name Deprecation.create "ArrayProxy"
             " Documentation" "Some content about ArrayProxy");
      reflexivity.
  - apply (result_titled_with_api_name Deprecation.create "The"
             " ArrayProxy class" "Some content about ArrayProxy");
      reflexivity.
Defined.

Lemma result_flagged_by_keyword_witness :
  DeprecationText.checkSearchResult Deprecation.create "Some API"
    ("This API is" ++ " " ++ "Deprecated" ++ " " ++ "and should not be used.")
  <> None.
Proof.
  apply (result_flagged_by_keyword Deprecation.create "Some API"
           "This API is" "Deprecated" "and should not be used.").
  - discriminate.
  - left. reflexivity.
Defined.

Lemma analysis_keeps_deprecations_witness :
  Deprecation.isDeprecated
    (DeprecationText.analyzeDocumentation DeprecationSample.captures
       Deprecation.create DeprecationSample.guide) "Evented" = true
  /\ Deprecation.knownDeprecations
       (DeprecationText.analyzeDocumentation DeprecationSample.captures
          Deprecation.create DeprecationSample.guide)
     = Deprecation.knownDeprecations Deprecation.create.
Proof.
  apply (analysis_keeps_deprecations DeprecationSample.captures
           Deprecation.create DeprecationSample.guide "Evented").
  reflexivity.
Defined.

Lemma analysis_needs_deprecation_section_witness :
  DeprecationText.analyzeDocumentation DeprecationSample.captures
    Deprecation.create (DeprecationText.unlinked Sample.sections)
  = Deprecation.create.
Proof.
  apply (analysis_needs_deprecation_section DeprecationSample.captures
           Deprecation.create (DeprecationText.unlinked Sample.sections)).
  vm_compute. repeat constructor.
Defined.

Lemma analysis_provenance_witness :
  exists info,
    Deprecation.get
      (Deprecation.deprecations
         (DeprecationText.analyzeDocumentation DeprecationSample.captures
            Deprecation.create DeprecationSample.guide)) "arrayproxy"
    = Some info
    /\ Deprecation.since info = Some "5.0"
    /\ (Deprecation.get (Deprecation.deprecations Deprecation.create)
          "arrayproxy" = Some info
        \/ exists e item,
             In e DeprecationSample.guide
             /\ Js.includes "deprecation" (Js.toLowerCase (fst e)) = true
             /\ In item (snd e)
             /\ DeprecationText.hasDeprecationKeyword
                  (DeprecationText.text item) = true
             /\ In (Deprecation.name info)
                  (DeprecationText.backtickedNames
                     (DeprecationText.text item) 0)
             /\ "arrayproxy" = Js.toLowerCase (Deprecation.name info)
             /\ Deprecation.status info = "deprecated"
             /\ Deprecation.severity info = Some "warning"
             /\ Deprecation.deprecationGuideLink info
                = DeprecationText.link item).
Proof.
  eexists. split; [vm_compute; reflexivity |].
  split; [reflexivity |].
  apply (analysis_provenance DeprecationSample.captures Deprecation.create
           DeprecationSample.guide "arrayproxy").
  vm_compute. reflexivity.
Defined.

Lemma parsed_sections_give_no_guide_link_witness :
  exists info,
    Deprecation.get
      (Deprecation.deprecations
         (DeprecationText.analyzeDocumentation DeprecationSample.captures
            Deprecation.create
            (DeprecationText.unlinked
               (Sample.sectionsOf DeprecationSample.guideCorpus))))
      "arrayproxy"
    = Some info
    /\ (Deprecation.get (Deprecation.deprecations Deprecation.create)
          "arrayproxy" = Some info
        \/ Deprecation.deprecationGuideLink info = None).
Proof.
  eexists. split; [vm_compute; reflexivity |].
  apply (parsed_sections_give_no_guide_link DeprecationSample.captures
           Deprecation.create
           (Sample.sectionsOf DeprecationSample.guideCorpus) "arrayproxy").
  vm_compute. reflexivity.
Defined.

Lemma warning_needs_bare_name_witness :
  DeprecationText.lettersOnly
    (Deprecation.deprecations
       (DeprecationText.analyzeDocumentation DeprecationSample.captures
          Deprecation.create DeprecationSample.guide))
  /\ DeprecationText.generateWarning DeprecationSample.icons
       (DeprecationText.analyzeDocumentation DeprecationSample.captures
          Deprecation.create DeprecationSample.guide)
       "ArrayProxy Documentation" "short"
     = EmptyString.
Proof.
  apply (warning_needs_bare_name DeprecationSample.captures
           DeprecationSample.icons Deprecation.create DeprecationSample.guide
           "ArrayProxy Documentation" "short").
  - constructor.
  - unfold DeprecationText.lettersOnly.
    repeat (apply Forall_cons; [vm_compute; reflexivity |]).
    apply Forall_nil.
  - reflexivity.
Defined.

(** The repository's unit tests of the warnings and of [checkSearchResult],
    and the result that is flagged by its title and gets no warning under
    that title. *)
Example test_warnings_and_results :
  Js.includes "DEPRECATION WARNING"
    (DeprecationText.generateWarning DeprecationSample.icons
       Deprecation.create "ArrayProxy" "banner") = true
  /\ Js.includes "Modern Alternative"
       (DeprecationText.generateWarning DeprecationSample.icons
          Deprecation.create "ArrayProxy" "banner") = true
  /\ DeprecationText.generateWarning DeprecationSample.icons
       Deprecation.create "Component" "banner" = EmptyString
  /\ DeprecationText.checkSearchResult Deprecation.create "Some API"
       "This API is deprecated and should not be used."
     = Some DeprecationText.PossiblyDeprecated
  /\ DeprecationText.checkSearchResult Deprecation.create "Component Guide"
       "Components are the core building blocks." = None
  /\ (exists info,
         DeprecationText.checkSearchResult Deprecation.create
           "ArrayProxy Documentation" "Some content about ArrayProxy"
         = Some (DeprecationText.Registered info))
  /\ DeprecationText.generateWarning DeprecationSample.icons
       Deprecation.create "ArrayProxy Documentation" "short" = EmptyString.
Proof.
  repeat split; try (vm_compute; reflexivity).
  eexists. vm_compute. reflexivity.
Qed.

Example test_analyze_documentation :
  Deprecation.isDeprecated
    (DeprecationText.analyzeDocumentation DeprecationSample.captures
       Deprecation.create DeprecationSample.guide) "ArrayProxy" = true
  /\ option_map Deprecation.deprecationGuideLink
       (Deprecation.getDeprecationInfo
          (DeprecationText.analyzeDocumentation DeprecationSample.captures
             Deprecation.create DeprecationSample.guide) "ArrayProxy")
     = Some (Some DeprecationSample.guideLink).
Proof. split; vm_compute; reflexivity. Qed.

(** ** Titles and excerpts of items without a header or a hit *)

Section TitleShape.

Variable host : Host.

Lemma length_substring0 (k : nat) (s : string) :
  String.length (String.substring 0 k s) = Nat.min k (String.length s).
Proof.
  revert s. induction k as [| k IH]; intros s.
  - destruct s; reflexivity.
  - destruct s as [| c s]; simpl; [reflexivity |].
    rewrite IH. reflexivity.
Qed.

Lemma jsSubstring0_length (s : string) (n : nat) :
  (String.length (Js.substring s 0 (Z.of_nat n)) <= n)%nat.
Proof.
  unfold Js.substring, Js.len. cbv zeta.
  set (len := Z.of_nat (String.length s)).
  replace (Z.min (Z.max 0 0) len) with 0%Z by lia.
  replace (Z.min 0 (Z.min (Z.max (Z.of_nat n) 0) len)) with 0%Z by lia.
  change (Z.to_nat 0) with 0%nat.
  rewrite length_substring0. lia.
Qed.

Lemma jsSubstring0_nonempty (s : string) (n : nat) :
  s <> EmptyString -> (0 < n)%nat ->
  Js.substring s 0 (Z.of_nat n) <> EmptyString.
Proof.
  intros Hs Hn. unfold Js.substring, Js.len. cbv zeta.
  set (len := Z.of_nat (String.length s)).
  replace (Z.min (Z.max 0 0) len) with 0%Z by lia.
  replace (Z.min 0 (Z.min (Z.max (Z.of_nat n) 0) len)) with 0%Z by lia.
  change (Z.to_nat 0) with 0%nat.
  destruct s as [| c s]; [contradiction Hs; reflexivity |].
  assert (Hk : exists k,
             Z.to_nat
               (Z.max 0 (Z.min (Z.max (Z.of_nat n) 0) len) - 0) = S k).
  { subst len. cbn [String.length].
    exists (Nat.pred (Nat.min n (S (String.length s)))). lia. }
  destruct Hk as [k ->]. simpl. discriminate.
Qed.

Lemma jsSubstring0_prefix (s : string) (n : Z) :
  prefix (Js.substring s 0 n) s = true.
Proof.
  unfold Js.substring, Js.len. cbv zeta.
  set (len := Z.of_nat (String.length s)).
  replace (Z.min (Z.max 0 0) len) with 0%Z by lia.
  replace (Z.min 0 (Z.min (Z.max n 0) len)) with 0%Z by lia.
  change (Z.to_nat 0) with 0%nat.
  generalize (Z.to_nat (Z.max 0 (Z.min (Z.max n 0) len) - 0)).
  clear len. intros k. revert s.
  induction k as [| k IH]; intros s.
  - destruct s; reflexivity.
  - destruct s as [| c s]; simpl; [reflexivity |].
    destruct (ascii_dec c c) as [_ | Hne]; [apply IH | contradiction Hne; reflexivity].
Qed.

Lemma trimStart_head (s : string) (c : ascii) (r : string) :
  Js.trimStart s = String c r -> Js.isSpace c = false.
Proof.
  induction s as [| d s IH]; simpl; [discriminate |].
  destruct (Js.isSpace d) eqn:Hd; [exact IH |].
  intros H. inversion H; subst. exact Hd.
Qed.

Lemma trim_head (s : string) (c : ascii) (r : string) :
  Js.trim s = String c r -> Js.isSpace c = false.
Proof.
  unfold Js.trim.
  destruct (Js.trimStart s) as [| d t] eqn:Hstart; [discriminate |].
  pose proof (trimStart_head s d t Hstart) as Hd.
  simpl. rewrite Hd. simpl. intros H. inversion H; subst. exact Hd.
Qed.

Lemma trim_keeps_head (c : ascii) (r : string) :
  Js.isSpace c = false -> Js.trim (String c r) <> EmptyString.
Proof.
  intros Hc. unfold Js.trim.
  cbn [Js.trimStart]. rewrite Hc.
  cbn [Js.trimEnd]. rewrite Hc. cbn [andb]. discriminate.
Qed.

Lemma firstSentence_head (c : ascii) (r snt : string) :
  Title.firstSentence (String c r) = Some snt -> exists x, snt = String c x.
Proof.
  unfold Title.firstSentence.
  destruct (Title.isTerminator c) eqn:Hc; [discriminate |].
  simpl. rewrite Hc.
  destruct (Title.throughTerminator r) as [x |]; simpl; [| discriminate].
  intros H. inversion H. exists x. reflexivity.
Qed.

Lemma fallback_shape (ls : list string) :
  Title.fallback ls <> EmptyString
  /\ (String.length (Title.fallback ls) <= 100)%nat.
Proof.
  induction ls as [| line rest IH]; simpl.
  - split; [discriminate | simpl; lia].
  - destruct (Title.skipped (Js.trim line)); [exact IH |].
    destruct (Title.isGeneric (Js.trim line)); [exact IH |].
    destruct (10 <? String.length (Js.trim line))%nat eqn:Hlen; [| exact IH].
    apply Nat.ltb_lt in Hlen.
    destruct (Js.trim line) as [| c r] eqn:Htrim; [simpl in Hlen; lia |].
    pose proof (trim_head line c r Htrim) as Hc.
    destruct (Title.firstSentence (String c r)) as [snt |] eqn:Hs.
    + destruct (firstSentence_head c r snt Hs) as [x ->].
      split.
      * apply (jsSubstring0_nonempty _ 100); [| lia].
        apply trim_keeps_head. exact Hc.
      * apply (jsSubstring0_length _ 100).
    + split.
      * apply (jsSubstring0_nonempty _ 100); [discriminate | lia].
      * apply (jsSubstring0_length _ 100).
Qed.

Lemma firstHeader_long (ls : list string) (t : string) :
  Title.firstHeader ls = Some t -> (3 < String.length t)%nat.
Proof.
  induction ls as [| line rest IH]; simpl; [discriminate |].
  destruct (Title.headerTitle line) as [h |]; [| exact IH].
  destruct (negb (Title.isGeneric h) && (3 <? String.length h)%nat) eqn:Hh;
    [| exact IH].
  intros H. inversion H; subst.
  apply andb_true_iff in Hh. destruct Hh as [_ Hh].
  apply Nat.ltb_lt. exact Hh.
Qed.

(** X23. For a content that does not open with three dashes and does not
    hold the text ["data"] with its quotes (no front matter, no API
    record), the title is never empty: it is a header text of more than
    three characters or, when no header qualifies, a text of at most 100
    characters. *)
Theorem title_without_metadata (text : string) :
  prefix "---" text = false ->
  Js.includes Title.dataKey text = false ->
  Title.extractTitle host text <> EmptyString
  /\ (forall t,
         Title.firstHeader (Js.lines text) = Some t ->
         Title.extractTitle host text = t /\ (3 < String.length t)%nat)
  /\ (Title.firstHeader (Js.lines text) = None ->
      (String.length (Title.extractTitle host text) <= 100)%nat).
Proof.
  intros Hfront Hdata. unfold Title.extractTitle.
  rewrite Hfront, Hdata.
  destruct (Title.firstHeader (Js.lines text)) as [t |] eqn:Hheader.
  - pose proof (firstHeader_long _ _ Hheader) as Hlong.
    split; [| split].
    + destruct t; [simpl in Hlong; lia | discriminate].
    + intros t' Ht'. inversion Ht'; subst. split; [reflexivity | exact Hlong].
    + discriminate.
  - destruct (fallback_shape (Js.lines text)) as [Hne Hlen].
    split; [exact Hne |]. split; [discriminate | intros _; exact Hlen].
Qed.

Lemma aroundFirstTerm_none (text lower : string) (terms : list string) :
  (forall t, In t terms -> Js.includes t lower = false) ->
  Excerpt.aroundFirstTerm text lower terms = None.
Proof.
  induction terms as [| t rest IH]; intros Hnone; simpl; [reflexivity |].
  assert (Ht : Js.indexOf t lower = (-1)%Z).
  { specialize (Hnone t (or_introl eq_refl)).
    unfold Js.includes in Hnone. unfold Js.indexOf.
    destruct (index 0 t lower); [discriminate Hnone | reflexivity]. }
  rewrite Ht. simpl. apply IH.
  intros u Hu. apply Hnone. right. exact Hu.
Qed.

Lemma firstParagraph_shape (ls : list string) :
  Excerpt.firstParagraph ls <> EmptyString
  /\ (String.length (Excerpt.firstParagraph ls) <= 350)%nat
  /\ (Excerpt.firstParagraph ls = "No preview available"
      \/ exists line,
           In line ls
           /\ prefix (Excerpt.firstParagraph ls) (Js.trim line) = true).
Proof.
  induction ls as [| line rest IH]; cbn [Excerpt.firstParagraph].
  - split; [discriminate |]. split; [simpl; lia | left; reflexivity].
  - match goal with
    | |- context [if ?c then _ else _] => destruct c eqn:Hc
    end.
    + apply andb_true_iff in Hc. destruct Hc as [_ Hlen].
      apply Nat.ltb_lt in Hlen.
      split; [| split].
      * apply (jsSubstring0_nonempty _ 350); [| lia].
        destruct (Js.trim line); [simpl in Hlen; lia | discriminate].
      * apply (jsSubstring0_length _ 350).
      * right. exists line. split; [left; reflexivity |].
        apply jsSubstring0_prefix.
    + destruct IH as [Hne [Hlen Hfrom]].
      split; [exact Hne |]. split; [exact Hlen |].
      destruct Hfrom as [Hnone | [l [Hl Hp]]]; [left; exact Hnone |].
      right. exists l. split; [right; exact Hl | exact Hp].
Qed.

(** X24. Without recorded positions and with no term that occurs in the
    content, the excerpt is not empty and at most 350 characters long: it
    is the text [No preview available] or a leading part of a line of the
    content, trimmed. *)
Theorem excerpt_without_hits (text : string) (terms : list string) :
  (forall t, In t terms -> Js.includes t (Js.toLowerCase text) = false) ->
  Excerpt.extractExcerpt text terms [] <> EmptyString
  /\ (String.length (Excerpt.extractExcerpt text terms []) <= 350)%nat
  /\ (Excerpt.extractExcerpt text terms [] = "No preview available"
      \/ exists line,
           In line (Js.lines text)
           /\ prefix (Excerpt.extractExcerpt text terms []) (Js.trim line)
              = true).
Proof.
  intros Hnone. unfold Excerpt.extractExcerpt.
  rewrite aroundFirstTerm_none by exact Hnone.
  apply firstParagraph_shape.
Qed.

End TitleShape.

Lemma title_without_metadata_witness :
  Title.extractTitle Sample.host "Intro
Components are the building blocks of an application. They last."
  = "Components are the building blocks of an application."
  /\ (String.length
        (Title.extractTitle Sample.host "Intro
Components are the building blocks of an application. They last.")
      <= 100)%nat.
Proof.
  split; [vm_compute; reflexivity |].
  apply (title_without_metadata Sample.host "Intro
Components are the building blocks of an application. They last.");
    vm_compute; reflexivity.
Defined.

Lemma excerpt_without_hits_witness :
  Excerpt.extractExcerpt "# Title
A line that is long enough to serve as a preview." ["absent"] []
  <> EmptyString.
Proof.
  apply (excerpt_without_hits "# Title
A line that is long enough to serve as a preview." ["absent"]).
  intros t [<- | []]. vm_compute. reflexivity.
Defined.

(** ** Links, release notes and version information *)

Section ReleaseNotesShape.

Import UrlBuilder ReleaseNotes.

Lemma trimEnd_idem (s : string) : Js.trimEnd (Js.trimEnd s) = Js.trimEnd s.
Proof.
  induction s as [| c s IH]; simpl; [reflexivity |].
  destruct (Js.isSpace c && Js.isEmpty (Js.trimEnd s)) eqn:Hc;
    [reflexivity |].
  simpl. rewrite IH, Hc. reflexivity.
Qed.

Lemma trim_idem (s : string) : Js.trim (Js.trim s) = Js.trim s.
Proof.
  unfold Js.trim.
  destruct (Js.trimStart s) as [| c r] eqn:Hstart; [reflexivity |].
  pose proof (trimStart_head s c r Hstart) as Hc.
  assert (Hend : Js.trimEnd (String c r) = String c (Js.trimEnd r)).
  { simpl. rewrite Hc. reflexivity. }
  rewrite Hend. cbn [Js.trimStart]. rewrite Hc.
  rewrite <- Hend. apply trimEnd_idem.
Qed.

(** X25. The description of a release is never empty and at most 300
    characters long. *)
Theorem description_shape (body : string) :
  extractDescription body <> EmptyString
  /\ (String.length (extractDescription body) <= 300)%nat.
Proof.
  unfold extractDescription. cbv zeta.
  destruct (Js.isEmpty (Js.substring _ 0 300)) eqn:Hempty.
  - split; [discriminate | simpl; lia].
  - split.
    + intros H. rewrite H in Hempty. discriminate Hempty.
    + apply (jsSubstring0_length _ 300).
Qed.

Lemma splitOn_nonempty (sep : ascii -> bool) (s : string) :
  Js.splitOn sep s <> [].
Proof.
  destruct s as [| c s]; simpl; [discriminate |].
  destruct (sep c); [discriminate |].
  destruct (Js.splitOn sep s); discriminate.
Qed.

Lemma lines_app_newline (a b : string) :
  Js.lines (a ++ String Js.newline b) = Js.lines a ++ Js.lines b.
Proof.
  unfold Js.lines.
  induction a as [| c a IH]; cbn [Js.splitOn append].
  - rewrite Ascii.eqb_refl. reflexivity.
  - destruct (Ascii.eqb Js.newline c).
    + rewrite IH. reflexivity.
    + rewrite IH.
      destruct (Js.splitOn (Ascii.eqb Js.newline) a) as [| w ws] eqn:Ha;
        [exfalso; exact (splitOn_nonempty _ _ Ha) | reflexivity].
Qed.

Lemma lines_single (s : string) :
  Js.anyChar (Ascii.eqb Js.newline) s = false -> Js.lines s = [s].
Proof.
  unfold Js.lines.
  induction s as [| c s IH]; cbn [Js.splitOn Js.anyChar]; [reflexivity |].
  intros H. apply orb_false_iff in H. destruct H as [Hc Hs].
  rewrite Hc, (IH Hs). reflexivity.
Qed.

Lemma collect_stop (stop : string) (post : list string) :
  (isHeading stop || isBullet stop) = true ->
  forall pre acc, collect (pre ++ stop :: post) acc = collect pre acc.
Proof.
  intros Hstop. induction pre as [| line pre IH]; intros acc;
    cbn [collect app].
  - rewrite Hstop. reflexivity.
  - destruct (isHeading line || isBullet line); [reflexivity |].
    cbv zeta.
    match goal with
    | |- context [if (3 <=? ?n)%nat then _ else _] => destruct (3 <=? n)%nat
    end; [reflexivity | apply IH].
Qed.

(** X26. The description is taken from in front of the first heading or
    list item: what follows that line, and the line itself, do not change
    it. *)
Theorem description_stops_at_heading (pre stop post : string) :
  (isHeading stop || isBullet stop) = true ->
  Js.anyChar (Ascii.eqb Js.newline) stop = false ->
  extractDescription
    (pre ++ String Js.newline (stop ++ String Js.newline post))
  = extractDescription pre.
Proof.
  intros Hstop Hline. unfold extractDescription.
  rewrite !lines_app_newline, (lines_single stop Hline).
  cbn [app]. rewrite collect_stop by exact Hstop. reflexivity.
Qed.

Lemma itemsOf_shape (tags : list string) (line : string) :
  Forall
    (fun i => (10 <= String.length i <= 200)%nat /\ Js.trim i = i)
    (itemsOf tags 10 200 line).
Proof.
  unfold itemsOf.
  destruct (isBullet line && tagged tags line); [| constructor].
  cbv zeta.
  destruct ((10 <=? String.length (cleanItem line))%nat
            && (String.length (cleanItem line) <=? 200)%nat) eqn:Hlen;
    [| constructor].
  apply andb_true_iff in Hlen. destruct Hlen as [Hlo Hhi].
  apply Nat.leb_le in Hlo, Hhi.
  constructor; [| constructor].
  split; [lia |]. unfold cleanItem. apply trim_idem.
Qed.

Lemma extractByTag_shape (body : string) (tags : list string) :
  wellSized (extractByTag body tags 10 10 200).
Proof.
  unfold wellSized, extractByTag. split.
  - apply (slice0_length_nat _ 10).
  - apply slice0_Forall. apply Forall_forall. intros i Hi.
    apply in_flat_map in Hi. destruct Hi as [line [_ Hi]].
    pose proof (itemsOf_shape tags line) as Hall.
    rewrite Forall_forall in Hall. exact (Hall i Hi).
Qed.

(** X27. Each of the three lists taken from release notes (features, bug
    fixes, breaking changes) has at most ten items; every item is at least
    10 and at most 200 characters long and has no white space at either
    end. *)
Theorem release_items_shape (body : string) :
  let sized items :=
    (List.length items <= 10)%nat
    /\ Forall
         (fun i => (10 <= String.length i <= 200)%nat /\ Js.trim i = i)
         items in
  sized (extractFeatures body)
  /\ sized (extractBugFixes body)
  /\ sized (extractBreakingChanges body).
Proof.
  cbv zeta. split; [| split]; apply extractByTag_shape.
Qed.

Variable b : Bases.

Lemma takeWhile_app (p : ascii -> bool) (x tail : string) :
  Js.allChars p x = true -> startsWith p tail = false ->
  takeWhile p (x ++ tail) = x.
Proof.
  intros Hx Htail. induction x as [| c x IH]; simpl.
  - destruct tail as [| d tail]; [reflexivity |].
    simpl in Htail |- *. rewrite Htail. reflexivity.
  - simpl in Hx. apply andb_true_iff in Hx. destruct Hx as [Hc Hx].
    rewrite Hc, (IH Hx). reflexivity.
Qed.

(** X28. Where the link of a search result points. Outside the API section
    it is the home of the guides, whatever the title. In the API section a
    title that opens with a class name, followed by nothing or by something
    that is neither a letter nor a digit, gets the page that
    [generateApiUrl] gives that class; a title that does not open with a
    capital gets the home of the API documentation. *)
Theorem links_of_results :
  (forall sectionName title,
      sectionName <> "api-docs" ->
      generateUrl b sectionName title = GUIDES_BASE b)
  /\ (forall cls tail,
         isClassName cls = true -> startsWith isAlnum tail = false ->
         generateUrl b "api-docs" (cls ++ tail)
         = generateApiUrl b cls "class")
  /\ (forall title,
         startsWith Js.isUpper title = false ->
         generateUrl b "api-docs" title = API_DOCS_BASE b).
Proof.
  split; [| split].
  - intros sectionName title Hne. unfold generateUrl.
    apply String.eqb_neq in Hne. rewrite Hne. reflexivity.
  - intros cls tail Hcls Htail. unfold generateUrl, generateApiUrl.
    cbn [String.eqb Ascii.eqb Bool.eqb].
    destruct cls as [| c rest]; [discriminate Hcls |].
    unfold isClassName in Hcls.
    apply andb_true_iff in Hcls. destruct Hcls as [Hc Hrest].
    cbn [append className]. rewrite Hc.
    rewrite takeWhile_app by assumption. reflexivity.
  - intros title Htitle. unfold generateUrl.
    cbn [String.eqb Ascii.eqb Bool.eqb].
    destruct title as [| c rest]; [reflexivity |].
    simpl in Htitle. cbn [className]. rewrite Htitle. reflexivity.
Qed.

End ReleaseNotesShape.

Section VersionInfoShape.

Import UrlBuilder VersionInfo.

Variable host : Host.
Variable b : Bases.

Lemma harmless_char (c : ascii) :
  (negb (Regex.isSyntaxChar c) || Ascii.eqb c "."%char) = true ->
  Ascii.eqb c "("%char = false /\ Ascii.eqb c ")"%char = false
  /\ Ascii.eqb "["%char c = false /\ Js.charIn "\[]" c = false.
Proof.
  destruct c as [[] [] [] [] [] [] [] []]; vm_compute;
    intros H; try discriminate H; repeat split; reflexivity.
Qed.

Lemma harmless_balanced (v : string) :
  harmless v = true -> forall d, Regex.groupsBalanced v d = (d =? 0)%nat.
Proof.
  unfold harmless.
  induction v as [| c v IH]; simpl; intros H d; [reflexivity |].
  apply andb_true_iff in H. destruct H as [Hc Hv].
  destruct (harmless_char c Hc) as [H1 [H2 _]].
  rewrite H1, H2. apply IH. exact Hv.
Qed.

Lemma harmless_no_class (v : string) :
  harmless v = true -> Regex.afterFirst "["%char v = None.
Proof.
  unfold harmless.
  induction v as [| c v IH]; cbn [Regex.afterFirst Js.allChars]; intros H;
    [reflexivity |].
  apply andb_true_iff in H. destruct H as [Hc Hv].
  destruct (harmless_char c Hc) as [_ [_ [H3 _]]].
  rewrite H3. apply IH. exact Hv.
Qed.

Lemma rejected_not_harmless (v : string) :
  (Regex.unbalancedGroup v || Regex.unterminatedClass v) = true ->
  harmless v = false /\ v <> EmptyString.
Proof.
  intros Hbad. split.
  - destruct (harmless v) eqn:Hh; [| reflexivity].
    unfold Regex.unbalancedGroup, Regex.unterminatedClass in Hbad.
    rewrite (harmless_balanced v Hh 0), (harmless_no_class v Hh) in Hbad.
    simpl in Hbad. rewrite !andb_false_r in Hbad. discriminate Hbad.
  - intros ->. vm_compute in Hbad. discriminate Hbad.
Qed.

(** X29. [getVersionInfo] throws on a version in which a group is opened
    and not closed, or closed and not opened, or a class is opened and not
    closed: the version is put into a pattern as it is. *)
Theorem version_info_throws_on_brackets (sections : Sections) (v : string) :
  (Regex.unbalancedGroup v || Regex.unterminatedClass v) = true ->
  getVersionInfo host b sections (Some v) = Throws SyntaxError.
Proof.
  intros Hbad.
  destruct (rejected_not_harmless v Hbad) as [Hh Hne].
  unfold getVersionInfo, DeprecationText.present.
  rewrite (isEmpty_false v Hne). unfold patternRejected.
  rewrite Hh, Hbad. reflexivity.
Qed.

Lemma takeWhile_all (p : ascii -> bool) (s : string) :
  Js.allChars p (takeWhile p s) = true.
Proof.
  induction s as [| c s IH]; simpl; [reflexivity |].
  destruct (p c) eqn:Hc; simpl; [| reflexivity].
  rewrite Hc, IH. reflexivity.
Qed.

Lemma versionAt_shape (s v : string) :
  versionAt s = Some v -> isDottedTriple v.
Proof.
  unfold versionAt.
  destruct (dropWhile Js.isDigit s) as [| dot1 r1]; [discriminate |].
  destruct (dropWhile Js.isDigit r1) as [| dot2 r2]; [discriminate |].
  destruct (negb (Js.isEmpty (takeWhile Js.isDigit s))
            && Ascii.eqb dot1 "."%char
            && negb (Js.isEmpty (takeWhile Js.isDigit r1))
            && Ascii.eqb dot2 "."%char
            && negb (Js.isEmpty (takeWhile Js.isDigit r2))) eqn:Hok;
    [| discriminate].
  intros H. inversion H; subst v; clear H.
  repeat (apply andb_true_iff in Hok; destruct Hok as [Hok ?]).
  exists (takeWhile Js.isDigit s), (takeWhile Js.isDigit r1),
    (takeWhile Js.isDigit r2).
  unfold isNumber. rewrite !takeWhile_all.
  repeat split; try (apply andb_true_iff; split; [assumption | reflexivity]).
Qed.

Lemma emberVersion_shape (s v : string) :
  emberVersion s = Some v -> isDottedTriple v.
Proof.
  induction s as [| c rest IH]; cbn [emberVersion]; [discriminate |].
  destruct (prefix "ember-" (Js.toLowerCase (String c rest))); [| exact IH].
  destruct (versionAt (DeprecationText.dropN 6 (String c rest))) as [w |]
    eqn:Hw; [| exact IH].
  intros H. inversion H; subst w. eapply versionAt_shape. exact Hw.
Qed.

Lemma currentVersion_shape (docs : list Item) :
  currentVersion docs = "unknown" \/ isDottedTriple (currentVersion docs).
Proof.
  induction docs as [| doc rest IH]; simpl; [left; reflexivity |].
  destruct (emberVersion (content doc)) as [v |] eqn:Hv; [| exact IH].
  right. eapply emberVersion_shape. exact Hv.
Qed.

(** X30. For a version that is not given, or one made of characters that
    are no pattern syntax and of dots (such as [5.4.0]), [getVersionInfo]
    returns; the current version it reports is the word [unknown] or three
    numbers with dots between them, the description names the version that
    was asked for, and the features are the four fixed ones whatever the
    documentation holds. *)
Theorem version_info_shape (sections : Sections) (version : option string) :
  (forall v, version = Some v -> harmless v = true) ->
  exists info,
    getVersionInfo host b sections version = Returns info
    /\ (current info = "unknown" \/ isDottedTriple (current info))
    /\ (forall v,
           version = Some v -> v <> EmptyString ->
           description info
           = ("Information about Ember.js version " ++ v)%string)
    /\ features info = defaultFeatures.
Proof.
  intros Hharmless. unfold getVersionInfo.
  assert (Haccepted :
            match DeprecationText.present version with
            | Some v => patternRejected host v
            | None => false
            end = false).
  { destruct version as [v |]; simpl; [| reflexivity].
    destruct (Js.isEmpty v); [reflexivity |].
    unfold patternRejected. rewrite (Hharmless v eq_refl). reflexivity. }
  rewrite Haccepted.
  eexists. split; [reflexivity |]. cbn [current description features].
  split; [apply currentVersion_shape |].
  split; [| reflexivity].
  intros v -> Hne. simpl. rewrite (isEmpty_false v Hne). reflexivity.
Qed.

End VersionInfoShape.

Lemma description_stops_at_heading_witness :
  ReleaseNotes.extractDescription
    ("Initial description here." ++
     String Js.newline ("# More Content" ++ String Js.newline "Additional stuff"))
  = ReleaseNotes.extractDescription "Initial description here.".
Proof.
  apply (description_stops_at_heading "Initial description here."
           "# More Content" "Additional stuff"); reflexivity.
Defined.

Lemma version_info_throws_on_brackets_witness :
  VersionInfo.getVersionInfo Sample.host LinkSample.bases
    LinkSample.apiSections (Some "5.0 (beta") = Throws SyntaxError.
Proof.
  apply (version_info_throws_on_brackets Sample.host LinkSample.bases
           LinkSample.apiSections "5.0 (beta").
  reflexivity.
Defined.

Lemma version_info_shape_witness :
  exists info,
    VersionInfo.getVersionInfo Sample.host LinkSample.bases
      LinkSample.apiSections (Some "5.4.0") = Returns info
    /\ VersionInfo.current info = "5.4.0".
Proof.
  destruct (version_info_shape Sample.host LinkSample.bases
              LinkSample.apiSections (Some "5.4.0")) as [info [Hinfo _]].
  - intros v Hv. inversion Hv. reflexivity.
  - exists info. split; [exact Hinfo |].
    vm_compute in Hinfo. inversion Hinfo. reflexivity.
Defined.

(** The repository's unit tests of the parser of release notes. *)
Example test_release_notes :
  ReleaseNotes.extractDescription "Description text.

- List item 1
- List item 2" = "Description text."
  /\ ReleaseNotes.extractDescription EmptyString
     = "No description available in release notes."
  /\ ReleaseNotes.extractFeatures "### CHANGELOG

- [#20950](https://github.com/emberjs/ember.js/pull/20950) [FEATURE] Add new @cached decorator
- [#20951](https://github.com/emberjs/ember.js/pull/20951) [ENHANCEMENT] Improve build times
- [#20952](https://github.com/emberjs/ember.js/pull/20952) [BUGFIX] Fix routing issue"
     = ["Add new @cached decorator"; "Improve build times"]
  /\ ReleaseNotes.extractFeatures "### CHANGELOG

- [#1](https://github.com/emberjs/ember.js/pull/1) [FEATURE] Short
- [#2](https://github.com/emberjs/ember.js/pull/2) [FEATURE] This is a proper feature description"
     = ["This is a proper feature description"]
  /\ ReleaseNotes.extractBugFixes "### CHANGELOG

- [#20950](https://github.com/emberjs/ember.js/pull/20950) [FEATURE] Upgrade glimmer-vm
- [#20989](https://github.com/emberjs/ember.js/pull/20989) / [#20990](https://github.com/emberjs/ember.js/pull/20990) [BUGFIX] Fix memory leak in router service"
     = ["Fix memory leak in router service"].
Proof. repeat split; vm_compute; reflexivity. Qed.

Lemma search_returns_on_plain_terms_witness :
  exists out,
    search Sample.config Sample.host Sample.sections "tracked state" "all" 5
    = Returns out.
Proof.
  apply (search_returns_on_plain_terms Sample.config Sample.host
           Sample.sections "tracked state" "all" 5).
  - vm_compute. repeat constructor.
  - set (items := flat_map _ _). vm_compute in items. subst items.
    repeat (apply Forall_cons; [vm_compute; reflexivity |]). apply Forall_nil.
Defined.

Lemma parseDocumentation_returns_witness :
  exists secs, Segmenter.parseDocumentation Sample.twoSections = Returns secs.
Proof.
  apply (parseDocumentation_returns Sample.twoSections).
  set (ls := Js.lines Sample.twoSections). vm_compute in ls. subst ls.
  repeat (apply Forall_cons;
          [intros H; first [discriminate H | intros E; discriminate E] |]).
  apply Forall_nil.
Defined.
